(** * The transaction manager of the storage node (be/src/olap/txn_manager.cpp)

    A shallow embedding of [TxnManager]: the sharded in-memory transaction
    index, the rowset objects it shares with its callers, the rowset-meta
    store it persists to, and the operations prepare / commit / publish /
    rollback / delete / force-rollback, followed by the properties of the
    index that the design document states.

    The embedding is sequential: every operation runs to completion under the
    locks it takes, so a lock guard has no counterpart here.  An operation that
    can end the process (LOG(FATAL), a failed CHECK, a null dereference)
    returns [option]; [None] is the terminated process. *)

From stdpp Require Import gmap list fin_maps strings.
From Stdlib Require Import ZArith Lia.

#[local] Open Scope Z_scope.
#[local] Set Warnings "-clear-no-such-hyp".

(** ** Identifiers and plain data *)

Abbreviation TPartitionId := Z (only parsing).
Abbreviation TTransactionId := Z (only parsing).
Abbreviation TTabletId := Z (only parsing).
Abbreviation SchemaHash := Z (only parsing).
Abbreviation RowsetId := Z (only parsing).
Abbreviation Version := (Z * Z)%type (only parsing).

(** [UniqueId]: 128 bits as two 64-bit halves; [TabletUid] is an alias. *)
Record UniqueId := mkUniqueId { uid_hi : Z; uid_lo : Z }.
Abbreviation TabletUid := UniqueId (only parsing).

(** [PUniqueId], the load id. *)
Record PUniqueId := mkPUniqueId { hi : Z; lo : Z }.

Record TabletInfo := mkTabletInfo {
  tablet_id : TTabletId;
  schema_hash : SchemaHash;
  tablet_uid : TabletUid
}.

#[global] Instance UniqueId_eq_dec : EqDecision UniqueId.
Proof. solve_decision. Defined.
#[global] Instance UniqueId_countable : Countable UniqueId.
Proof.
  refine (inj_countable' (fun u => (uid_hi u, uid_lo u))
                         (fun p => mkUniqueId p.1 p.2) _).
  by intros [].
Defined.
#[global] Instance PUniqueId_eq_dec : EqDecision PUniqueId.
Proof. solve_decision. Defined.
#[global] Instance TabletInfo_eq_dec : EqDecision TabletInfo.
Proof. solve_decision. Defined.
#[global] Instance TabletInfo_countable : Countable TabletInfo.
Proof.
  refine (inj_countable' (fun t => (tablet_id t, schema_hash t, tablet_uid t))
                         (fun p => mkTabletInfo p.1.1 p.1.2 p.2) _).
  by intros [].
Defined.

(** [TxnKey] is [std::pair<int64_t, int64_t>]: (partition id, transaction id). *)
Abbreviation TxnKey := (Z * Z)%type (only parsing).

Inductive KeysType := DUP_KEYS | UNIQUE_KEYS | AGG_KEYS.
Inductive RowsetTypePB := ALPHA_ROWSET | BETA_ROWSET.

#[global] Instance KeysType_eq_dec : EqDecision KeysType.
Proof. solve_decision. Defined.
#[global] Instance RowsetTypePB_eq_dec : EqDecision RowsetTypePB.
Proof. solve_decision. Defined.

(** The statuses the manager returns or passes through. *)
Inductive Status :=
  | OK
  | OLAP_ERR_TOO_MANY_TRANSACTIONS
  | OLAP_ERR_ROWSET_INVALID
  | OLAP_ERR_PUSH_TRANSACTION_ALREADY_EXIST
  | OLAP_ERR_ROWSET_SAVE_FAILED
  | OLAP_ERR_TRANSACTION_NOT_EXIST
  | OLAP_ERR_TRANSACTION_ALREADY_COMMITTED
  | NotFound
  | IOError.

#[global] Instance Status_eq_dec : EqDecision Status.
Proof. solve_decision. Defined.

(** ** Rowsets

    Modelled from the spec: the rowset classes (rowset.h, rowset_meta.h) are
    not part of the sources at hand.  A rowset carries its meta (rowset id,
    version, and the rest of the protobuf as an opaque value), its keys type
    and what [load_segments] yields. *)

Record RowsetMetaPB := mkRowsetMetaPB {
  pb_rowset_id : RowsetId;
  pb_version : Version;
  pb_rest : Z
}.

Record RowLocation := mkRowLocation {
  loc_rowset_id : RowsetId;
  loc_segment_id : Z;
  loc_row_id : Z
}.

(** Modelled from the spec: a segment as the delete-bitmap traversal sees it.
    [pk_read last_key n] stands for one round of new_iterator, batch creation,
    seek_at_or_after(last_key) and next_batch(n): a status and the cells read. *)
Record Segment := mkSegment {
  seg_id : Z;
  pk_num_rows : Z;
  pk_read : string -> Z -> Status * list string;
  segment_lookup_row_key : string -> Status * RowLocation
}.

Record Rowset := mkRowset {
  rowset_meta : RowsetMetaPB;
  keys_type : KeysType;
  load_segments : Status * list Segment
}.

Definition rowset_id (r : Rowset) : RowsetId := pb_rowset_id (rowset_meta r).
Definition version (r : Rowset) : Version := pb_version (rowset_meta r).

(** Modelled from the spec: [Rowset::make_visible] (rowset.cpp is not part of
    the sources at hand) records the version in the in-memory meta only. *)
Definition make_visible (v : Version) (r : Rowset) : Rowset :=
  mkRowset (mkRowsetMetaPB (pb_rowset_id (rowset_meta r)) v (pb_rest (rowset_meta r)))
           (keys_type r) (load_segments r).

(** A [RowsetSharedPtr] is an address in the store of rowset objects, or null. *)
Abbreviation RowsetPtr := positive (only parsing).
Abbreviation RowsetSharedPtr := (option RowsetPtr).

(** An [OlapMeta*] is the name of one storage root's store, or null. *)
Abbreviation MetaPtr := positive (only parsing).
Abbreviation RowsetMetaStore := (gmap (TabletUid * RowsetId) RowsetMetaPB).

(** ** Tablets (the part the publish path reads and writes) *)

Abbreviation DeleteBitmap := (gmap (RowsetId * Z * Z) (gset Z)).

Record Tablet := mkTablet {
  enable_unique_key_merge_on_write : bool;
  preferred_rowset_type : RowsetTypePB;
  lookup_row_key : string -> Z -> Status * RowLocation;
  delete_bitmap : DeleteBitmap
}.

Definition delete_bitmap_add (k : RowsetId * Z * Z) (row : Z) (bm : DeleteBitmap)
  : DeleteBitmap :=
  <[k := {[row]} ∪ default ∅ (bm !! k)]> bm.

(** ** The transaction index *)

(** Modelled from the spec: [TabletTxnInfo] is declared in txn_manager.h, which
    is not part of the sources at hand.  Its two-argument constructor stamps
    [creation_time] with the clock ("set on insert"). *)
Record TabletTxnInfo := mkTabletTxnInfo {
  load_id : PUniqueId;
  rowset : RowsetSharedPtr;
  creation_time : Z
}.

#[global] Instance TabletTxnInfo_eq_dec : EqDecision TabletTxnInfo.
Proof. solve_decision. Defined.

Abbreviation txn_tablet_map_t := (gmap TxnKey (gmap TabletInfo TabletTxnInfo)).
Abbreviation txn_partition_map_t := (gmap Z (gset Z)).

(** Process-wide configuration (config.h is not part of the sources at hand;
    the values are parameters).  [BE_TEST] is the build flag of the same name. *)
Record Config := mkConfig {
  max_runnings_transactions_per_txn_map : Z;
  pending_data_expire_time_sec : Z;
  BE_TEST : bool
}.

(** What the surroundings answer during one call: the clock, and the status of
    the store's put and remove. *)
Record Env := mkEnv {
  UnixSeconds : Z;
  olap_meta_put : Status;
  olap_meta_remove : Status
}.

(** The manager's fields together with the objects it shares: the rowsets
    behind the shared pointers, the stores behind the [OlapMeta] pointers, the
    storage engine's tablets and its list of unused rowsets. *)
Record State := mkState {
  _txn_map_shard_size : Z;
  _txn_shard_size : Z;
  _txn_tablet_maps : list txn_tablet_map_t;
  _txn_partition_maps : list txn_partition_map_t;
  rowsets : gmap RowsetPtr Rowset;
  metas : gmap MetaPtr RowsetMetaStore;
  tablets : gmap TTabletId Tablet;
  unused_rowsets : list RowsetPtr
}.

Definition set_tablet_maps (s : State) (l : list txn_tablet_map_t) : State :=
  mkState (_txn_map_shard_size s) (_txn_shard_size s) l (_txn_partition_maps s)
          (rowsets s) (metas s) (tablets s) (unused_rowsets s).
Definition set_partition_maps (s : State) (l : list txn_partition_map_t) : State :=
  mkState (_txn_map_shard_size s) (_txn_shard_size s) (_txn_tablet_maps s) l
          (rowsets s) (metas s) (tablets s) (unused_rowsets s).
Definition set_rowsets (s : State) (h : gmap RowsetPtr Rowset) : State :=
  mkState (_txn_map_shard_size s) (_txn_shard_size s) (_txn_tablet_maps s)
          (_txn_partition_maps s) h (metas s) (tablets s) (unused_rowsets s).
Definition set_metas (s : State) (ms : gmap MetaPtr RowsetMetaStore) : State :=
  mkState (_txn_map_shard_size s) (_txn_shard_size s) (_txn_tablet_maps s)
          (_txn_partition_maps s) (rowsets s) ms (tablets s) (unused_rowsets s).
Definition set_tablets (s : State) (ts : gmap TTabletId Tablet) : State :=
  mkState (_txn_map_shard_size s) (_txn_shard_size s) (_txn_tablet_maps s)
          (_txn_partition_maps s) (rowsets s) (metas s) ts (unused_rowsets s).
Definition set_unused_rowsets (s : State) (u : list RowsetPtr) : State :=
  mkState (_txn_map_shard_size s) (_txn_shard_size s) (_txn_tablet_maps s)
          (_txn_partition_maps s) (rowsets s) (metas s) (tablets s) u.

(** [TxnManager::TxnManager]: both arrays get [txn_map_shard_size] empty maps.
    The shared objects are whatever the process holds at that point. *)
Definition TxnManager_new (txn_map_shard_size txn_shard_size : Z)
    (h : gmap RowsetPtr Rowset) (ms : gmap MetaPtr RowsetMetaStore)
    (ts : gmap TTabletId Tablet) : State :=
  mkState txn_map_shard_size txn_shard_size
          (replicate (Z.to_nat txn_map_shard_size) ∅)
          (replicate (Z.to_nat txn_map_shard_size) ∅)
          h ms ts [].

(** The constructor's DCHECKs: positive sizes, both powers of two. *)
Definition valid_shard_sizes (txn_map_shard_size txn_shard_size : Z) : Prop :=
  0 < txn_map_shard_size ∧ 0 < txn_shard_size ∧
  Z.land txn_map_shard_size (txn_map_shard_size - 1) = 0 ∧
  Z.land txn_shard_size (txn_shard_size - 1) = 0.

(** Modelled from the spec: the shard accessors are inline in txn_manager.h;
    "shard = txn_id & (count - 1)". *)
Definition shard_of (s : State) (transaction_id : Z) : nat :=
  Z.to_nat (Z.land transaction_id (_txn_map_shard_size s - 1)).

(** [_txn_tablet_maps[i]] and [_txn_partition_maps[i]] *)
Definition tablet_map_at (s : State) (i : nat) : txn_tablet_map_t :=
  _txn_tablet_maps s !!! i.
Definition partition_map_at (s : State) (i : nat) : txn_partition_map_t :=
  _txn_partition_maps s !!! i.

Definition _get_txn_tablet_map (s : State) (transaction_id : Z) : txn_tablet_map_t :=
  tablet_map_at s (shard_of s transaction_id).

Definition _get_txn_partition_map (s : State) (transaction_id : Z)
  : txn_partition_map_t :=
  partition_map_at s (shard_of s transaction_id).

(** Writing through the reference an accessor returned. *)
Definition put_txn_tablet_map (s : State) (transaction_id : Z) (m : txn_tablet_map_t)
  : State :=
  set_tablet_maps s (<[shard_of s transaction_id := m]> (_txn_tablet_maps s)).

Definition put_txn_partition_map (s : State) (transaction_id : Z)
    (m : txn_partition_map_t) : State :=
  set_partition_maps s (<[shard_of s transaction_id := m]> (_txn_partition_maps s)).

(** ** Collaborators: the rowset-meta store *)

(** Modelled from the spec: [RowsetMetaManager::save] is declared in
    rowset_meta_manager.h and defined elsewhere; "put(tablet_uid, rowset_id,
    bytes) → ok | IoError".  It goes through the [OlapMeta] pointer, so a null
    pointer ends the process; a put that fails leaves the store as it was. *)
Definition RowsetMetaManager_save (env : Env) (meta : option MetaPtr)
    (uid : TabletUid) (rid : RowsetId) (pb : RowsetMetaPB) (s : State)
  : option (Status * State) :=
  match meta with
  | None => None
  | Some m =>
      if decide (olap_meta_put env = OK)
      then Some (OK, set_metas s (<[m := <[(uid, rid) := pb]> (metas s !!! m)]> (metas s)))
      else Some (olap_meta_put env, s)
  end.

(** Modelled from the spec: [RowsetMetaManager::remove], "remove(tablet_uid,
    rowset_id) → ok | IoError (NotFound is success)".  Both callers below test
    the pointer for null first and ignore the status. *)
Definition RowsetMetaManager_remove (env : Env) (m : MetaPtr)
    (uid : TabletUid) (rid : RowsetId) (s : State) : State :=
  if decide (olap_meta_remove env = OK)
  then set_metas s (<[m := delete (uid, rid) (metas s !!! m)]> (metas s))
  else s.

(** What a reader finds under [(uid, rid)] in the store [m]. *)
Definition rowset_meta_in_store (s : State) (m : MetaPtr) (uid : TabletUid)
    (rid : RowsetId) : option RowsetMetaPB :=
  (metas s !!! m) !! (uid, rid).

(** ** Partition-map helpers *)

(** [TxnManager::_insert_txn_partition_map_unlocked] *)
Definition _insert_txn_partition_map_unlocked (transaction_id partition_id : Z)
    (s : State) : State :=
  let txn_partition_map := _get_txn_partition_map s transaction_id in
  let txn_partition_map :=
    match txn_partition_map !! transaction_id with
    | None => <[transaction_id := ∅]> txn_partition_map
    | Some _ => txn_partition_map
    end in
  put_txn_partition_map s transaction_id
    (<[transaction_id :=
         default ∅ (txn_partition_map !! transaction_id) ∪ {[partition_id]}]>
       txn_partition_map).

(** [TxnManager::_clear_txn_partition_map_unlocked] *)
Definition _clear_txn_partition_map_unlocked (transaction_id partition_id : Z)
    (s : State) : State :=
  let txn_partition_map := _get_txn_partition_map s transaction_id in
  match txn_partition_map !! transaction_id with
  | Some ps =>
      let ps := ps ∖ {[partition_id]} in
      if decide (ps = ∅)
      then put_txn_partition_map s transaction_id (delete transaction_id txn_partition_map)
      else put_txn_partition_map s transaction_id (<[transaction_id := ps]> txn_partition_map)
  | None => s
  end.

(** ** Lookups shared by the operations *)

(** [txn_tablet_map.find(key)] followed by [it->second.find(tablet_info)]. *)
Definition find_load_info (m : txn_tablet_map_t) (key : TxnKey) (tablet_info : TabletInfo)
  : option TabletTxnInfo :=
  match m !! key with
  | Some tablets_of_txn => tablets_of_txn !! tablet_info
  | None => None
  end.

(** [a.hi() == b.hi() && a.lo() == b.lo()] *)
Definition same_load_id (a b : PUniqueId) : bool :=
  (hi a =? hi b) && (lo a =? lo b).

(** [txn_tablet_map[key][tablet_info] = load_info] *)
Definition assign_load_info (m : txn_tablet_map_t) (key : TxnKey)
    (tablet_info : TabletInfo) (load_info : TabletTxnInfo) : txn_tablet_map_t :=
  <[key := <[tablet_info := load_info]> (default ∅ (m !! key))]> m.

(** The two statements that close prepare and commit:
    [txn_tablet_map[key][tablet_info] = load_info;
     _insert_txn_partition_map_unlocked(transaction_id, partition_id);] *)
Definition store_load_info (partition_id transaction_id : Z) (tablet_info : TabletInfo)
    (load_info : TabletTxnInfo) (s : State) : State :=
  _insert_txn_partition_map_unlocked transaction_id partition_id
    (put_txn_tablet_map s transaction_id
       (assign_load_info (_get_txn_tablet_map s transaction_id)
          (partition_id, transaction_id) tablet_info load_info)).

(** The block that ends publish, rollback and delete, entered with [it] at
    [key]: [it->second.erase(tablet_info)], and when that leaves the inner map
    empty, [txn_tablet_map.erase(it)] and the partition map is cleared. *)
Definition erase_load_info (partition_id transaction_id : Z) (tablet_info : TabletInfo)
    (tablets_of_txn : gmap TabletInfo TabletTxnInfo) (s : State) : State :=
  let key := (partition_id, transaction_id) in
  let txn_tablet_map := _get_txn_tablet_map s transaction_id in
  let tablets_of_txn := delete tablet_info tablets_of_txn in
  if decide (tablets_of_txn = ∅)
  then _clear_txn_partition_map_unlocked transaction_id partition_id
         (put_txn_tablet_map s transaction_id (delete key txn_tablet_map))
  else put_txn_tablet_map s transaction_id (<[key := tablets_of_txn]> txn_tablet_map).

(** The rowset object behind a non-null shared pointer. *)
Definition deref (s : State) (p : RowsetPtr) : option Rowset := rowsets s !! p.

(** ** prepare *)

(** [size_t > int32_t]: the configured value is converted to [size_t]. *)
Definition to_size_t (z : Z) : Z := z mod 2 ^ 64.

(** The first branch of [prepare_txn]: an entry with this load id that already
    holds a rowset. *)
Definition prepare_finds_committed (s : State) (key : TxnKey) (tablet_info : TabletInfo)
    (load_id0 : PUniqueId) : bool :=
  match find_load_info (_get_txn_tablet_map s key.2) key tablet_info with
  | Some load_info => same_load_id (load_id load_info) load_id0 && bool_decide (rowset load_info ≠ None)
  | None => false
  end.

(** [TxnManager::prepare_txn] (txn_manager.cpp 124-169) *)
Definition prepare_txn (cfg : Config) (env : Env)
    (partition_id : TPartitionId) (transaction_id : TTransactionId)
    (tablet_id0 : TTabletId) (schema_hash0 : SchemaHash) (tablet_uid0 : TabletUid)
    (load_id0 : PUniqueId) (s : State) : Status * State :=
  let key := (partition_id, transaction_id) in
  let tablet_info := mkTabletInfo tablet_id0 schema_hash0 tablet_uid0 in
  if prepare_finds_committed s key tablet_info load_id0 then (OK, s)
  else
    let txn_partition_map := _get_txn_partition_map s transaction_id in
    if Z.of_nat (size txn_partition_map)
         >? to_size_t (max_runnings_transactions_per_txn_map cfg)
    then (OLAP_ERR_TOO_MANY_TRANSACTIONS, s)
    else
      let load_info := mkTabletTxnInfo load_id0 None (UnixSeconds env) in
      (OK, store_load_info partition_id transaction_id tablet_info load_info s).

(** ** commit *)

(** The outcome of the lookup block of [commit_txn] (lines 191-228): return a
    status at once, or go on.  [None] on the outside: a stored pointer without
    an object, which a shared pointer excludes. *)
Definition commit_lookup (s : State) (key : TxnKey) (tablet_info : TabletInfo)
    (load_id0 : PUniqueId) (new_rowset : Rowset) : option (option Status) :=
  match find_load_info (_get_txn_tablet_map s key.2) key tablet_info with
  | Some load_info =>
      match rowset load_info with
      | Some q =>
          if same_load_id (load_id load_info) load_id0 then
            match deref s q with
            | Some old_rowset =>
                if decide (rowset_id old_rowset = rowset_id new_rowset)
                then Some (Some OK)
                else Some (Some OLAP_ERR_PUSH_TRANSACTION_ALREADY_EXIST)
            | None => None
            end
          else Some None
      | None => Some None
      end
  | None => Some None
  end.

(** [TxnManager::commit_txn] (txn_manager.cpp 171-257).  LOG(FATAL) ends the
    process.  A non-null [rowset_ptr] has its object: [deref] fails only on
    an address no shared pointer could hold. *)
Definition commit_txn (cfg : Config) (env : Env) (meta : option MetaPtr)
    (partition_id : TPartitionId) (transaction_id : TTransactionId)
    (tablet_id0 : TTabletId) (schema_hash0 : SchemaHash) (tablet_uid0 : TabletUid)
    (load_id0 : PUniqueId) (rowset_ptr : RowsetSharedPtr) (is_recovery : bool)
    (s : State) : option (Status * State) :=
  if (partition_id <? 1) || (transaction_id <? 1) || (tablet_id0 <? 1) then None
  else
    let key := (partition_id, transaction_id) in
    let tablet_info := mkTabletInfo tablet_id0 schema_hash0 tablet_uid0 in
    match rowset_ptr with
    | None => Some (OLAP_ERR_ROWSET_INVALID, s)
    | Some p =>
        new_rowset ← deref s p;
        found ← commit_lookup s key tablet_info load_id0 new_rowset;
        match found with
        | Some st => Some (st, s)
        | None =>
            '(save_status, s) ←
              (if is_recovery then Some (OK, s)
               else RowsetMetaManager_save env meta tablet_uid0
                      (rowset_id new_rowset) (rowset_meta new_rowset) s);
            if decide (save_status = OK) then
              let load_info := mkTabletTxnInfo load_id0 rowset_ptr (UnixSeconds env) in
              Some (OK, store_load_info partition_id transaction_id tablet_info load_info s)
            else Some (OLAP_ERR_ROWSET_SAVE_FAILED, s)
        end
    end.

(** ** publish *)

(** [CHECK(st.ok() || st.is_not_found())] *)
Definition ok_or_not_found (st : Status) : bool :=
  bool_decide (st = OK) || bool_decide (st = NotFound).

(** [TxnManager::_check_pk_in_pre_segments], walking [rbegin .. rend]: the list
    handed in is the reversed vector.  The tablet comes back with its delete
    bitmap extended when the key is found. *)
Fixpoint check_pk_from (its : list Segment) (key : string) (tablet : Tablet)
    (v : Version) : option (bool * Tablet) :=
  match its with
  | [] => Some (false, tablet)
  | seg :: its' =>
      let '(st, loc) := segment_lookup_row_key seg key in
      if ok_or_not_found st then
        if decide (st = NotFound) then check_pk_from its' key tablet v
        else Some (true,
                   mkTablet (enable_unique_key_merge_on_write tablet)
                            (preferred_rowset_type tablet) (lookup_row_key tablet)
                            (delete_bitmap_add
                               (loc_rowset_id loc, loc_segment_id loc, v.1)
                               (loc_row_id loc) (delete_bitmap tablet)))
      else None
  end.

Definition _check_pk_in_pre_segments (pre_segments : list Segment) (key : string)
    (tablet : Tablet) (v : Version) : option (bool * Tablet) :=
  check_pk_from (reverse pre_segments) key tablet v.

(** The [for (size_t i = 0; i < num_read; i++)] loop of [publish_txn] over the
    cells of one batch. *)
Fixpoint scan_cells (cells : list string) (pre_segments : list Segment)
    (tablet : Tablet) (v : Version) : option Tablet :=
  match cells with
  | [] => Some tablet
  | key :: cells' =>
      '(find, tablet) ← _check_pk_in_pre_segments pre_segments key tablet v;
      if (find : bool) then scan_cells cells' pre_segments tablet v
      else
        let '(st, loc) := lookup_row_key tablet key (v.1 - 1) in
        if ok_or_not_found st then
          if decide (st = NotFound) then scan_cells cells' pre_segments tablet v
          else scan_cells cells' pre_segments
                 (mkTablet (enable_unique_key_merge_on_write tablet)
                           (preferred_rowset_type tablet) (lookup_row_key tablet)
                           (delete_bitmap_add
                              (loc_rowset_id loc, loc_segment_id loc, v.1)
                              (loc_row_id loc) (delete_bitmap tablet)))
                 v
        else None
  end.

Definition batch_size : Z := 1024.

(** The [while (remaining > 0)] loop over one segment's primary-key index.  A
    batch holds [num_to_read] cells (the DCHECK after next_batch), so every
    round lowers [remaining] by at least one and [remaining] rounds of fuel are
    never used up. *)
Fixpoint read_batches (fuel : nat) (seg : Segment) (pre_segments : list Segment)
    (v : Version) (remaining : Z) (last_key : string) (tablet : Tablet)
  : option (Status * Tablet) :=
  if remaining <=? 0 then Some (OK, tablet)
  else
    match fuel with
    | O => None
    | S fuel' =>
        let num_to_read := Z.min batch_size remaining in
        let '(st, cells) := pk_read seg last_key num_to_read in
        if decide (st = OK) then
          let num_read := num_to_read in
          let last_key := nth (Z.to_nat (num_read - 1)) cells ""%string in
          let num_read :=
            if (num_read =? batch_size) && negb (num_read =? remaining)
            then num_read - 1 else num_read in
          tablet' ← scan_cells (take (Z.to_nat num_read) cells) pre_segments tablet v;
          read_batches fuel' seg pre_segments v (remaining - num_read) last_key tablet'
        else Some (st, tablet)
    end.

(** The [for (auto& seg : segments)] loop. *)
Fixpoint scan_segments (segments pre_segments : list Segment) (v : Version)
    (tablet : Tablet) : option (Status * Tablet) :=
  match segments with
  | [] => Some (OK, tablet)
  | seg :: segments' =>
      '(st, tablet) ← read_batches (Z.to_nat (pk_num_rows seg)) seg pre_segments v
                        (pk_num_rows seg) ""%string tablet;
      if decide (st = OK)
      then scan_segments segments' (pre_segments ++ [seg]) v tablet
      else Some (st, tablet)
  end.

(** Lines 316-400 of [publish_txn]: the tablet is looked up in the storage
    engine and, for a merge-on-write unique-key tablet, the delete bitmap is
    extended.  Only the tablet changes; a traversal that stops on an error
    leaves the bits it has set.  The closing [tablet->save_meta()] writes the
    tablet's own meta, which has no part in this development, and its status
    is dropped by the source.  A null tablet is dereferenced unless BE_TEST is
    set: the process ends. *)
Definition publish_delete_bitmap (cfg : Config) (tablet_id0 : TTabletId)
    (rowset_ptr : RowsetPtr) (v : Version) (s : State) : option (Status * State) :=
  match tablets s !! tablet_id0 with
  | None => if BE_TEST cfg then Some (OK, s) else None
  | Some tablet =>
      r ← deref s rowset_ptr;
      if negb (enable_unique_key_merge_on_write tablet)
         || bool_decide (preferred_rowset_type tablet ≠ BETA_ROWSET)
         || bool_decide (keys_type r ≠ UNIQUE_KEYS)
      then Some (OK, s)
      else if bool_decide (v.1 = v.2) then
        let '(st, segments) := load_segments r in
        if decide (st = OK) then
          '(st, tablet) ← scan_segments segments [] v tablet;
          Some (st, set_tablets s (<[tablet_id0 := tablet]> (tablets s)))
        else Some (st, s)
      else None
  end.

(** [TxnManager::publish_txn] (txn_manager.cpp 260-401) *)
Definition publish_txn (cfg : Config) (env : Env) (meta : option MetaPtr)
    (partition_id : TPartitionId) (transaction_id : TTransactionId)
    (tablet_id0 : TTabletId) (schema_hash0 : SchemaHash) (tablet_uid0 : TabletUid)
    (v : Version) (s : State) : option (Status * State) :=
  let key := (partition_id, transaction_id) in
  let tablet_info := mkTabletInfo tablet_id0 schema_hash0 tablet_uid0 in
  let rowset_ptr :=
    match find_load_info (_get_txn_tablet_map s transaction_id) key tablet_info with
    | Some load_info => rowset load_info
    | None => None
    end in
  match rowset_ptr with
  | Some p =>
      r ← deref s p;
      let r := make_visible v r in
      let s := set_rowsets s (<[p := r]> (rowsets s)) in
      '(save_status, s) ← RowsetMetaManager_save env meta tablet_uid0 (rowset_id r)
                            (rowset_meta r) s;
      if decide (save_status = OK) then
        let s :=
          match _get_txn_tablet_map s transaction_id !! key with
          | Some tablets_of_txn =>
              erase_load_info partition_id transaction_id tablet_info tablets_of_txn s
          | None => s
          end in
        publish_delete_bitmap cfg tablet_id0 p v s
      else Some (OLAP_ERR_ROWSET_SAVE_FAILED, s)
  | None => Some (OLAP_ERR_TRANSACTION_NOT_EXIST, s)
  end.

(** ** rollback and delete *)

(** [TxnManager::rollback_txn] (txn_manager.cpp 424-453) *)
Definition rollback_txn (partition_id : TPartitionId) (transaction_id : TTransactionId)
    (tablet_id0 : TTabletId) (schema_hash0 : SchemaHash) (tablet_uid0 : TabletUid)
    (s : State) : Status * State :=
  let key := (partition_id, transaction_id) in
  let tablet_info := mkTabletInfo tablet_id0 schema_hash0 tablet_uid0 in
  match _get_txn_tablet_map s transaction_id !! key with
  | Some tablets_of_txn =>
      match tablets_of_txn !! tablet_info with
      | Some (mkTabletTxnInfo _ (Some _) _) => (OLAP_ERR_TRANSACTION_ALREADY_COMMITTED, s)
      | _ => (OK, erase_load_info partition_id transaction_id tablet_info tablets_of_txn s)
      end
  | None => (OK, s)
  end.

(** [StorageEngine::add_unused_rowset], compiled in unless BE_TEST is set. *)
Definition add_unused_rowset (cfg : Config) (p : RowsetPtr) (s : State) : State :=
  if BE_TEST cfg then s else set_unused_rowsets s (unused_rowsets s ++ [p]).

(** [TxnManager::delete_txn] (txn_manager.cpp 457-503) *)
Definition delete_txn (cfg : Config) (env : Env) (meta : option MetaPtr)
    (partition_id : TPartitionId) (transaction_id : TTransactionId)
    (tablet_id0 : TTabletId) (schema_hash0 : SchemaHash) (tablet_uid0 : TabletUid)
    (s : State) : option (Status * State) :=
  let key := (partition_id, transaction_id) in
  let tablet_info := mkTabletInfo tablet_id0 schema_hash0 tablet_uid0 in
  match _get_txn_tablet_map s transaction_id !! key with
  | None => Some (OLAP_ERR_TRANSACTION_NOT_EXIST, s)
  | Some tablets_of_txn =>
      let erase := erase_load_info partition_id transaction_id tablet_info tablets_of_txn in
      match tablets_of_txn !! tablet_info with
      | Some load_info =>
          match rowset load_info, meta with
          | Some q, Some m =>
              r ← deref s q;
              if (version r).1 >? 0
              then Some (OLAP_ERR_TRANSACTION_ALREADY_COMMITTED, s)
              else Some (OK, erase (add_unused_rowset cfg q
                                      (RowsetMetaManager_remove env m tablet_uid0
                                         (rowset_id r) s)))
          | _, _ => Some (OK, erase s)
          end
      | None => Some (OK, erase s)
      end
  end.

(** ** force rollback *)

(** Inside the loop of [force_rollback_tablet_related_txns]: the meta of a
    committed rowset is removed from the store when a store was handed in. *)
Definition force_rollback_remove (env : Env) (meta : option MetaPtr)
    (tablet_info : TabletInfo) (tablets_of_txn : gmap TabletInfo TabletTxnInfo)
    (s : State) : option State :=
  match tablets_of_txn !! tablet_info with
  | Some load_info =>
      match rowset load_info, meta with
      | Some q, Some m =>
          r ← deref s q;
          Some (RowsetMetaManager_remove env m (tablet_uid tablet_info) (rowset_id r) s)
      | _, _ => Some s
      end
  | None => Some s
  end.

(** One round of the inner loop of [force_rollback_tablet_related_txns], with
    the iterator [it] at [key] in shard [i].  It reads the live maps, as the
    iterator does. *)
Definition force_rollback_at (env : Env) (meta : option MetaPtr)
    (tablet_info : TabletInfo) (i : nat) (key : TxnKey) (s : State) : option State :=
  match tablet_map_at s i !! key with
  | None => Some s
  | Some tablets_of_txn =>
      s ← force_rollback_remove env meta tablet_info tablets_of_txn s;
      let tablets_of_txn := delete tablet_info tablets_of_txn in
      if decide (tablets_of_txn = ∅) then
        let s := _clear_txn_partition_map_unlocked key.2 key.1 s in
        Some (set_tablet_maps s
                (<[i := delete key (tablet_map_at s i)]> (_txn_tablet_maps s)))
      else
        Some (set_tablet_maps s
                (<[i := <[key := tablets_of_txn]> (tablet_map_at s i)]>
                   (_txn_tablet_maps s)))
  end.

Fixpoint force_rollback_keys (env : Env) (meta : option MetaPtr)
    (tablet_info : TabletInfo) (i : nat) (keys : list TxnKey) (s : State)
  : option State :=
  match keys with
  | [] => Some s
  | key :: keys' =>
      s' ← force_rollback_at env meta tablet_info i key s;
      force_rollback_keys env meta tablet_info i keys' s'
  end.

Fixpoint force_rollback_shards (env : Env) (meta : option MetaPtr)
    (tablet_info : TabletInfo) (shards : list nat) (s : State) : option State :=
  match shards with
  | [] => Some s
  | i :: shards' =>
      s' ← force_rollback_keys env meta tablet_info i
             (map_to_list (tablet_map_at s i)).*1 s;
      force_rollback_shards env meta tablet_info shards' s'
  end.

(** [TxnManager::force_rollback_tablet_related_txns] (txn_manager.cpp 532-565) *)
Definition force_rollback_tablet_related_txns (env : Env) (meta : option MetaPtr)
    (tablet_id0 : TTabletId) (schema_hash0 : SchemaHash) (tablet_uid0 : TabletUid)
    (s : State) : option State :=
  force_rollback_shards env meta (mkTabletInfo tablet_id0 schema_hash0 tablet_uid0)
    (seq 0 (Z.to_nat (_txn_map_shard_size s))) s.

(** ** Queries *)

(** [TxnManager::has_txn] *)
Definition has_txn (partition_id : TPartitionId) (transaction_id : TTransactionId)
    (tablet_id0 : TTabletId) (schema_hash0 : SchemaHash) (tablet_uid0 : TabletUid)
    (s : State) : bool :=
  bool_decide (is_Some (find_load_info (_get_txn_tablet_map s transaction_id)
                          (partition_id, transaction_id)
                          (mkTabletInfo tablet_id0 schema_hash0 tablet_uid0))).

(** [TxnManager::get_partition_ids]: the set behind [partition_map[txn]]; the
    vector the source fills lists its elements in no fixed order. *)
Definition get_partition_ids (transaction_id : TTransactionId) (s : State) : gset Z :=
  default ∅ (_get_txn_partition_map s transaction_id !! transaction_id).

(** [TxnManager::get_txn_related_tablets] *)
Definition get_txn_related_tablets (transaction_id : TTransactionId)
    (partition_id : TPartitionId) (s : State) : gmap TabletInfo RowsetSharedPtr :=
  match _get_txn_tablet_map s transaction_id !! (partition_id, transaction_id) with
  | Some load_info_map => rowset <$> load_info_map
  | None => ∅
  end.

(** The entry of the index for (partition, transaction, tablet), through every
    shard's map: what an observer of [tablet_map] sees. *)
Definition index_entry (s : State) (key : TxnKey) (tablet_info : TabletInfo)
  : option TabletTxnInfo :=
  find_load_info (_get_txn_tablet_map s key.2) key tablet_info.

(** ** Runs of the manager *)

Inductive Call :=
  | Prepare (partition_id transaction_id tablet_id0 schema_hash0 : Z)
            (tablet_uid0 : TabletUid) (load_id0 : PUniqueId)
  | Commit (meta : option MetaPtr) (partition_id transaction_id tablet_id0 schema_hash0 : Z)
           (tablet_uid0 : TabletUid) (load_id0 : PUniqueId)
           (rowset_ptr : RowsetSharedPtr) (is_recovery : bool)
  | Publish (meta : option MetaPtr) (partition_id transaction_id tablet_id0 schema_hash0 : Z)
            (tablet_uid0 : TabletUid) (v : Version)
  | Rollback (partition_id transaction_id tablet_id0 schema_hash0 : Z)
             (tablet_uid0 : TabletUid)
  | Delete (meta : option MetaPtr) (partition_id transaction_id tablet_id0 schema_hash0 : Z)
           (tablet_uid0 : TabletUid)
  | ForceRollback (meta : option MetaPtr) (tablet_id0 schema_hash0 : Z)
                  (tablet_uid0 : TabletUid).

Definition call (cfg : Config) (env : Env) (c : Call) (s : State)
  : option (Status * State) :=
  match c with
  | Prepare p t tid sh uid l => Some (prepare_txn cfg env p t tid sh uid l s)
  | Commit m p t tid sh uid l r rec => commit_txn cfg env m p t tid sh uid l r rec s
  | Publish m p t tid sh uid v => publish_txn cfg env m p t tid sh uid v s
  | Rollback p t tid sh uid => Some (rollback_txn p t tid sh uid s)
  | Delete m p t tid sh uid => delete_txn cfg env m p t tid sh uid s
  | ForceRollback m tid sh uid =>
      s' ← force_rollback_tablet_related_txns env m tid sh uid s; Some (OK, s')
  end.

(** A run: calls one after the other, each with the answers of its
    surroundings; the statuses are kept. *)
Fixpoint run (cfg : Config) (calls : list (Env * Call)) (s : State)
  : option (list Status * State) :=
  match calls with
  | [] => Some ([], s)
  | (env, c) :: calls' =>
      '(st, s') ← call cfg env c s;
      '(sts, s'') ← run cfg calls' s';
      Some (st :: sts, s'')
  end.

(** The states of a manager built by the constructor and driven by calls that
    returned. *)
Inductive reachable (cfg : Config) : State -> Prop :=
  | reachable_new n1 n2 h ms ts :
      valid_shard_sizes n1 n2 -> reachable cfg (TxnManager_new n1 n2 h ms ts)
  | reachable_call s env c st s' :
      reachable cfg s -> call cfg env c s = Some (st, s') -> reachable cfg s'.

(** ** Well-formed indexes *)

(** The arrays have [_txn_map_shard_size] slots. *)
Definition shards_in_range (s : State) : Prop :=
  0 < _txn_map_shard_size s ∧
  length (_txn_tablet_maps s) = Z.to_nat (_txn_map_shard_size s) ∧
  length (_txn_partition_maps s) = Z.to_nat (_txn_map_shard_size s).

(** What every run maintains: keys sit in the shard of their transaction, no
    inner map and no partition set is empty, the partition map lists the
    partitions of the tablet map's keys, and an entry that holds a rowset was
    committed with ids of at least 1 and points to a rowset object. *)
Record index_wf (s : State) : Prop := mk_index_wf {
  wf_range : shards_in_range s;
  wf_tablet_shard : ∀ i key tablets_of_txn,
    tablet_map_at s i !! key = Some tablets_of_txn →
    i = shard_of s key.2 ∧ tablets_of_txn ≠ ∅;
  wf_partition_shard : ∀ i t ps,
    partition_map_at s i !! t = Some ps → i = shard_of s t ∧ ps ≠ ∅;
  wf_partition : ∀ t p,
    p ∈ get_partition_ids t s ↔ is_Some (_get_txn_tablet_map s t !! (p, t));
  wf_committed : ∀ key tablet_info load_info q,
    index_entry s key tablet_info = Some load_info →
    rowset load_info = Some q →
    1 ≤ key.1 ∧ 1 ≤ key.2 ∧ 1 ≤ tablet_id tablet_info ∧ is_Some (rowsets s !! q)
}.

(** The keys of [tablet_map] over all shards, and the partitions among them
    that belong to one transaction. *)
Definition tablet_map_keys (s : State) : gset TxnKey :=
  ⋃ (dom <$> _txn_tablet_maps s).

Definition partitions_in_tablet_map (transaction_id : Z) (s : State) : gset Z :=
  set_map fst (filter (λ key : TxnKey, key.2 = transaction_id) (tablet_map_keys s)).

(** The partition set of [t] once [p] is taken out of it. *)
Definition cleared (ops : option (gset Z)) (p : Z) : option (gset Z) :=
  match ops with
  | Some ps => if decide (ps ∖ {[p]} = ∅) then None else Some (ps ∖ {[p]})
  | None => None
  end.

(** The state a run ends in (the start state if the process ended on the way). *)
Definition state_after (cfg : Config) (calls : list (Env * Call)) (s : State) : State :=
  match run cfg calls s with
  | Some (_, s') => s'
  | None => s
  end.

(** The statuses a run returned. *)
Definition statuses_of (cfg : Config) (calls : list (Env * Call)) (s : State)
  : option (list Status) :=
  fst <$> run cfg calls s.

(** The index with the creation time of one entry set to [c], and nothing else
    touched. *)
Definition restamp (key : TxnKey) (tablet_info : TabletInfo) (c : Z) (s : State) : State :=
  put_txn_tablet_map s key.2
    (alter (alter (λ li, mkTabletTxnInfo (load_id li) (rowset li) c) tablet_info) key
       (_get_txn_tablet_map s key.2)).

(** The design document's condition for rejecting a prepare, in its words: the
    size the shard's partition map would have with the new entry inserted
    exceeds the configured maximum. *)
Definition insert_would_exceed (cfg : Config) (partition_id transaction_id : Z)
    (s : State) : bool :=
  Z.of_nat (size (_get_txn_partition_map
                    (_insert_txn_partition_map_unlocked transaction_id partition_id s)
                    transaction_id))
  >? max_runnings_transactions_per_txn_map cfg.

(** The rowset an entry of the index holds, as an object. *)
Definition entry_rowset (s : State) (key : TxnKey) (tablet_info : TabletInfo)
  : option Rowset :=
  load_info ← index_entry s key tablet_info;
  q ← rowset load_info;
  deref s q.

(** ** A small installation, for concrete runs

    One map shard, at most one running transaction per map, a production
    build; tablet 7 is a duplicate-key tablet without merge-on-write; two
    unpublished rowsets are held by the callers; the store of root 1 is empty. *)
Module Ex.
Definition cfg : Config := mkConfig 1 10 false.
Definition U1 : TabletUid := mkUniqueId 1 1.
Definition L1 : PUniqueId := mkPUniqueId 1 1.
Definition L2 : PUniqueId := mkPUniqueId 2 2.
Definition T1 : TabletInfo := mkTabletInfo 7 42 U1.
Definition R1 : Rowset := mkRowset (mkRowsetMetaPB 11 (0, 0) 0) DUP_KEYS (OK, []).
Definition R2 : Rowset := mkRowset (mkRowsetMetaPB 12 (0, 0) 0) DUP_KEYS (OK, []).
Definition r1 : RowsetPtr := 1%positive.
Definition r2 : RowsetPtr := 2%positive.
Definition root : MetaPtr := 1%positive.
Definition tablet7 : Tablet :=
  mkTablet false BETA_ROWSET (λ _ _, (NotFound, mkRowLocation 0 0 0)) ∅.
Definition s0 : State :=
  TxnManager_new 1 1 {[r1 := R1; r2 := R2]} ∅ {[7 := tablet7]}.

(** The clock reads [now]; the store accepts writes. *)
Definition at_time (now : Z) : Env := mkEnv now OK OK.
(** The clock reads [now]; the store's put fails. *)
Definition put_fails (now : Z) : Env := mkEnv now IOError OK.

Definition prepare1 : Call := Prepare 10 100 7 42 U1 L1.
Definition commit1 : Call := Commit (Some root) 10 100 7 42 U1 L1 (Some r1) false.
Definition publish1 : Call := Publish (Some root) 10 100 7 42 U1 (5, 5).
Definition delete1 : Call := Delete (Some root) 10 100 7 42 U1.

(** prepare at 0, commit at 5. *)
Definition committed : State :=
  state_after cfg [(at_time 0, prepare1); (at_time 5, commit1)] s0.
(** ... then a publish that returns ok. *)
Definition published : State :=
  state_after cfg [(at_time 9, publish1)] committed.
(** prepare at 0 only. *)
Definition prepared : State := state_after cfg [(at_time 0, prepare1)] s0.
(** prepare at 0, once more at 1. *)
Definition prepared_twice : State := state_after cfg [(at_time 1, prepare1)] prepared.
(** prepare at 0, commit at 5, then a publish at 9 whose put fails. *)
Definition publish_failed : State :=
  state_after cfg [(put_fails 9, publish1)] committed.
(** Transactions 100 and 101 prepared, 101 committed: two running
    transactions in the only shard, with a maximum of one. *)
Definition crowded : State :=
  state_after cfg
    [(at_time 0, prepare1);
     (at_time 1, Prepare 10 101 7 42 U1 L1);
     (at_time 2, Commit (Some root) 10 101 7 42 U1 L1 (Some r2) false)] s0.
End Ex.

(** ** The remaining queries of the manager

    The source walks [std::unordered_map]s, whose order is not fixed; here
    the walk follows [map_to_list].  What is proved of these functions does
    not depend on the order. *)

(** The body of the inner loop of [get_tablet_related_txns]: [it] is one
    (TxnKey, tablets) pair; the out-parameters are the accumulator. *)
Definition related_txns_visit (tablet_info : TabletInfo) (acc : Z * gset Z)
    (it : (Z * Z) * gmap TabletInfo TabletTxnInfo) : Z * gset Z :=
  if decide (is_Some (it.2 !! tablet_info))
  then (it.1.1, {[it.1.2]} ∪ acc.2)
  else acc.

(** [TxnManager::get_tablet_related_txns] (txn_manager.cpp 505-528).  The two
    out-parameters are pointers: [None] is null, [Some x] a pointer to [x]. *)
Definition get_tablet_related_txns (tablet_id0 : TTabletId) (schema_hash0 : SchemaHash)
    (tablet_uid0 : TabletUid) (partition_id : option Z)
    (transaction_ids : option (gset Z)) (s : State) : option Z * option (gset Z) :=
  match partition_id, transaction_ids with
  | Some p0, Some ids0 =>
      let tablet_info := mkTabletInfo tablet_id0 schema_hash0 tablet_uid0 in
      let out :=
        foldl (λ acc i,
                 foldl (related_txns_visit tablet_info) acc
                       (map_to_list (tablet_map_at s i)))
              (p0, ids0) (seq 0 (Z.to_nat (_txn_map_shard_size s))) in
      (Some out.1, Some out.2)
  | _, _ => (partition_id, transaction_ids)
  end.

(** [TxnManager::get_all_related_tablets] (txn_manager.cpp 591-600); the set
    behind the pointer comes in and goes out. *)
Definition get_all_related_tablets (tablet_infos : gset TabletInfo) (s : State)
  : gset TabletInfo :=
  foldl (λ acc i,
           foldl (λ acc (it : (Z * Z) * gmap TabletInfo TabletTxnInfo),
                    foldl (λ acc (tablet_load_it : TabletInfo * TabletTxnInfo),
                             {[tablet_load_it.1]} ∪ acc)
                          acc (map_to_list it.2))
                 acc (map_to_list (tablet_map_at s i)))
        tablet_infos (seq 0 (Z.to_nat (_txn_map_shard_size s))).

(** The body of the innermost loop of [build_expire_txn_map].  [difftime]
    gives the difference of the two second counts as a double, which is the
    exact integer for counts below 2^53 in magnitude; the comparison with the
    configured seconds is then the one on integers. *)
Definition expire_visit (cfg : Config) (now txn_id : Z)
    (expire_txn_map : gmap TabletInfo (list Z)) (t_map : TabletInfo * TabletTxnInfo)
  : gmap TabletInfo (list Z) :=
  let diff := now - creation_time t_map.2 in
  if diff >=? pending_data_expire_time_sec cfg
  then <[t_map.1 := default [] (expire_txn_map !! t_map.1) ++ [txn_id]]> expire_txn_map
  else expire_txn_map.

(** [TxnManager::build_expire_txn_map] (txn_manager.cpp 614-634) *)
Definition build_expire_txn_map (cfg : Config) (env : Env)
    (expire_txn_map : gmap TabletInfo (list Z)) (s : State)
  : gmap TabletInfo (list Z) :=
  let now := UnixSeconds env in
  foldl (λ acc i,
           foldl (λ acc (it : (Z * Z) * gmap TabletInfo TabletTxnInfo),
                    foldl (expire_visit cfg now it.1.2) acc (map_to_list it.2))
                 acc (map_to_list (tablet_map_at s i)))
        expire_txn_map (seq 0 (Z.to_nat (_txn_map_shard_size s))).

(** The (TxnKey, tablets) pairs and the entries of the index in the order of
    the walks above. *)
Definition tablet_map_entries (s : State)
  : list ((Z * Z) * gmap TabletInfo TabletTxnInfo) :=
  seq 0 (Z.to_nat (_txn_map_shard_size s)) ≫= λ i, map_to_list (tablet_map_at s i).

Definition index_entries (s : State) : list ((Z * Z) * (TabletInfo * TabletTxnInfo)) :=
  tablet_map_entries s ≫= λ it, (λ e, (it.1, e)) <$> map_to_list it.2.

(** The key and tablet a call is about ([None] for force rollback, which is
    about a tablet under every key). *)
Definition call_target (c : Call) : option ((Z * Z) * TabletInfo) :=
  match c with
  | Prepare p t tid sh uid _ => Some ((p, t), mkTabletInfo tid sh uid)
  | Commit _ p t tid sh uid _ _ _ => Some ((p, t), mkTabletInfo tid sh uid)
  | Publish _ p t tid sh uid _ => Some ((p, t), mkTabletInfo tid sh uid)
  | Rollback p t tid sh uid => Some ((p, t), mkTabletInfo tid sh uid)
  | Delete _ p t tid sh uid => Some ((p, t), mkTabletInfo tid sh uid)
  | ForceRollback _ _ _ _ => None
  end.

(** One delete bitmap holds every bit of another. *)
Definition bitmap_included (bm bm' : DeleteBitmap) : Prop :=
  ∀ k row, row ∈ default ∅ (bm !! k) → row ∈ default ∅ (bm' !! k).

(** What the delete-bitmap traversal of a publish at version [v] may do to a
    tablet: nothing but add bits under keys whose version part is [v.1]. *)
Definition tablet_grows (v : Version) (tablet tablet' : Tablet) : Prop :=
  enable_unique_key_merge_on_write tablet' = enable_unique_key_merge_on_write tablet ∧
  preferred_rowset_type tablet' = preferred_rowset_type tablet ∧
  lookup_row_key tablet' = lookup_row_key tablet ∧
  bitmap_included (delete_bitmap tablet) (delete_bitmap tablet') ∧
  ∀ k, k.2 ≠ v.1 → delete_bitmap tablet' !! k = delete_bitmap tablet !! k.

(** The tablet with the row at [loc] marked deleted as of version [v]. *)
Definition mark_deleted (loc : RowLocation) (v : Version) (tablet : Tablet) : Tablet :=
  mkTablet (enable_unique_key_merge_on_write tablet) (preferred_rowset_type tablet)
           (lookup_row_key tablet)
           (delete_bitmap_add (loc_rowset_id loc, loc_segment_id loc, v.1)
                              (loc_row_id loc) (delete_bitmap tablet)).

(** What the batch loop expects of a segment's primary-key index holding
    [keys]: it reports their number; a read of [n] cells after seeking the
    empty key gives the first [n] keys; a read after seeking the key at
    position [j] starts at position [j] (keys are sorted and distinct). *)
Definition reads_index (seg : Segment) (keys : list string) : Prop :=
  pk_num_rows seg = Z.of_nat (length keys) ∧
  (∀ n : nat, (0 < n ≤ length keys)%nat →
     pk_read seg ""%string (Z.of_nat n) = (OK, take n keys)) ∧
  (∀ j n : nat, (0 < n)%nat → (j + n ≤ length keys)%nat →
     pk_read seg (nth j keys ""%string) (Z.of_nat n) = (OK, take n (drop j keys))).

(** Every key of the list is below every later one: the keys of a primary-key
    index, sorted and distinct. *)
Fixpoint keys_ascend (keys : list string) : bool :=
  match keys with
  | [] => true
  | k :: rest => forallb (String.ltb k) rest && keys_ascend rest
  end.

(** ** The delta-writer side map (txn_manager.cpp 668-713)

    A table of its own beside the index: transaction id, then tablet id, to
    the delta writer to notify.  [slave_pull_finished] lists the calls made to
    [DeltaWriter::finish_slave_tablet_pull_rowset], oldest first. *)

Abbreviation txn_tablet_delta_writer_map_t := (gmap Z (gmap Z positive)).

Record DeltaWriterRoutes := mkDeltaWriterRoutes {
  routes_shard_size : Z;
  _txn_tablet_delta_writer_map : list txn_tablet_delta_writer_map_t;
  slave_pull_finished : list (positive * Z * bool)
}.

(** The constructor's [new txn_tablet_delta_writer_map_t[_txn_map_shard_size]]. *)
Definition DeltaWriterRoutes_new (txn_map_shard_size : Z) : DeltaWriterRoutes :=
  mkDeltaWriterRoutes txn_map_shard_size
    (replicate (Z.to_nat txn_map_shard_size) ∅) [].

(** Modelled from the spec: [_get_txn_tablet_delta_writer_map] is inline in
    txn_manager.h; "shard = txn_id & (count - 1)". *)
Definition routes_shard_of (d : DeltaWriterRoutes) (transaction_id : Z) : nat :=
  Z.to_nat (Z.land transaction_id (routes_shard_size d - 1)).

Definition _get_txn_tablet_delta_writer_map (d : DeltaWriterRoutes)
    (transaction_id : Z) : txn_tablet_delta_writer_map_t :=
  _txn_tablet_delta_writer_map d !!! routes_shard_of d transaction_id.

Definition put_txn_tablet_delta_writer_map (d : DeltaWriterRoutes)
    (transaction_id : Z) (m : txn_tablet_delta_writer_map_t) : DeltaWriterRoutes :=
  mkDeltaWriterRoutes (routes_shard_size d)
    (<[routes_shard_of d transaction_id := m]> (_txn_tablet_delta_writer_map d))
    (slave_pull_finished d).

(** [TxnManager::add_txn_tablet_delta_writer] *)
Definition add_txn_tablet_delta_writer (transaction_id tablet_id0 : Z)
    (delta_writer : positive) (d : DeltaWriterRoutes) : DeltaWriterRoutes :=
  let m := _get_txn_tablet_delta_writer_map d transaction_id in
  let m :=
    match m !! transaction_id with
    | None => <[transaction_id := ∅]> m
    | Some _ => m
    end in
  put_txn_tablet_delta_writer_map d transaction_id
    (<[transaction_id := <[tablet_id0 := delta_writer]> (default ∅ (m !! transaction_id))]> m).

(** [TxnManager::finish_slave_tablet_pull_rowset] *)
Definition finish_slave_tablet_pull_rowset (transaction_id tablet_id0 node_id : Z)
    (is_succeed : bool) (d : DeltaWriterRoutes) : DeltaWriterRoutes :=
  match _get_txn_tablet_delta_writer_map d transaction_id !! transaction_id with
  | None => d
  | Some writers =>
      match writers !! tablet_id0 with
      | None => d
      | Some delta_writer =>
          mkDeltaWriterRoutes (routes_shard_size d) (_txn_tablet_delta_writer_map d)
            (slave_pull_finished d ++ [(delta_writer, node_id, is_succeed)])
      end
  end.

(** [TxnManager::clear_txn_tablet_delta_writer] *)
Definition clear_txn_tablet_delta_writer (transaction_id : Z) (d : DeltaWriterRoutes)
  : DeltaWriterRoutes :=
  let m := _get_txn_tablet_delta_writer_map d transaction_id in
  match m !! transaction_id with
  | Some _ => put_txn_tablet_delta_writer_map d transaction_id (delete transaction_id m)
  | None => d
  end.

(** The array has [routes_shard_size] slots. *)
Definition routes_in_range (d : DeltaWriterRoutes) : Prop :=
  0 < routes_shard_size d ∧
  length (_txn_tablet_delta_writer_map d) = Z.to_nat (routes_shard_size d).

(** The writer a pull acknowledgement for (transaction, tablet) reaches. *)
Definition route_of (d : DeltaWriterRoutes) (transaction_id tablet_id0 : Z)
  : option positive :=
  writers ← _get_txn_tablet_delta_writer_map d transaction_id !! transaction_id;
  writers !! tablet_id0.

(** ** A second installation, for concrete runs

    Four map shards and room for a hundred running transactions per map;
    tablet 9 is a unique-key tablet with merge-on-write whose rowset [R3]
    cannot load its segments; tablet 8 is a second plain tablet. *)
Module Ex2.
Definition cfg : Config := mkConfig 100 10 false.
Definition U2 : TabletUid := mkUniqueId 2 2.
Definition U9 : TabletUid := mkUniqueId 9 9.
Definition T2 : TabletInfo := mkTabletInfo 8 42 U2.
Definition T9 : TabletInfo := mkTabletInfo 9 42 U9.
Definition R3 : Rowset := mkRowset (mkRowsetMetaPB 13 (0, 0) 0) UNIQUE_KEYS (IOError, []).
Definition r3 : RowsetPtr := 3%positive.
Definition tablet9 : Tablet :=
  mkTablet true BETA_ROWSET (λ _ _, (NotFound, mkRowLocation 0 0 0)) ∅.
Definition s0 : State :=
  TxnManager_new 4 4 {[Ex.r1 := Ex.R1; Ex.r2 := Ex.R2; r3 := R3]} ∅
    {[7 := Ex.tablet7; 8 := Ex.tablet7; 9 := tablet9]}.

(** Transaction 100, partition 10: tablet 7 committed with [R1] at time 5,
    tablet 8 prepared at time 1. *)
Definition two_tablets : State :=
  state_after cfg
    [(Ex.at_time 0, Ex.prepare1); (Ex.at_time 1, Prepare 10 100 8 42 U2 Ex.L1);
     (Ex.at_time 5, Ex.commit1)] s0.

(** Transaction 102, partition 10: tablet 9 committed with [R3]. *)
Definition unique_committed : State :=
  state_after cfg
    [(Ex.at_time 0, Commit (Some Ex.root) 10 102 9 42 U9 Ex.L1 (Some r3) false)] s0.

(** ... and published at (5, 5): the segments fail to load. *)
Definition unique_published : State :=
  state_after cfg
    [(Ex.at_time 9, Publish (Some Ex.root) 10 102 9 42 U9 (5, 5))] unique_committed.

Definition routes : DeltaWriterRoutes := DeltaWriterRoutes_new 4.
End Ex2.

(** ** A merge-on-write tablet with a rowset of two segments

    Tablet 10 already holds key a (rowset 5, segment 0, row 3).  Rowset [R4]
    (id 14) brings segment 0 with keys a, b and segment 1 with keys b, c. *)
Module Ex3.
Definition cfg : Config := mkConfig 100 10 false.
Definition U10 : TabletUid := mkUniqueId 10 10.
Definition nowhere : RowLocation := mkRowLocation 0 0 0.

(** A primary-key index over [keys]: seek, then read [n] cells. *)
Definition pk_index (keys : list string) (last_key : string) (n : Z)
  : Status * list string :=
  (OK, take (Z.to_nat n) (List.filter (λ k, String.leb last_key k) keys)).

Definition seg0 : Segment :=
  mkSegment 0 2 (pk_index ["a"; "b"]%string)
    (λ key, if String.eqb key "a" then (OK, mkRowLocation 14 0 0)
            else if String.eqb key "b" then (OK, mkRowLocation 14 0 1)
            else (NotFound, nowhere)).
Definition seg1 : Segment :=
  mkSegment 1 2 (pk_index ["b"; "c"]%string)
    (λ key, if String.eqb key "b" then (OK, mkRowLocation 14 1 0)
            else if String.eqb key "c" then (OK, mkRowLocation 14 1 1)
            else (NotFound, nowhere)).
Definition seg2 : Segment :=
  mkSegment 2 1 (pk_index ["d"]%string)
    (λ key, if String.eqb key "d" then (OK, mkRowLocation 14 2 0)
            else (NotFound, nowhere)).

(** A segment of 2050 keys, more than two rounds of the batch loop: key [i] is
    two characters, in the order of [i]. *)
Definition key_of (i : nat) : string :=
  String (Ascii.ascii_of_nat (65 + i / 64))
         (String (Ascii.ascii_of_nat (48 + i mod 64)) EmptyString).
Definition many_keys : list string := key_of <$> seq 0 2050.
Definition seg_big : Segment :=
  mkSegment 3 2050 (pk_index many_keys) (λ _, (NotFound, nowhere)).

Definition R4 : Rowset := mkRowset (mkRowsetMetaPB 14 (0, 0) 0) UNIQUE_KEYS (OK, [seg0; seg1]).
Definition r4 : RowsetPtr := 4%positive.
Definition tablet10 : Tablet :=
  mkTablet true BETA_ROWSET
    (λ key _, if String.eqb key "a" then (OK, mkRowLocation 5 0 3) else (NotFound, nowhere))
    ∅.
Definition s0 : State := TxnManager_new 4 4 {[r4 := R4]} ∅ {[10 := tablet10]}.
Definition committed : State :=
  state_after cfg
    [(Ex.at_time 0, Commit (Some Ex.root) 10 103 10 42 U10 Ex.L1 (Some r4) false)] s0.
End Ex3.

(** * Properties *)

(** ** The batch loop of the delete-bitmap traversal ends

    The loop never runs out of the [remaining] rounds it is started with: any
    two amounts of fuel of at least [remaining] give the same result. *)

Lemma read_batches_enough_fuel (fuel fuel' : nat) seg pre v remaining last_key tablet :
  (Z.to_nat remaining ≤ fuel)%nat → (Z.to_nat remaining ≤ fuel')%nat →
  read_batches fuel seg pre v remaining last_key tablet =
  read_batches fuel' seg pre v remaining last_key tablet.
Proof.
  revert fuel' remaining last_key tablet.
  induction fuel as [|fuel IH]; intros fuel' remaining last_key tablet Hf Hf'.
  - assert (remaining ≤ 0) by lia.
    destruct fuel'; simpl; by rewrite (proj2 (Z.leb_le _ _)).
  - destruct (Z.leb_spec remaining 0) as [Hle|Hgt].
    { destruct fuel'; simpl; by rewrite (proj2 (Z.leb_le _ _)). }
    destruct fuel' as [|fuel']; [lia|]. simpl.
    rewrite (proj2 (Z.leb_gt _ _)) by done.
    destruct (pk_read seg last_key (Z.min batch_size remaining)) as [st cells].
    case_decide; [|done].
    set (num_read := if (Z.min batch_size remaining =? batch_size) && _
                     then _ else _).
    destruct (scan_cells _ _ _ _) as [tablet'|]; [|done]. simpl.
    assert (1 ≤ num_read).
    { subst num_read. unfold batch_size.
      destruct (Z.eqb_spec (1024 `min` remaining) 1024) as [Heq|Hne]; simpl.
      - rewrite Heq. destruct (1024 =? remaining); simpl; lia.
      - lia. }
    apply IH; lia.
Qed.

(** ** Shard arithmetic and the effect of writing one shard *)

Lemma land_bounds (a b : Z) : 0 ≤ b → 0 ≤ Z.land a b ≤ b.
Proof.
  intros Hb. split.
  - apply Z.land_nonneg. by right.
  - assert (Hsplit : Z.ldiff b a + Z.land b a = b).
    { assert (Hdisj : Z.land (Z.ldiff b a) (Z.land b a) = 0).
      { apply Z.bits_inj'. intros n Hn.
        rewrite Z.land_spec, Z.ldiff_spec, Z.land_spec, Z.bits_0.
        by destruct (Z.testbit b n), (Z.testbit a n). }
      rewrite Z.add_nocarry_lxor by done.
      rewrite Z.lxor_lor by done. apply Z.lor_ldiff_and. }
    assert (0 ≤ Z.ldiff b a) by (apply Z.ldiff_nonneg; by left).
    rewrite (Z.land_comm a b). lia.
Qed.

Lemma shard_of_lt (s : State) (t : Z) :
  shards_in_range s → (shard_of s t < length (_txn_tablet_maps s))%nat.
Proof.
  intros (Hpos & Hlen & _). rewrite Hlen. unfold shard_of.
  pose proof (land_bounds t (_txn_map_shard_size s - 1)). lia.
Qed.

Lemma shard_of_lt_partition (s : State) (t : Z) :
  shards_in_range s → (shard_of s t < length (_txn_partition_maps s))%nat.
Proof.
  intros (Hpos & _ & Hlen). rewrite Hlen. unfold shard_of.
  pose proof (land_bounds t (_txn_map_shard_size s - 1)). lia.
Qed.

Lemma tablet_map_at_put (s : State) (t : Z) (m : txn_tablet_map_t) (i : nat) :
  shards_in_range s →
  tablet_map_at (put_txn_tablet_map s t m) i =
  if decide (i = shard_of s t) then m else tablet_map_at s i.
Proof.
  intros Hr. unfold tablet_map_at, put_txn_tablet_map. simpl.
  rewrite list_lookup_total_insert.
  pose proof (shard_of_lt s t Hr).
  destruct (decide (i = shard_of s t)) as [->|Hne].
  - by rewrite decide_True.
  - rewrite decide_False; [done | naive_solver].
Qed.

Lemma partition_map_at_put (s : State) (t : Z) (m : txn_partition_map_t) (i : nat) :
  shards_in_range s →
  partition_map_at (put_txn_partition_map s t m) i =
  if decide (i = shard_of s t) then m else partition_map_at s i.
Proof.
  intros Hr. unfold partition_map_at, put_txn_partition_map. simpl.
  rewrite list_lookup_total_insert.
  pose proof (shard_of_lt_partition s t Hr).
  destruct (decide (i = shard_of s t)) as [->|Hne].
  - by rewrite decide_True.
  - rewrite decide_False; [done | naive_solver].
Qed.

Lemma shards_in_range_put_tablet (s : State) (t : Z) (m : txn_tablet_map_t) :
  shards_in_range s → shards_in_range (put_txn_tablet_map s t m).
Proof.
  unfold shards_in_range, put_txn_tablet_map. simpl.
  by rewrite length_insert.
Qed.

Lemma shards_in_range_put_partition (s : State) (t : Z) (m : txn_partition_map_t) :
  shards_in_range s → shards_in_range (put_txn_partition_map s t m).
Proof.
  unfold shards_in_range, put_txn_partition_map. simpl.
  by rewrite length_insert.
Qed.

Lemma insert_partition_unfold (t p : Z) (s : State) :
  _insert_txn_partition_map_unlocked t p s =
  put_txn_partition_map s t
    (<[t := default ∅ (_get_txn_partition_map s t !! t) ∪ {[p]}]>
       (_get_txn_partition_map s t)).
Proof.
  unfold _insert_txn_partition_map_unlocked.
  destruct (_get_txn_partition_map s t !! t) as [ps|] eqn:Hps; simpl.
  - by rewrite Hps.
  - by rewrite lookup_insert_eq, insert_insert_eq.
Qed.

(** *** What [store_load_info] leaves behind *)

Section store_load_info.
Context (p t : Z) (ti : TabletInfo) (li : TabletTxnInfo) (s : State).
Hypothesis Hr : shards_in_range s.

Lemma store_in_range : shards_in_range (store_load_info p t ti li s).
Proof.
  unfold store_load_info. rewrite insert_partition_unfold.
  by apply shards_in_range_put_partition, shards_in_range_put_tablet.
Qed.

Lemma store_tablet_lookup (i : nat) (key : TxnKey) :
  tablet_map_at (store_load_info p t ti li s) i !! key =
  if decide (i = shard_of s t ∧ key = (p, t))
  then Some (<[ti := li]> (default ∅ (_get_txn_tablet_map s t !! (p, t))))
  else tablet_map_at s i !! key.
Proof.
  unfold store_load_info. rewrite insert_partition_unfold.
  change (tablet_map_at (put_txn_partition_map ?a ?b ?c) i) with (tablet_map_at a i).
  rewrite tablet_map_at_put by done. unfold assign_load_info.
  destruct (decide (i = shard_of s t)) as [->|Hi].
  - destruct (decide (key = (p, t))) as [->|Hk].
    + by rewrite lookup_insert_eq, decide_True.
    + rewrite lookup_insert_ne by done. rewrite decide_False by naive_solver. done.
  - by rewrite decide_False by naive_solver.
Qed.

Lemma store_partition_lookup (i : nat) (t' : Z) :
  partition_map_at (store_load_info p t ti li s) i !! t' =
  if decide (i = shard_of s t ∧ t' = t)
  then Some (default ∅ (_get_txn_partition_map s t !! t) ∪ {[p]})
  else partition_map_at s i !! t'.
Proof.
  unfold store_load_info. rewrite insert_partition_unfold.
  rewrite partition_map_at_put by by apply shards_in_range_put_tablet.
  change (shard_of (put_txn_tablet_map s t ?m) t) with (shard_of s t).
  change (_get_txn_partition_map (put_txn_tablet_map s t ?m) t)
    with (_get_txn_partition_map s t).
  destruct (decide (i = shard_of s t)) as [->|Hi].
  - destruct (decide (t' = t)) as [->|Hk].
    + by rewrite lookup_insert_eq, decide_True.
    + rewrite lookup_insert_ne by done. rewrite decide_False by naive_solver. done.
  - by rewrite decide_False by naive_solver.
Qed.

Lemma store_index_entry (key : TxnKey) (ti' : TabletInfo) :
  index_entry (store_load_info p t ti li s) key ti' =
  if decide (key = (p, t) ∧ ti' = ti) then Some li else index_entry s key ti'.
Proof.
  unfold index_entry, find_load_info, _get_txn_tablet_map.
  change (shard_of (store_load_info p t ti li s) key.2) with (shard_of s key.2).
  rewrite store_tablet_lookup.
  destruct (decide (key = (p, t))) as [->|Hk]; simpl.
  - rewrite decide_True by done.
    destruct (decide (ti' = ti)) as [->|Hti].
    + by rewrite lookup_insert_eq, decide_True.
    + rewrite lookup_insert_ne by done. rewrite decide_False by naive_solver.
      unfold _get_txn_tablet_map. by destruct (tablet_map_at s (shard_of s t) !! (p, t)).
  - rewrite decide_False by naive_solver. by rewrite decide_False by naive_solver.
Qed.

Lemma store_rowsets : rowsets (store_load_info p t ti li s) = rowsets s.
Proof. unfold store_load_info, _insert_txn_partition_map_unlocked.
       by destruct (_ !! t). Qed.

Lemma store_metas : metas (store_load_info p t ti li s) = metas s.
Proof. unfold store_load_info, _insert_txn_partition_map_unlocked.
       by destruct (_ !! t). Qed.

Lemma store_shard_size : _txn_map_shard_size (store_load_info p t ti li s) = _txn_map_shard_size s.
Proof. unfold store_load_info, _insert_txn_partition_map_unlocked.
       by destruct (_ !! t). Qed.

Lemma store_wf :
  index_wf s →
  (∀ q, rowset li = Some q →
        1 ≤ p ∧ 1 ≤ t ∧ 1 ≤ tablet_id ti ∧ is_Some (rowsets s !! q)) →
  index_wf (store_load_info p t ti li s).
Proof.
  intros Hwf Hli.
  assert (Hsh : ∀ x, shard_of (store_load_info p t ti li s) x = shard_of s x)
    by (intros x; unfold shard_of; by rewrite store_shard_size).
  split.
  - apply store_in_range.
  - intros i key inner. rewrite store_tablet_lookup, Hsh.
    case_decide as Hc.
    + destruct Hc as [-> ->]. intros [= <-]. split; [done|].
      apply insert_non_empty.
    + apply (wf_tablet_shard s Hwf).
  - intros i t' ps. rewrite store_partition_lookup, Hsh.
    case_decide as Hc.
    + destruct Hc as [-> ->]. intros [= <-]. split; [done|]. set_solver.
    + apply (wf_partition_shard s Hwf).
  - intros t' p'. unfold get_partition_ids, _get_txn_partition_map, _get_txn_tablet_map.
    rewrite Hsh, store_partition_lookup, store_tablet_lookup.
    pose proof (wf_partition s Hwf t' p') as Hold.
    unfold get_partition_ids, _get_txn_partition_map, _get_txn_tablet_map in Hold.
    destruct (decide (t' = t)) as [->|Ht].
    + rewrite decide_True by done. simpl.
      destruct (decide (p' = p)) as [->|Hp].
      * rewrite decide_True by done. split; [eauto | set_solver].
      * rewrite decide_False by naive_solver.
        rewrite <- Hold. unfold _get_txn_partition_map. set_solver.
    + rewrite decide_False by naive_solver.
      rewrite decide_False by naive_solver. done.
  - intros key ti' li' q. rewrite store_index_entry, store_rowsets.
    case_decide as Hc.
    + destruct Hc as [-> ->]. intros [= <-] Hq. by apply Hli.
    + apply (wf_committed s Hwf).
Qed.
End store_load_info.

(** *** What [_clear_txn_partition_map_unlocked] and [erase_load_info] leave behind *)

Lemma clear_partition_lookup (t p : Z) (s : State) (i : nat) (t' : Z) :
  shards_in_range s →
  partition_map_at (_clear_txn_partition_map_unlocked t p s) i !! t' =
  if decide (i = shard_of s t ∧ t' = t)
  then cleared (_get_txn_partition_map s t !! t) p
  else partition_map_at s i !! t'.
Proof.
  intros Hr. unfold _clear_txn_partition_map_unlocked, cleared.
  destruct (_get_txn_partition_map s t !! t) as [ps|] eqn:Hps.
  - destruct (decide (ps ∖ {[p]} = ∅)); rewrite partition_map_at_put by done;
      (destruct (decide (i = shard_of s t)) as [->|Hi];
       [ destruct (decide (t' = t)) as [->|Ht];
         [ rewrite decide_True by done | rewrite decide_False by (intros [_ ?]; done) ]
       | rewrite decide_False by (intros [? _]; done) ]); try done.
    + apply lookup_delete_eq.
    + by rewrite lookup_delete_ne.
    + apply lookup_insert_eq.
    + by rewrite lookup_insert_ne.
  - case_decide as Hc; [|done]. destruct Hc as [-> ->]. done.
Qed.

Lemma clear_tablet_maps (t p : Z) (s : State) :
  _txn_tablet_maps (_clear_txn_partition_map_unlocked t p s) = _txn_tablet_maps s.
Proof.
  unfold _clear_txn_partition_map_unlocked.
  destruct (_ !! t); [case_decide|]; done.
Qed.

Lemma clear_rest (t p : Z) (s : State) :
  let s' := _clear_txn_partition_map_unlocked t p s in
  _txn_map_shard_size s' = _txn_map_shard_size s ∧ rowsets s' = rowsets s ∧
  metas s' = metas s ∧ tablets s' = tablets s ∧ unused_rowsets s' = unused_rowsets s ∧
  _txn_shard_size s' = _txn_shard_size s.
Proof.
  simpl. unfold _clear_txn_partition_map_unlocked.
  destruct (_ !! t); [case_decide|]; done.
Qed.

Lemma clear_in_range (t p : Z) (s : State) :
  shards_in_range s → shards_in_range (_clear_txn_partition_map_unlocked t p s).
Proof.
  intros Hr. unfold _clear_txn_partition_map_unlocked.
  destruct (_ !! t); [case_decide|]; try done;
    by apply shards_in_range_put_partition.
Qed.

Section erase_load_info.
Context (p t : Z) (ti : TabletInfo) (tablets_of_txn : gmap TabletInfo TabletTxnInfo)
        (s : State).
Hypothesis Hr : shards_in_range s.

Lemma erase_in_range : shards_in_range (erase_load_info p t ti tablets_of_txn s).
Proof.
  unfold erase_load_info. case_decide.
  - by apply clear_in_range, shards_in_range_put_tablet.
  - by apply shards_in_range_put_tablet.
Qed.

Lemma erase_rest :
  _txn_map_shard_size (erase_load_info p t ti tablets_of_txn s) = _txn_map_shard_size s ∧ rowsets (erase_load_info p t ti tablets_of_txn s) = rowsets s ∧
  metas (erase_load_info p t ti tablets_of_txn s) = metas s ∧ tablets (erase_load_info p t ti tablets_of_txn s) = tablets s ∧ unused_rowsets (erase_load_info p t ti tablets_of_txn s) = unused_rowsets s.
Proof.
  unfold erase_load_info. case_decide; [|done].
  pose proof (clear_rest t p
    (put_txn_tablet_map s t (delete (p, t) (_get_txn_tablet_map s t)))) as Hc.
  simpl in Hc. naive_solver.
Qed.

Lemma erase_tablet_lookup (i : nat) (key : TxnKey) :
  tablet_map_at (erase_load_info p t ti tablets_of_txn s) i !! key =
  if decide (i = shard_of s t ∧ key = (p, t))
  then (if decide (delete ti tablets_of_txn = ∅) then None
        else Some (delete ti tablets_of_txn))
  else tablet_map_at s i !! key.
Proof.
  unfold erase_load_info. unfold tablet_map_at at 1.
  destruct (decide (delete ti tablets_of_txn = ∅)).
  - rewrite clear_tablet_maps. fold (tablet_map_at
      (put_txn_tablet_map s t (delete (p, t) (_get_txn_tablet_map s t))) i).
    rewrite tablet_map_at_put by done.
    destruct (decide (i = shard_of s t)) as [->|Hi].
    + destruct (decide (key = (p, t))) as [->|Hk].
      * by rewrite lookup_delete_eq, decide_True.
      * rewrite lookup_delete_ne by done.
        by rewrite decide_False by (intros [_ ?]; done).
    + by rewrite decide_False by (intros [? _]; done).
  - fold (tablet_map_at (put_txn_tablet_map s t
      (<[(p, t) := delete ti tablets_of_txn]> (_get_txn_tablet_map s t))) i).
    rewrite tablet_map_at_put by done.
    destruct (decide (i = shard_of s t)) as [->|Hi].
    + destruct (decide (key = (p, t))) as [->|Hk].
      * by rewrite lookup_insert_eq, decide_True.
      * rewrite lookup_insert_ne by done.
        by rewrite decide_False by (intros [_ ?]; done).
    + by rewrite decide_False by (intros [? _]; done).
Qed.

Lemma erase_partition_lookup (i : nat) (t' : Z) :
  partition_map_at (erase_load_info p t ti tablets_of_txn s) i !! t' =
  if decide (i = shard_of s t ∧ t' = t ∧ delete ti tablets_of_txn = ∅)
  then cleared (_get_txn_partition_map s t !! t) p
  else partition_map_at s i !! t'.
Proof.
  unfold erase_load_info.
  destruct (decide (delete ti tablets_of_txn = ∅)) as [He|He].
  - rewrite clear_partition_lookup by by apply shards_in_range_put_tablet.
    change (shard_of (put_txn_tablet_map s t ?m) t) with (shard_of s t).
    change (_get_txn_partition_map (put_txn_tablet_map s t ?m) t)
      with (_get_txn_partition_map s t).
    change (partition_map_at (put_txn_tablet_map s t ?m) i)
      with (partition_map_at s i).
    destruct (decide (i = shard_of s t ∧ t' = t)) as [[-> ->]|Hn].
    + by rewrite decide_True.
    + by rewrite decide_False by (intros (? & ? & _); by apply Hn).
  - by rewrite decide_False by (intros (_ & _ & ?); done).
Qed.

Hypothesis Hit : _get_txn_tablet_map s t !! (p, t) = Some tablets_of_txn.

Lemma erase_index_entry (key : TxnKey) (ti' : TabletInfo) :
  index_entry (erase_load_info p t ti tablets_of_txn s) key ti' =
  if decide (key = (p, t) ∧ ti' = ti) then None else index_entry s key ti'.
Proof.
  unfold index_entry, find_load_info, _get_txn_tablet_map.
  replace (shard_of (erase_load_info p t ti tablets_of_txn s) key.2) with (shard_of s key.2)
    by (unfold shard_of; by destruct erase_rest as [-> _]).
  rewrite erase_tablet_lookup.
  destruct (decide (key = (p, t))) as [->|Hk]; simpl.
  - rewrite decide_True by done.
    unfold _get_txn_tablet_map in Hit. rewrite Hit.
    destruct (decide (delete ti tablets_of_txn = ∅)) as [He|He].
    + destruct (decide (ti' = ti)) as [->|Hti].
      * by rewrite decide_True.
      * rewrite decide_False by (intros [_ ?]; done).
        rewrite <- (lookup_delete_ne tablets_of_txn ti ti') by done.
        by rewrite He, lookup_empty.
    + destruct (decide (ti' = ti)) as [->|Hti].
      * rewrite decide_True by done. apply lookup_delete_eq.
      * rewrite decide_False by (intros [_ ?]; done).
        by apply lookup_delete_ne.
  - rewrite decide_False by (intros [_ ?]; done).
    by rewrite decide_False by (intros [? _]; done).
Qed.

Lemma erase_wf : index_wf s → index_wf (erase_load_info p t ti tablets_of_txn s).
Proof.
  intros Hwf.
  assert (Hsh : ∀ x, shard_of (erase_load_info p t ti tablets_of_txn s) x = shard_of s x)
    by (intros x; unfold shard_of; by destruct erase_rest as [-> _]).
  split.
  - apply erase_in_range.
  - intros i key inner. rewrite erase_tablet_lookup, Hsh.
    case_decide as Hc.
    + destruct Hc as [-> ->]. case_decide; [done|]. by intros [= <-].
    + apply (wf_tablet_shard s Hwf).
  - intros i t' ps. rewrite erase_partition_lookup, Hsh.
    case_decide as Hc.
    + destruct Hc as (-> & -> & He). unfold cleared.
      destruct (_ !! t) as [ps0|]; [|done]. case_decide; [done|].
      by intros [= <-].
    + apply (wf_partition_shard s Hwf).
  - intros t' p'. unfold get_partition_ids, _get_txn_partition_map, _get_txn_tablet_map.
    rewrite Hsh, erase_partition_lookup, erase_tablet_lookup.
    pose proof (wf_partition s Hwf t' p') as Hold.
    unfold get_partition_ids, _get_txn_partition_map, _get_txn_tablet_map in Hold.
    destruct (decide (t' = t)) as [->|Ht].
    + destruct (decide (delete ti tablets_of_txn = ∅)) as [He|He].
      * rewrite decide_True by done.
        assert (Hcl : ∀ ops, p' ∈ default ∅ (cleared ops p)
                             ↔ p' ≠ p ∧ p' ∈ default (∅ : gset Z) ops).
        { intros [ps|]; unfold cleared; simpl; [|set_solver].
          case_decide as Hps; simpl; set_solver. }
        rewrite Hcl. unfold _get_txn_partition_map. rewrite Hold.
        destruct (decide (p' = p)) as [->|Hp].
        -- rewrite decide_True by done. split; [naive_solver|]. by intros [? ?].
        -- rewrite decide_False by (intros [_ [=]]; done). naive_solver.
      * rewrite decide_False by (intros (_ & _ & ?); done).
        rewrite Hold.
        destruct (decide (p' = p)) as [->|Hp].
        -- rewrite decide_True by done.
           split; intros _; [eauto | exists tablets_of_txn; exact Hit].
        -- by rewrite decide_False by (intros [_ [=]]; done).
    + rewrite decide_False by (intros (_ & ? & _); done).
      rewrite decide_False by (intros [_ [=]]; done). done.
  - intros key ti' li' q. rewrite erase_index_entry.
    destruct erase_rest as (_ & -> & _).
    case_decide; [done|]. apply (wf_committed s Hwf).
Qed.
End erase_load_info.

(** ** Every run keeps the index well formed *)

Lemma wf_same_index (s s' : State) :
  _txn_map_shard_size s' = _txn_map_shard_size s →
  _txn_tablet_maps s' = _txn_tablet_maps s →
  _txn_partition_maps s' = _txn_partition_maps s →
  (∀ q, is_Some (rowsets s !! q) → is_Some (rowsets s' !! q)) →
  index_wf s → index_wf s'.
Proof.
  destruct s as [n1 n2 tm pm h ms ts u], s' as [n1' n2' tm' pm' h' ms' ts' u'].
  simpl. intros -> -> -> Hh [H1 H2 H3 H4 H5].
  split; try done.
  intros key ti li q He Hq. destruct (H5 key ti li q He Hq) as (? & ? & ? & ?).
  repeat split; try done. by apply Hh.
Qed.

Lemma TxnManager_new_wf n1 n2 h ms ts :
  valid_shard_sizes n1 n2 → index_wf (TxnManager_new n1 n2 h ms ts).
Proof.
  intros (Hn1 & _).
  assert (Hempty_t : ∀ i, tablet_map_at (TxnManager_new n1 n2 h ms ts) i = ∅).
  { intros i. unfold tablet_map_at, TxnManager_new. simpl.
    destruct (decide (i < Z.to_nat n1)%nat) as [Hi|Hi].
    - by rewrite list_lookup_total_alt, lookup_replicate_2.
    - rewrite list_lookup_total_alt, lookup_ge_None_2; [done|].
      rewrite length_replicate. lia. }
  assert (Hempty_p : ∀ i, partition_map_at (TxnManager_new n1 n2 h ms ts) i = ∅).
  { intros i. unfold partition_map_at, TxnManager_new. simpl.
    destruct (decide (i < Z.to_nat n1)%nat) as [Hi|Hi].
    - by rewrite list_lookup_total_alt, lookup_replicate_2.
    - rewrite list_lookup_total_alt, lookup_ge_None_2; [done|].
      rewrite length_replicate. lia. }
  split.
  - unfold shards_in_range, TxnManager_new. simpl. by rewrite !length_replicate.
  - intros i key inner. by rewrite Hempty_t, lookup_empty.
  - intros i t ps. by rewrite Hempty_p, lookup_empty.
  - intros t p. unfold get_partition_ids, _get_txn_partition_map, _get_txn_tablet_map.
    rewrite Hempty_t, Hempty_p, !lookup_empty. simpl. split; [set_solver|].
    by intros [? ?].
  - intros key ti li q. unfold index_entry, find_load_info, _get_txn_tablet_map.
    by rewrite Hempty_t, lookup_empty.
Qed.

Lemma prepare_txn_wf cfg env p t tid sh uid l s :
  index_wf s → index_wf (prepare_txn cfg env p t tid sh uid l s).2.
Proof.
  intros Hwf. unfold prepare_txn.
  destruct (prepare_finds_committed _ _ _ _); [done|].
  destruct (_ >? _); [done|]. simpl.
  apply store_wf; [apply Hwf | done | done].
Qed.

Lemma save_effect env meta uid rid pb s st s' :
  RowsetMetaManager_save env meta uid rid pb s = Some (st, s') →
  ∃ ms, s' = set_metas s ms ∧ (st ≠ OK → s' = s).
Proof.
  unfold RowsetMetaManager_save. destruct meta as [m|]; [|done].
  case_decide; intros [= <- <-].
  - eexists. split; [done|]. done.
  - exists (metas s). split; [by destruct s|done].
Qed.

Lemma remove_effect env m uid rid s :
  ∃ ms, RowsetMetaManager_remove env m uid rid s = set_metas s ms.
Proof.
  unfold RowsetMetaManager_remove. case_decide; [by eexists|].
  exists (metas s). by destruct s.
Qed.

Lemma set_metas_wf s ms : index_wf s → index_wf (set_metas s ms).
Proof. by apply wf_same_index. Qed.

Lemma set_tablets_wf s ts : index_wf s → index_wf (set_tablets s ts).
Proof. by apply wf_same_index. Qed.

Lemma set_unused_rowsets_wf s u : index_wf s → index_wf (set_unused_rowsets s u).
Proof. by apply wf_same_index. Qed.

Lemma set_rowsets_wf s q r :
  index_wf s → index_wf (set_rowsets s (<[q := r]> (rowsets s))).
Proof.
  apply wf_same_index; try done. simpl. intros q' Hq'.
  destruct (decide (q = q')) as [->|Hne].
  - rewrite lookup_insert_eq. eauto.
  - by rewrite lookup_insert_ne.
Qed.

Lemma commit_txn_wf cfg env meta p t tid sh uid l rp rec s st s' :
  commit_txn cfg env meta p t tid sh uid l rp rec s = Some (st, s') →
  index_wf s → index_wf s'.
Proof.
  unfold commit_txn. intros Hc Hwf.
  destruct (_ || _) eqn:Hids; [done|].
  destruct rp as [q|]; [|by injection Hc as <- <-].
  simpl in Hc. destruct (deref s q) as [r|] eqn:Hr; [|done]. simpl in Hc.
  destruct (commit_lookup _ _ _ _ _) as [[st0|]|]; simpl in Hc; try done.
  { by injection Hc as <- <-. }
  assert (Hsaved : ∃ st1 s1, (if rec then Some (OK, s)
             else RowsetMetaManager_save env meta uid (rowset_id r) (rowset_meta r) s)
             = Some (st1, s1) ∧ ∃ ms, s1 = set_metas s ms).
  { destruct rec.
    - exists OK, s. split; [done|]. exists (metas s). by destruct s.
    - destruct (RowsetMetaManager_save _ _ _ _ _ _) as [[st1 s1]|] eqn:Hs; [|done].
      exists st1, s1. split; [done|].
      destruct (save_effect _ _ _ _ _ _ _ _ Hs) as (ms & -> & _). by eexists. }
  destruct Hsaved as (st1 & s1 & Heq & ms & ->). rewrite Heq in Hc. simpl in Hc.
  case_decide; injection Hc as <- <-.
  - apply store_wf.
    + apply (wf_range _ (set_metas_wf s ms Hwf)).
    + by apply set_metas_wf.
    + intros q' [= <-]. simpl. unfold deref in Hr. rewrite Hr.
      repeat split; eauto; lia.
  - by apply set_metas_wf.
Qed.

Lemma scan_delete_bitmap_effect cfg tid q v s st s' :
  publish_delete_bitmap cfg tid q v s = Some (st, s') →
  ∃ ts, s' = set_tablets s ts.
Proof.
  unfold publish_delete_bitmap. intros Hp.
  assert (Hid : s = set_tablets s (tablets s)) by by destruct s.
  destruct (tablets s !! tid) as [tablet|].
  - simpl in Hp. destruct (deref s q) as [r|]; [|done]. simpl in Hp.
    destruct (_ || _); [injection Hp as <- <-; eauto|].
    destruct (bool_decide _); [|done].
    destruct (load_segments r) as [st0 segs].
    case_decide; [|injection Hp as <- <-; eauto].
    destruct (scan_segments _ _ _ _) as [[st1 tb]|]; [|done].
    simpl in Hp. injection Hp as <- <-. eauto.
  - destruct (BE_TEST cfg); [|done]. injection Hp as <- <-. eauto.
Qed.

Lemma publish_txn_wf cfg env meta p t tid sh uid v s st s' :
  publish_txn cfg env meta p t tid sh uid v s = Some (st, s') →
  index_wf s → index_wf s'.
Proof.
  unfold publish_txn. intros Hp Hwf.
  destruct (find_load_info _ _ _) as [li|]; [|by injection Hp as <- <-].
  destruct (rowset li) as [q|]; [|by injection Hp as <- <-].
  simpl in Hp. destruct (deref s q) as [r|]; [|done]. simpl in Hp.
  destruct (RowsetMetaManager_save _ _ _ _ _ _) as [[st1 s1]|] eqn:Hs; [|done].
  simpl in Hp. destruct (save_effect _ _ _ _ _ _ _ _ Hs) as (ms & -> & _).
  pose proof (set_metas_wf _ ms (set_rowsets_wf s q (make_visible v r) Hwf)) as Hwf1.
  case_decide; [|by injection Hp as <- <-].
  apply scan_delete_bitmap_effect in Hp as [ts ->].
  apply set_tablets_wf.
  destruct (_ !! (p, t)) as [inner|] eqn:Hit; [|done].
  apply erase_wf; [apply Hwf1 | done | done].
Qed.

Lemma rollback_txn_wf p t tid sh uid s :
  index_wf s → index_wf (rollback_txn p t tid sh uid s).2.
Proof.
  intros Hwf. unfold rollback_txn.
  destruct (_ !! (p, t)) as [inner|] eqn:Hit; [|done].
  destruct (inner !! _) as [[l [q|] c]|]; try done; simpl;
    (apply erase_wf; [apply Hwf | done | done]).
Qed.

Lemma delete_txn_wf cfg env meta p t tid sh uid s st s' :
  delete_txn cfg env meta p t tid sh uid s = Some (st, s') →
  index_wf s → index_wf s'.
Proof.
  unfold delete_txn. intros Hd Hwf.
  destruct (_ !! (p, t)) as [inner|] eqn:Hit; [|by injection Hd as <- <-].
  destruct (inner !! _) as [li|].
  - destruct (rowset li) as [q|], meta as [m|];
      try (injection Hd as <- <-; apply erase_wf; [apply Hwf | done | done]).
    simpl in Hd. destruct (deref s q) as [r|]; [|done]. simpl in Hd.
    destruct (_ >? 0); injection Hd as <- <-; [done|].
    destruct (remove_effect env m uid (rowset_id r) s) as [ms ->].
    assert (Hwf1 : index_wf (add_unused_rowset cfg q (set_metas s ms))).
    { unfold add_unused_rowset. destruct (BE_TEST cfg).
      - by apply set_metas_wf.
      - by apply set_unused_rowsets_wf, set_metas_wf. }
    apply erase_wf; [apply Hwf1 | | done].
    unfold add_unused_rowset. by destruct (BE_TEST cfg).
  - injection Hd as <- <-. apply erase_wf; [apply Hwf | done | done].
Qed.

Lemma force_rollback_remove_effect env meta ti inner s s1 :
  force_rollback_remove env meta ti inner s = Some s1 → ∃ ms, s1 = set_metas s ms.
Proof.
  unfold force_rollback_remove. intros Hf.
  assert (Hid : s = set_metas s (metas s)) by by destruct s.
  destruct (inner !! ti) as [li|]; [|injection Hf as <-; eauto].
  destruct (rowset li) as [q|], meta as [m|]; try (injection Hf as <-; eauto).
  destruct (deref s q) as [r|]; [|done]. simpl in Hf. injection Hf as <-.
  apply remove_effect.
Qed.

(** With the iterator in the shard of its key, a round of the force-rollback
    loop ends like the other removals. *)
Lemma force_rollback_at_erase env meta ti key inner s :
  tablet_map_at s (shard_of s key.2) !! key = Some inner →
  force_rollback_at env meta ti (shard_of s key.2) key s =
  (s1 ← force_rollback_remove env meta ti inner s;
   Some (erase_load_info key.1 key.2 ti inner s1)).
Proof.
  intros Hit. unfold force_rollback_at. rewrite Hit.
  destruct (force_rollback_remove env meta ti inner s) as [s1|] eqn:Hrm; [|done].
  destruct (force_rollback_remove_effect _ _ _ _ _ _ Hrm) as [ms ->].
  destruct key as [k1 k2]. cbn [mbind option_bind fst snd].
  unfold erase_load_info. case_decide; [|done]. f_equal.
  unfold _clear_txn_partition_map_unlocked.
  change (_get_txn_partition_map (put_txn_tablet_map ?a k2 ?m) k2)
    with (_get_txn_partition_map a k2).
  destruct (_get_txn_partition_map (set_metas s ms) k2 !! k2) as [ps|]; [|done].
  by case_decide.
Qed.

Lemma force_rollback_at_wf env meta ti i key s s' :
  force_rollback_at env meta ti i key s = Some s' →
  index_wf s → index_wf s'.
Proof.
  intros Hf Hwf.
  destruct (tablet_map_at s i !! key) as [inner|] eqn:Hit.
  - destruct (wf_tablet_shard s Hwf i key inner Hit) as [-> _].
    rewrite (force_rollback_at_erase _ _ _ _ inner) in Hf by done.
    destruct (force_rollback_remove env meta ti inner s) as [s1|] eqn:Hrm; [|done].
    destruct (force_rollback_remove_effect _ _ _ _ _ _ Hrm) as [ms ->].
    injection Hf as <-. destruct key as [k1 k2].
    apply erase_wf; [apply (set_metas_wf s ms Hwf) | done | by apply set_metas_wf].
  - unfold force_rollback_at in Hf. rewrite Hit in Hf. by injection Hf as <-.
Qed.

Lemma force_rollback_keys_wf env meta ti i keys s s' :
  force_rollback_keys env meta ti i keys s = Some s' →
  index_wf s → index_wf s'.
Proof.
  revert s. induction keys as [|key keys IH]; intros s Hf Hwf; simpl in Hf.
  - by injection Hf as <-.
  - destruct (force_rollback_at env meta ti i key s) as [s1|] eqn:H1; [|done].
    simpl in Hf. eapply IH; [done|]. by eapply force_rollback_at_wf.
Qed.

Lemma force_rollback_shards_wf env meta ti shards s s' :
  force_rollback_shards env meta ti shards s = Some s' →
  index_wf s → index_wf s'.
Proof.
  revert s. induction shards as [|i shards IH]; intros s Hf Hwf; simpl in Hf.
  - by injection Hf as <-.
  - destruct (force_rollback_keys _ _ _ _ _ _) as [s1|] eqn:H1; [|done].
    simpl in Hf. eapply IH; [done|]. by eapply force_rollback_keys_wf.
Qed.

Lemma call_wf cfg env c s st s' :
  call cfg env c s = Some (st, s') → index_wf s → index_wf s'.
Proof.
  destruct c; simpl; intros Hc Hwf.
  - injection Hc as Hc.
    replace s' with (prepare_txn cfg env partition_id transaction_id tablet_id0
                       schema_hash0 tablet_uid0 load_id0 s).2 by by rewrite Hc.
    by apply prepare_txn_wf.
  - by eapply commit_txn_wf.
  - by eapply publish_txn_wf.
  - injection Hc as Hc.
    replace s' with (rollback_txn partition_id transaction_id tablet_id0
                       schema_hash0 tablet_uid0 s).2 by by rewrite Hc.
    by apply rollback_txn_wf.
  - by eapply delete_txn_wf.
  - destruct (force_rollback_tablet_related_txns _ _ _ _ _ _) as [s1|] eqn:Hf; [|done].
    injection Hc as <- <-. by eapply force_rollback_shards_wf.
Qed.

Lemma reachable_wf cfg s : reachable cfg s → index_wf s.
Proof.
  induction 1 as [n1 n2 h ms ts Hv | s env c st s' _ IH Hc].
  - by apply TxnManager_new_wf.
  - by eapply call_wf.
Qed.

Lemma run_reachable cfg calls s sts s' :
  reachable cfg s → run cfg calls s = Some (sts, s') → reachable cfg s'.
Proof.
  revert s sts. induction calls as [|[env c] calls IH]; intros s sts Hs Hrun.
  - by injection Hrun as _ <-.
  - simpl in Hrun. destruct (call cfg env c s) as [[st s1]|] eqn:Hc; [|done].
    simpl in Hrun. destruct (run cfg calls s1) as [[sts1 s2]|] eqn:Hr; [|done].
    injection Hrun as _ <-. eapply IH; [|done]. by eapply reachable_call.
Qed.

Lemma state_after_reachable cfg calls s :
  reachable cfg s → reachable cfg (state_after cfg calls s).
Proof.
  intros Hs. unfold state_after.
  destruct (run cfg calls s) as [[sts s']|] eqn:Hr; [|done].
  by eapply run_reachable.
Qed.

Lemma Ex_s0_reachable : reachable Ex.cfg Ex.s0.
Proof. apply reachable_new. by repeat split. Qed.

Lemma Ex_committed_reachable : reachable Ex.cfg Ex.committed.
Proof. apply state_after_reachable, Ex_s0_reachable. Qed.

Lemma Ex_published_reachable : reachable Ex.cfg Ex.published.
Proof. apply state_after_reachable, Ex_committed_reachable. Qed.

Lemma Ex_crowded_reachable : reachable Ex.cfg Ex.crowded.
Proof. apply state_after_reachable, Ex_s0_reachable. Qed.

(** ** The partition map mirrors the tablet map *)

Lemma elem_of_tablet_map_keys (s : State) (key : TxnKey) :
  index_wf s →
  key ∈ tablet_map_keys s ↔ is_Some (_get_txn_tablet_map s key.2 !! key).
Proof.
  intros Hwf. unfold tablet_map_keys. rewrite elem_of_union_list. split.
  - intros (X & HX & Hkey). apply list_elem_of_fmap in HX as (m & -> & Hm).
    apply list_elem_of_lookup in Hm as [i Hi].
    apply elem_of_dom in Hkey as [inner Hinner].
    assert (Hat : tablet_map_at s i = m).
    { unfold tablet_map_at. by apply list_lookup_total_correct. }
    rewrite <- Hat in Hinner.
    destruct (wf_tablet_shard s Hwf i key inner Hinner) as [-> _].
    unfold _get_txn_tablet_map. eauto.
  - intros [inner Hinner]. unfold _get_txn_tablet_map, tablet_map_at in Hinner.
    pose proof (shard_of_lt s key.2 (wf_range s Hwf)) as Hlt.
    apply lookup_lt_is_Some_2 in Hlt as [m Hm].
    rewrite (list_lookup_total_correct _ _ _ Hm) in Hinner.
    exists (dom m). split.
    + apply list_elem_of_fmap. exists m. split; [done|].
      apply list_elem_of_lookup. eauto.
    + apply elem_of_dom. eauto.
Qed.

(** C9.  In every state a run of prepare / commit / publish / rollback /
    delete_txn / force_rollback calls can end in, [partition_map[txn_id]] is
    exactly the set of partition ids of the [tablet_map] keys whose transaction
    id is [txn_id]. *)
Theorem partition_map_mirrors_tablet_map (cfg : Config) (s : State)
    (transaction_id : TTransactionId) :
  reachable cfg s →
  get_partition_ids transaction_id s = partitions_in_tablet_map transaction_id s.
Proof.
  intros Hreach. pose proof (reachable_wf cfg s Hreach) as Hwf.
  apply set_eq. intros p. rewrite (wf_partition s Hwf).
  unfold partitions_in_tablet_map. rewrite elem_of_map. split.
  - intros Hsome. exists (p, transaction_id). split; [done|].
    apply elem_of_filter. split; [done|].
    by apply elem_of_tablet_map_keys.
  - intros ([p' t'] & -> & Hin). apply elem_of_filter in Hin as [Ht Hin].
    simpl in Ht. subst t'. by apply elem_of_tablet_map_keys in Hin.
Qed.

Lemma partition_map_mirrors_tablet_map_witness :
  get_partition_ids 100 Ex.committed = partitions_in_tablet_map 100 Ex.committed.
Proof.
  apply (partition_map_mirrors_tablet_map Ex.cfg Ex.committed 100).
  apply Ex_committed_reachable.
Defined.

(** ** publish *)

(** What a publish that returned ok has done. *)
Lemma publish_txn_ok_effect cfg env meta p t tid sh uid v s s' :
  shards_in_range s →
  publish_txn cfg env meta p t tid sh uid v s = Some (OK, s') →
  ∃ li q r m,
    index_entry s (p, t) (mkTabletInfo tid sh uid) = Some li ∧
    rowset li = Some q ∧ rowsets s !! q = Some r ∧ meta = Some m ∧
    (∀ key ti, index_entry s' key ti =
               if decide (key = (p, t) ∧ ti = mkTabletInfo tid sh uid) then None
               else index_entry s key ti) ∧
    rowsets s' = <[q := make_visible v r]> (rowsets s) ∧
    metas s' = <[m := <[(uid, rowset_id r) := rowset_meta (make_visible v r)]>
                        (metas s !!! m)]> (metas s).
Proof.
  intros Hr. unfold publish_txn. intros Hp.
  destruct (find_load_info _ _ _) as [li|] eqn:Hfind; [|done].
  destruct (rowset li) as [q|] eqn:Hq; [|done].
  simpl in Hp. destruct (deref s q) as [r|] eqn:Hderef; [|done]. simpl in Hp.
  unfold RowsetMetaManager_save in Hp. destruct meta as [m|]; [|done].
  destruct (decide (olap_meta_put env = OK)) as [Hput|Hput]; simpl in Hp.
  2: { by rewrite decide_False in Hp. }
  set (s1 := set_metas _ _) in Hp.
  assert (Hr1 : shards_in_range s1) by done.
  assert (Hit : ∃ inner, _get_txn_tablet_map s1 t !! (p, t) = Some inner).
  { unfold find_load_info in Hfind.
    change (_get_txn_tablet_map s1 t) with (_get_txn_tablet_map s t).
    destruct (_get_txn_tablet_map s t !! (p, t)); [eauto|done]. }
  destruct Hit as [inner Hit]. rewrite Hit in Hp.
  apply scan_delete_bitmap_effect in Hp as [ts ->].
  exists li, q, r, m. repeat split; try done.
  - intros key ti.
    change (index_entry (set_tablets ?a ts) key ti) with (index_entry a key ti).
    by rewrite erase_index_entry.
  - change (rowsets (set_tablets ?a ts)) with (rowsets a).
    by destruct (erase_rest p t (mkTabletInfo tid sh uid) inner s1) as (_ & -> & _).
  - change (metas (set_tablets ?a ts)) with (metas a).
    by destruct (erase_rest p t (mkTabletInfo tid sh uid) inner s1) as (_ & _ & -> & _).
Qed.

(** C1.  When a committed entry is published and publish returns ok, the index
    holds no entry for that (TxnKey, TabletInfo) any more, and the store holds,
    under (tablet_uid, rowset_id) of the committed rowset, that rowset's meta
    with the published version in it; the rowset object is the committed one
    with the version set. *)
Theorem publish_ok_removes_entry_and_saves_version (cfg : Config) (env : Env)
    (meta : option MetaPtr) (partition_id : TPartitionId)
    (transaction_id : TTransactionId) (tablet_id0 : TTabletId)
    (schema_hash0 : SchemaHash) (tablet_uid0 : TabletUid) (v : Version)
    (s s' : State) (load_info : TabletTxnInfo) (q : RowsetPtr) :
  reachable cfg s →
  index_entry s (partition_id, transaction_id)
    (mkTabletInfo tablet_id0 schema_hash0 tablet_uid0) = Some load_info →
  rowset load_info = Some q →
  publish_txn cfg env meta partition_id transaction_id tablet_id0 schema_hash0
    tablet_uid0 v s = Some (OK, s') →
  index_entry s' (partition_id, transaction_id)
    (mkTabletInfo tablet_id0 schema_hash0 tablet_uid0) = None ∧
  has_txn partition_id transaction_id tablet_id0 schema_hash0 tablet_uid0 s' = false ∧
  ∃ m r,
    meta = Some m ∧ deref s q = Some r ∧
    deref s' q
    = Some (mkRowset (mkRowsetMetaPB (rowset_id r) v (pb_rest (rowset_meta r)))
                     (keys_type r) (load_segments r)) ∧
    rowset_meta_in_store s' m tablet_uid0 (rowset_id r)
    = Some (mkRowsetMetaPB (rowset_id r) v (pb_rest (rowset_meta r))).
Proof.
  intros Hreach Hentry Hq Hpub.
  pose proof (wf_range s (reachable_wf cfg s Hreach)) as Hr.
  destruct (publish_txn_ok_effect _ _ _ _ _ _ _ _ _ _ _ Hr Hpub)
    as (li & q' & r & m & Hentry' & Hq' & Hr' & -> & Hidx & Hrs & Hms).
  rewrite Hentry in Hentry'. injection Hentry' as <-.
  rewrite Hq in Hq'. injection Hq' as <-.
  assert (Hnone : index_entry s' (partition_id, transaction_id)
                    (mkTabletInfo tablet_id0 schema_hash0 tablet_uid0) = None).
  { rewrite Hidx. by rewrite decide_True. }
  split; [done|]. split.
  { change (bool_decide (is_Some (index_entry s' (partition_id, transaction_id)
              (mkTabletInfo tablet_id0 schema_hash0 tablet_uid0))) = false).
    rewrite Hnone. apply bool_decide_eq_false. by intros [? ?]. }
  exists m, r. split; [done|]. split; [done|]. split.
  - unfold deref. rewrite Hrs. apply lookup_insert_eq.
  - unfold rowset_meta_in_store. rewrite Hms.
    rewrite lookup_total_insert_eq. apply lookup_insert_eq.
Qed.

Lemma publish_ok_removes_entry_and_saves_version_witness :
  index_entry Ex.published (10, 100) Ex.T1 = None ∧
  has_txn 10 100 7 42 Ex.U1 Ex.published = false ∧
  ∃ m r,
    Some Ex.root = Some m ∧ deref Ex.committed Ex.r1 = Some r ∧
    deref Ex.published Ex.r1
    = Some (mkRowset (mkRowsetMetaPB (rowset_id r) (5, 5) (pb_rest (rowset_meta r)))
                     (keys_type r) (load_segments r)) ∧
    rowset_meta_in_store Ex.published m Ex.U1 (rowset_id r)
    = Some (mkRowsetMetaPB (rowset_id r) (5, 5) (pb_rest (rowset_meta r))).
Proof.
  apply (publish_ok_removes_entry_and_saves_version Ex.cfg (Ex.at_time 9)
           (Some Ex.root) 10 100 7 42 Ex.U1 (5, 5) Ex.committed Ex.published
           (mkTabletTxnInfo Ex.L1 (Some Ex.r1) 5) Ex.r1).
  - apply Ex_committed_reachable.
  - vm_compute. reflexivity.
  - reflexivity.
  - vm_compute. reflexivity.
Defined.

(** ** delete after publish *)

(** C2, as stated, fails: after prepare, commit and a publish that returned
    ok, delete_txn for the same key answers TransactionNotExist, not
    AlreadyCommitted (publish has taken the entry out of the index). *)
Lemma delete_after_publish_not_already_committed :
  statuses_of Ex.cfg
    [(Ex.at_time 0, Ex.prepare1); (Ex.at_time 5, Ex.commit1);
     (Ex.at_time 9, Ex.publish1); (Ex.at_time 10, Ex.delete1)] Ex.s0
  = Some [OK; OK; OK; OLAP_ERR_TRANSACTION_NOT_EXIST] ∧
  statuses_of Ex.cfg
    [(Ex.at_time 0, Ex.prepare1); (Ex.at_time 5, Ex.commit1);
     (Ex.at_time 9, Ex.publish1); (Ex.at_time 10, Ex.delete1)] Ex.s0
  ≠ Some [OK; OK; OK; OLAP_ERR_TRANSACTION_ALREADY_COMMITTED].
Proof. split; [by vm_compute | by vm_compute]. Qed.

(** C2, amended.  After a publish that returned ok, delete_txn for the same
    (partition_id, txn_id, tablet_info) returns TransactionNotExist when no
    tablet is left under the TxnKey and ok when other tablets are; in both
    cases the rowset-meta stores are left as they were. *)
Theorem delete_after_publish_ok (cfg : Config) (env env' : Env)
    (meta meta' : option MetaPtr) (partition_id : TPartitionId)
    (transaction_id : TTransactionId) (tablet_id0 : TTabletId)
    (schema_hash0 : SchemaHash) (tablet_uid0 : TabletUid) (v : Version)
    (s s1 : State) :
  reachable cfg s →
  publish_txn cfg env meta partition_id transaction_id tablet_id0 schema_hash0
    tablet_uid0 v s = Some (OK, s1) →
  ∃ st s2,
    delete_txn cfg env' meta' partition_id transaction_id tablet_id0 schema_hash0
      tablet_uid0 s1 = Some (st, s2) ∧
    metas s2 = metas s1 ∧
    ((st = OLAP_ERR_TRANSACTION_NOT_EXIST ∧
      get_txn_related_tablets transaction_id partition_id s1 = ∅) ∨
     (st = OK ∧ get_txn_related_tablets transaction_id partition_id s1 ≠ ∅)).
Proof.
  intros Hreach Hpub.
  pose proof (reachable_wf cfg s Hreach) as Hwf.
  pose proof (publish_txn_wf _ _ _ _ _ _ _ _ _ _ _ _ Hpub Hwf) as Hwf1.
  destruct (publish_txn_ok_effect _ _ _ _ _ _ _ _ _ _ _ (wf_range s Hwf) Hpub)
    as (li & q & r & m & _ & _ & _ & _ & Hidx & _ & _).
  specialize (Hidx (partition_id, transaction_id)
                (mkTabletInfo tablet_id0 schema_hash0 tablet_uid0)).
  rewrite decide_True in Hidx by done.
  unfold index_entry, find_load_info in Hidx. simpl in Hidx.
  unfold delete_txn, get_txn_related_tablets.
  destruct (_get_txn_tablet_map s1 transaction_id !! (partition_id, transaction_id))
    as [inner|] eqn:Hit.
  - rewrite Hidx. eexists OK, _. split; [done|]. split.
    + by destruct (erase_rest partition_id transaction_id
        (mkTabletInfo tablet_id0 schema_hash0 tablet_uid0) inner s1) as (_ & _ & -> & _).
    + right. split; [done|]. rewrite fmap_empty_iff.
      by destruct (wf_tablet_shard s1 Hwf1 _ _ _ Hit).
  - eexists _, s1. split; [done|]. split; [done|]. by left.
Qed.

Lemma delete_after_publish_ok_witness :
  ∃ st s2,
    delete_txn Ex.cfg (Ex.at_time 10) (Some Ex.root) 10 100 7 42 Ex.U1 Ex.published
      = Some (st, s2) ∧
    metas s2 = metas Ex.published ∧
    ((st = OLAP_ERR_TRANSACTION_NOT_EXIST ∧
      get_txn_related_tablets 100 10 Ex.published = ∅) ∨
     (st = OK ∧ get_txn_related_tablets 100 10 Ex.published ≠ ∅)).
Proof.
  apply (delete_after_publish_ok Ex.cfg (Ex.at_time 9) (Ex.at_time 10)
           (Some Ex.root) (Some Ex.root) 10 100 7 42 Ex.U1 (5, 5)
           Ex.committed Ex.published).
  - apply Ex_committed_reachable.
  - vm_compute. reflexivity.
Defined.

(** ** commit on top of a committed entry *)

Lemma same_load_id_refl (l : PUniqueId) : same_load_id l l = true.
Proof. unfold same_load_id. by rewrite !Z.eqb_refl. Qed.

Lemma commit_ids_ok (p t tid : Z) :
  1 ≤ p → 1 ≤ t → 1 ≤ tid → (p <? 1) || (t <? 1) || (tid <? 1) = false.
Proof.
  intros. rewrite !orb_false_iff. repeat split; by apply Z.ltb_ge.
Qed.

(** The lookup block of commit, facing an entry that holds a rowset under the
    load id of the request. *)
Lemma commit_lookup_committed s p t ti li q old_rowset new_rowset :
  index_entry s (p, t) ti = Some li → rowset li = Some q →
  deref s q = Some old_rowset →
  commit_lookup s (p, t) ti (load_id li) new_rowset =
  Some (Some (if decide (rowset_id old_rowset = rowset_id new_rowset) then OK
              else OLAP_ERR_PUSH_TRANSACTION_ALREADY_EXIST)).
Proof.
  intros Hentry Hq Hderef. unfold commit_lookup.
  unfold index_entry in Hentry. rewrite Hentry, Hq, same_load_id_refl, Hderef.
  by case_decide.
Qed.

(** C3.  On a committed entry with load id L and rowset R, a second commit
    with L and a rowset of the same rowset id returns ok and changes nothing:
    no put reaches the store (the answer is ok whatever the store would say
    to one), the entry and the stored meta stay as they are. *)
Theorem commit_same_rowset_again (cfg : Config) (env : Env) (meta : option MetaPtr)
    (partition_id : TPartitionId) (transaction_id : TTransactionId)
    (tablet_id0 : TTabletId) (schema_hash0 : SchemaHash) (tablet_uid0 : TabletUid)
    (is_recovery : bool) (s : State) (load_info : TabletTxnInfo)
    (q q' : RowsetPtr) (R R' : Rowset) :
  reachable cfg s →
  index_entry s (partition_id, transaction_id)
    (mkTabletInfo tablet_id0 schema_hash0 tablet_uid0) = Some load_info →
  rowset load_info = Some q → deref s q = Some R →
  deref s q' = Some R' → rowset_id R' = rowset_id R →
  commit_txn cfg env meta partition_id transaction_id tablet_id0 schema_hash0
    tablet_uid0 (load_id load_info) (Some q') is_recovery s = Some (OK, s).
Proof.
  intros Hreach Hentry Hq HR HR' Hid.
  destruct (wf_committed s (reachable_wf cfg s Hreach) _ _ _ _ Hentry Hq)
    as (Hp & Ht & Htid & _). simpl in Hp, Ht, Htid.
  unfold commit_txn. rewrite commit_ids_ok by done.
  rewrite HR'. simpl.
  rewrite (commit_lookup_committed s _ _ _ load_info q R R') by done.
  by rewrite decide_True.
Qed.

Lemma commit_same_rowset_again_witness :
  commit_txn Ex.cfg (Ex.put_fails 6) (Some Ex.root) 10 100 7 42 Ex.U1 Ex.L1
    (Some Ex.r1) false Ex.committed = Some (OK, Ex.committed).
Proof.
  apply (commit_same_rowset_again Ex.cfg (Ex.put_fails 6) (Some Ex.root) 10 100 7 42
           Ex.U1 false Ex.committed (mkTabletTxnInfo Ex.L1 (Some Ex.r1) 5)
           Ex.r1 Ex.r1 Ex.R1 Ex.R1).
  - apply Ex_committed_reachable.
  - vm_compute. reflexivity.
  - reflexivity.
  - vm_compute. reflexivity.
  - vm_compute. reflexivity.
  - reflexivity.
Defined.

(** C4.  On a committed entry with load id L and rowset R, a commit with L and
    a rowset of another rowset id returns AlreadyExists, and the index still
    holds R for that (TxnKey, TabletInfo). *)
Theorem commit_other_rowset_rejected (cfg : Config) (env : Env) (meta : option MetaPtr)
    (partition_id : TPartitionId) (transaction_id : TTransactionId)
    (tablet_id0 : TTabletId) (schema_hash0 : SchemaHash) (tablet_uid0 : TabletUid)
    (is_recovery : bool) (s : State) (load_info : TabletTxnInfo)
    (q q' : RowsetPtr) (R R' : Rowset) :
  reachable cfg s →
  index_entry s (partition_id, transaction_id)
    (mkTabletInfo tablet_id0 schema_hash0 tablet_uid0) = Some load_info →
  rowset load_info = Some q → deref s q = Some R →
  deref s q' = Some R' → rowset_id R' ≠ rowset_id R →
  ∃ s',
    commit_txn cfg env meta partition_id transaction_id tablet_id0 schema_hash0
      tablet_uid0 (load_id load_info) (Some q') is_recovery s
    = Some (OLAP_ERR_PUSH_TRANSACTION_ALREADY_EXIST, s') ∧
    index_entry s' (partition_id, transaction_id)
      (mkTabletInfo tablet_id0 schema_hash0 tablet_uid0) = Some load_info ∧
    entry_rowset s' (partition_id, transaction_id)
      (mkTabletInfo tablet_id0 schema_hash0 tablet_uid0) = Some R.
Proof.
  intros Hreach Hentry Hq HR HR' Hid.
  destruct (wf_committed s (reachable_wf cfg s Hreach) _ _ _ _ Hentry Hq)
    as (Hp & Ht & Htid & _). simpl in Hp, Ht, Htid.
  exists s. split; [|split; [done|]].
  - unfold commit_txn. rewrite commit_ids_ok by done.
    rewrite HR'. simpl.
    rewrite (commit_lookup_committed s _ _ _ load_info q R R') by done.
    by rewrite decide_False.
  - unfold entry_rowset. rewrite Hentry. simpl. rewrite Hq. simpl. done.
Qed.

Lemma commit_other_rowset_rejected_witness :
  ∃ s',
    commit_txn Ex.cfg (Ex.at_time 6) (Some Ex.root) 10 100 7 42 Ex.U1 Ex.L1
      (Some Ex.r2) false Ex.committed
    = Some (OLAP_ERR_PUSH_TRANSACTION_ALREADY_EXIST, s') ∧
    index_entry s' (10, 100) Ex.T1 = Some (mkTabletTxnInfo Ex.L1 (Some Ex.r1) 5) ∧
    entry_rowset s' (10, 100) Ex.T1 = Some Ex.R1.
Proof.
  apply (commit_other_rowset_rejected Ex.cfg (Ex.at_time 6) (Some Ex.root) 10 100 7 42
           Ex.U1 false Ex.committed (mkTabletTxnInfo Ex.L1 (Some Ex.r1) 5)
           Ex.r1 Ex.r2 Ex.R1 Ex.R2).
  - apply Ex_committed_reachable.
  - vm_compute. reflexivity.
  - reflexivity.
  - vm_compute. reflexivity.
  - vm_compute. reflexivity.
  - vm_compute. discriminate.
Defined.

(** ** prepare and the limit on running transactions *)

(** C5, as stated, fails: with a maximum of one running transaction and one
    already in the shard's partition map, preparing a second transaction would
    bring the map to two entries, and prepare accepts it. *)
Lemma prepare_accepts_insert_beyond_maximum :
  insert_would_exceed Ex.cfg 10 101 Ex.prepared = true ∧
  (prepare_txn Ex.cfg (Ex.at_time 1) 10 101 7 42 Ex.U1 Ex.L1 Ex.prepared).1 = OK ∧
  size (_get_txn_partition_map
          (prepare_txn Ex.cfg (Ex.at_time 1) 10 101 7 42 Ex.U1 Ex.L1 Ex.prepared).2 101)
  = 2%nat.
Proof. by vm_compute. Qed.

(** C5, amended.  prepare returns TooManyTransactions exactly when the call is
    not answered from an entry that already holds a rowset under the same load
    id and the shard's partition map, as it is when the call arrives, is larger
    than the configured maximum; the index is then left unchanged. *)
Theorem prepare_too_many_iff (cfg : Config) (env : Env)
    (partition_id : TPartitionId) (transaction_id : TTransactionId)
    (tablet_id0 : TTabletId) (schema_hash0 : SchemaHash) (tablet_uid0 : TabletUid)
    (load_id0 : PUniqueId) (s : State) :
  let r := prepare_txn cfg env partition_id transaction_id tablet_id0 schema_hash0
             tablet_uid0 load_id0 s in
  (r.1 = OLAP_ERR_TOO_MANY_TRANSACTIONS ↔
     prepare_finds_committed s (partition_id, transaction_id)
       (mkTabletInfo tablet_id0 schema_hash0 tablet_uid0) load_id0 = false ∧
     Z.of_nat (size (_get_txn_partition_map s transaction_id))
       > to_size_t (max_runnings_transactions_per_txn_map cfg)) ∧
  (r.1 = OLAP_ERR_TOO_MANY_TRANSACTIONS → r.2 = s).
Proof.
  simpl. unfold prepare_txn.
  destruct (prepare_finds_committed _ _ _ _); simpl.
  { split; [|done]. split; [done | by intros [? _]]. }
  destruct (_ >? _) eqn:Hgt; simpl.
  - split; [|done]. split; [|done]. intros _. split; [done|].
    by apply Z.gtb_gt.
  - split; [|done]. split; [done|]. intros [_ Hsize].
    apply Z.gtb_gt in Hsize. congruence.
Qed.

Lemma same_load_id_true (a b : PUniqueId) : same_load_id a b = true ↔ a = b.
Proof.
  unfold same_load_id. rewrite andb_true_iff, !Z.eqb_eq.
  destruct a, b; simpl. split; [by intros [-> ->] | by intros [= -> ->]].
Qed.

(** C10, as stated, fails: with two running transactions in a shard whose
    maximum is one, a prepare with another load id on the committed entry of
    transaction 101 is turned down and the entry stays committed. *)
Lemma prepare_over_committed_turned_down :
  index_entry Ex.crowded (10, 101) Ex.T1 = Some (mkTabletTxnInfo Ex.L1 (Some Ex.r2) 2) ∧
  prepare_txn Ex.cfg (Ex.at_time 3) 10 101 7 42 Ex.U1 Ex.L2 Ex.crowded
  = (OLAP_ERR_TOO_MANY_TRANSACTIONS, Ex.crowded).
Proof. by vm_compute. Qed.

(** C10, amended.  Where (TxnKey, TabletInfo) holds a committed entry, a
    prepare for the same key with another load id returns ok and replaces the
    entry with an uncommitted one (the new load id, no rowset), provided the
    shard's partition map is not larger than the configured maximum; when it
    is larger, prepare returns TooManyTransactions and the entry stays. *)
Theorem prepare_over_committed_other_load (cfg : Config) (env : Env)
    (partition_id : TPartitionId) (transaction_id : TTransactionId)
    (tablet_id0 : TTabletId) (schema_hash0 : SchemaHash) (tablet_uid0 : TabletUid)
    (load_id0 : PUniqueId) (s : State) (load_info : TabletTxnInfo) :
  reachable cfg s →
  index_entry s (partition_id, transaction_id)
    (mkTabletInfo tablet_id0 schema_hash0 tablet_uid0) = Some load_info →
  is_Some (rowset load_info) →
  load_id load_info ≠ load_id0 →
  let r := prepare_txn cfg env partition_id transaction_id tablet_id0 schema_hash0
             tablet_uid0 load_id0 s in
  (Z.of_nat (size (_get_txn_partition_map s transaction_id))
     ≤ to_size_t (max_runnings_transactions_per_txn_map cfg) →
   r.1 = OK ∧
   index_entry r.2 (partition_id, transaction_id)
     (mkTabletInfo tablet_id0 schema_hash0 tablet_uid0)
   = Some (mkTabletTxnInfo load_id0 None (UnixSeconds env)) ∧
   get_txn_related_tablets transaction_id partition_id r.2
     !! mkTabletInfo tablet_id0 schema_hash0 tablet_uid0 = Some None) ∧
  (Z.of_nat (size (_get_txn_partition_map s transaction_id))
     > to_size_t (max_runnings_transactions_per_txn_map cfg) →
   r = (OLAP_ERR_TOO_MANY_TRANSACTIONS, s)).
Proof.
  intros Hreach Hentry Hrow Hload. simpl.
  pose proof (wf_range s (reachable_wf cfg s Hreach)) as Hr.
  unfold prepare_txn.
  assert (Hfind : prepare_finds_committed s (partition_id, transaction_id)
            (mkTabletInfo tablet_id0 schema_hash0 tablet_uid0) load_id0 = false).
  { unfold prepare_finds_committed. unfold index_entry in Hentry. rewrite Hentry.
    apply andb_false_iff. left. apply not_true_iff_false.
    by rewrite same_load_id_true. }
  rewrite Hfind. split.
  - intros Hsize.
    assert (Hcmp : (Z.of_nat (size (_get_txn_partition_map s transaction_id))
                      >? to_size_t (max_runnings_transactions_per_txn_map cfg)) = false).
    { rewrite Z.gtb_ltb. by apply Z.ltb_ge. }
    rewrite Hcmp. simpl.
    assert (Hnew : index_entry
              (store_load_info partition_id transaction_id
                 (mkTabletInfo tablet_id0 schema_hash0 tablet_uid0)
                 (mkTabletTxnInfo load_id0 None (UnixSeconds env)) s)
              (partition_id, transaction_id)
              (mkTabletInfo tablet_id0 schema_hash0 tablet_uid0)
            = Some (mkTabletTxnInfo load_id0 None (UnixSeconds env))).
    { rewrite store_index_entry by done. by rewrite decide_True. }
    split; [done|]. split; [done|].
    unfold index_entry, find_load_info in Hnew. simpl in Hnew.
    unfold get_txn_related_tablets.
    destruct (_ !! (partition_id, transaction_id)) as [inner|]; [|done].
    by rewrite lookup_fmap, Hnew.
  - intros Hsize. apply Z.gtb_gt in Hsize. by rewrite Hsize.
Qed.

Lemma prepare_over_committed_other_load_witness :
  (prepare_txn Ex.cfg (Ex.at_time 6) 10 100 7 42 Ex.U1 Ex.L2 Ex.committed).1 = OK ∧
  index_entry (prepare_txn Ex.cfg (Ex.at_time 6) 10 100 7 42 Ex.U1 Ex.L2 Ex.committed).2
    (10, 100) Ex.T1
  = Some (mkTabletTxnInfo Ex.L2 None 6) ∧
  get_txn_related_tablets 100 10
    (prepare_txn Ex.cfg (Ex.at_time 6) 10 100 7 42 Ex.U1 Ex.L2 Ex.committed).2
    !! Ex.T1 = Some None.
Proof.
  refine (proj1 (prepare_over_committed_other_load Ex.cfg (Ex.at_time 6) 10 100 7 42
                   Ex.U1 Ex.L2 Ex.committed (mkTabletTxnInfo Ex.L1 (Some Ex.r1) 5)
                   Ex_committed_reachable _ _ _) _).
  - vm_compute. reflexivity.
  - simpl. eauto.
  - discriminate.
  - vm_compute. discriminate.
Defined.

(** ** prepare twice *)

Lemma put_txn_tablet_map_id (s : State) (t : Z) :
  shards_in_range s → put_txn_tablet_map s t (_get_txn_tablet_map s t) = s.
Proof.
  intros Hr. unfold put_txn_tablet_map, _get_txn_tablet_map, tablet_map_at.
  rewrite list_insert_id; [by destruct s|].
  apply list_lookup_lookup_total_lt. by apply shard_of_lt.
Qed.

Lemma put_txn_partition_map_id (s : State) (t : Z) :
  shards_in_range s → put_txn_partition_map s t (_get_txn_partition_map s t) = s.
Proof.
  intros Hr. unfold put_txn_partition_map, _get_txn_partition_map, partition_map_at.
  rewrite list_insert_id; [by destruct s|].
  apply list_lookup_lookup_total_lt. by apply shard_of_lt_partition.
Qed.

(** Storing on top of an entry whose partition is already listed only writes
    the entry. *)
Lemma store_load_info_again p t ti li s inner ps :
  shards_in_range s →
  _get_txn_tablet_map s t !! (p, t) = Some inner →
  _get_txn_partition_map s t !! t = Some ps → p ∈ ps →
  store_load_info p t ti li s =
  put_txn_tablet_map s t (<[(p, t) := <[ti := li]> inner]> (_get_txn_tablet_map s t)).
Proof.
  intros Hr Hinner Hps Hp. unfold store_load_info. rewrite insert_partition_unfold.
  unfold assign_load_info. rewrite Hinner. simpl.
  set (s1 := put_txn_tablet_map s t _).
  change (_get_txn_partition_map s1 t) with (_get_txn_partition_map s t).
  rewrite Hps. simpl.
  replace (ps ∪ {[p]}) with ps by set_solver.
  rewrite insert_id by done.
  change (_get_txn_partition_map s t) with (_get_txn_partition_map s1 t).
  apply put_txn_partition_map_id. by apply shards_in_range_put_tablet.
Qed.

Lemma restamp_existing p t ti c s inner li :
  _get_txn_tablet_map s t !! (p, t) = Some inner → inner !! ti = Some li →
  restamp (p, t) ti c s =
  put_txn_tablet_map s t
    (<[(p, t) := <[ti := mkTabletTxnInfo (load_id li) (rowset li) c]> inner]>
       (_get_txn_tablet_map s t)).
Proof.
  intros Hinner Hli. unfold restamp. simpl. f_equal.
  apply map_eq. intros key. rewrite lookup_alter, lookup_insert.
  case_decide; [|done]. rewrite Hinner. simpl. f_equal.
  apply map_eq. intros ti'. rewrite lookup_alter, lookup_insert.
  case_decide; [|done]. by rewrite Hli.
Qed.

Lemma prepare_txn_unfold cfg env p t tid sh uid l s :
  prepare_txn cfg env p t tid sh uid l s =
  if prepare_finds_committed s (p, t) (mkTabletInfo tid sh uid) l then (OK, s)
  else if Z.of_nat (size (_get_txn_partition_map s t))
            >? to_size_t (max_runnings_transactions_per_txn_map cfg)
       then (OLAP_ERR_TOO_MANY_TRANSACTIONS, s)
       else (OK, store_load_info p t (mkTabletInfo tid sh uid)
                   (mkTabletTxnInfo l None (UnixSeconds env)) s).
Proof. reflexivity. Qed.

(** C6, as stated, fails: a second prepare with the same arguments, one second
    later, stamps the entry anew, so the index is not the one the first call
    left. *)
Lemma prepare_twice_restamps :
  index_entry Ex.prepared (10, 100) Ex.T1 = Some (mkTabletTxnInfo Ex.L1 None 0) ∧
  index_entry Ex.prepared_twice (10, 100) Ex.T1 = Some (mkTabletTxnInfo Ex.L1 None 1) ∧
  (prepare_txn Ex.cfg (Ex.at_time 1) 10 100 7 42 Ex.U1 Ex.L1 Ex.prepared).2 ≠ Ex.prepared.
Proof.
  split; [by vm_compute|]. split; [by vm_compute|].
  intros Heq. apply (f_equal (λ s, index_entry s (10, 100) Ex.T1)) in Heq.
  vm_compute in Heq. discriminate.
Qed.

(** C6, amended.  Two consecutive prepare calls with identical arguments leave
    the index as the first call left it, except for the entry's creation
    time: when the second call stores the entry again, the entry the first
    call stamped with its clock reading now carries the second call's.  The
    state is the one the first call left exactly when the two readings
    coincide, or the second call is turned down, or it is answered from a
    committed entry. *)
Theorem prepare_twice (cfg : Config) (env1 env2 : Env)
    (partition_id : TPartitionId) (transaction_id : TTransactionId)
    (tablet_id0 : TTabletId) (schema_hash0 : SchemaHash) (tablet_uid0 : TabletUid)
    (load_id0 : PUniqueId) (s : State) :
  reachable cfg s →
  let s1 := (prepare_txn cfg env1 partition_id transaction_id tablet_id0 schema_hash0
               tablet_uid0 load_id0 s).2 in
  let r2 := prepare_txn cfg env2 partition_id transaction_id tablet_id0 schema_hash0
              tablet_uid0 load_id0 s1 in
  (r2.2 = s1 ∨
   r2.1 = OK ∧
   r2.2 = restamp (partition_id, transaction_id)
            (mkTabletInfo tablet_id0 schema_hash0 tablet_uid0) (UnixSeconds env2) s1 ∧
   index_entry s1 (partition_id, transaction_id)
     (mkTabletInfo tablet_id0 schema_hash0 tablet_uid0)
   = Some (mkTabletTxnInfo load_id0 None (UnixSeconds env1)) ∧
   index_entry r2.2 (partition_id, transaction_id)
     (mkTabletInfo tablet_id0 schema_hash0 tablet_uid0)
   = Some (mkTabletTxnInfo load_id0 None (UnixSeconds env2))) ∧
  (r2.2 = s1 ↔
   UnixSeconds env2 = UnixSeconds env1 ∨
   r2.1 = OLAP_ERR_TOO_MANY_TRANSACTIONS ∨
   prepare_finds_committed s1 (partition_id, transaction_id)
     (mkTabletInfo tablet_id0 schema_hash0 tablet_uid0) load_id0 = true).
Proof.
  intros Hreach. pose proof (reachable_wf cfg s Hreach) as Hwf.
  pose proof (wf_range s Hwf) as Hr.
  set (ti := mkTabletInfo tablet_id0 schema_hash0 tablet_uid0).
  set (p := partition_id). set (t := transaction_id).
  cbv zeta. rewrite (prepare_txn_unfold cfg env1). fold ti.
  destruct (prepare_finds_committed s (p, t) ti load_id0) eqn:Hfind1.
  { (* answered from a committed entry, both times *)
    cbn [snd]. rewrite prepare_txn_unfold. fold ti. rewrite Hfind1.
    split; [by left|]. split; [intros _; by right; right | done]. }
  destruct (_ >? _) eqn:Hsize1.
  { (* turned down, both times *)
    cbn [snd]. rewrite prepare_txn_unfold. fold ti. rewrite Hfind1, Hsize1.
    split; [by left|]. split; [intros _; right; by left | done]. }
  cbn [snd].
  set (li1 := mkTabletTxnInfo load_id0 None (UnixSeconds env1)).
  set (s1 := store_load_info p t ti li1 s).
  assert (Hr1 : shards_in_range s1) by by apply store_in_range.
  assert (Hinner : _get_txn_tablet_map s1 t !! (p, t)
                   = Some (<[ti := li1]> (default ∅ (_get_txn_tablet_map s t !! (p, t))))).
  { unfold _get_txn_tablet_map at 1. subst s1.
    replace (shard_of (store_load_info p t ti li1 s) t) with (shard_of s t)
      by (unfold shard_of; by rewrite store_shard_size).
    rewrite store_tablet_lookup by done. by rewrite decide_True. }
  assert (Hps : _get_txn_partition_map s1 t !! t
                = Some (default ∅ (_get_txn_partition_map s t !! t) ∪ {[p]})).
  { unfold _get_txn_partition_map at 1. subst s1.
    replace (shard_of (store_load_info p t ti li1 s) t) with (shard_of s t)
      by (unfold shard_of; by rewrite store_shard_size).
    rewrite store_partition_lookup by done. by rewrite decide_True. }
  assert (Hentry1 : index_entry s1 (p, t) ti = Some li1).
  { subst s1. rewrite store_index_entry by done. by rewrite decide_True. }
  rewrite prepare_txn_unfold. fold ti.
  assert (Hfind2 : prepare_finds_committed s1 (p, t) ti load_id0 = false).
  { unfold prepare_finds_committed, find_load_info. simpl. rewrite Hinner.
    rewrite lookup_insert_eq. simpl. apply andb_false_iff. by right. }
  rewrite Hfind2.
  destruct (Z.of_nat (size (_get_txn_partition_map s1 t)) >? _) eqn:Hsize2; cbn [fst snd].
  { split; [by left|]. split; [intros _; right; by left | done]. }
  set (li2 := mkTabletTxnInfo load_id0 None (UnixSeconds env2)).
  assert (Hstore : store_load_info p t ti li2 s1
                   = put_txn_tablet_map s1 t
                       (<[(p, t) := <[ti := li2]>
                            (<[ti := li1]> (default ∅ (_get_txn_tablet_map s t !! (p, t))))]>
                          (_get_txn_tablet_map s1 t))).
  { eapply store_load_info_again; [done | done | done | set_solver]. }
  assert (Hentry2 : index_entry (store_load_info p t ti li2 s1) (p, t) ti = Some li2).
  { rewrite store_index_entry by done. by rewrite decide_True. }
  assert (Hsame : UnixSeconds env2 = UnixSeconds env1 → store_load_info p t ti li2 s1 = s1).
  { intros Hclock. rewrite Hstore.
    replace li2 with li1 by (subst li1 li2; by rewrite Hclock).
    rewrite insert_insert_eq, (insert_id _ _ _ Hinner).
    by apply put_txn_tablet_map_id. }
  split.
  - right. split; [done|]. split; [|done]. rewrite Hstore.
    rewrite (restamp_existing p t ti (UnixSeconds env2) s1 _ li1 Hinner)
      by apply lookup_insert_eq.
    done.
  - split.
    + intros Heq. left. rewrite Heq, Hentry1 in Hentry2.
      by injection Hentry2 as ->.
    + intros [Hclock | [Hno | Hno]]; [by apply Hsame | done | done].
Qed.

Lemma prepare_twice_witness :
  ((prepare_txn Ex.cfg (Ex.at_time 1) 10 100 7 42 Ex.U1 Ex.L1 Ex.prepared).2 = Ex.prepared ∨
   (prepare_txn Ex.cfg (Ex.at_time 1) 10 100 7 42 Ex.U1 Ex.L1 Ex.prepared).1 = OK ∧
   (prepare_txn Ex.cfg (Ex.at_time 1) 10 100 7 42 Ex.U1 Ex.L1 Ex.prepared).2
   = restamp (10, 100) Ex.T1 1 Ex.prepared ∧
   index_entry Ex.prepared (10, 100) Ex.T1 = Some (mkTabletTxnInfo Ex.L1 None 0) ∧
   index_entry (prepare_txn Ex.cfg (Ex.at_time 1) 10 100 7 42 Ex.U1 Ex.L1 Ex.prepared).2
     (10, 100) Ex.T1 = Some (mkTabletTxnInfo Ex.L1 None 1)) ∧
  ((prepare_txn Ex.cfg (Ex.at_time 1) 10 100 7 42 Ex.U1 Ex.L1 Ex.prepared).2 = Ex.prepared ↔
   UnixSeconds (Ex.at_time 1) = UnixSeconds (Ex.at_time 0) ∨
   (prepare_txn Ex.cfg (Ex.at_time 1) 10 100 7 42 Ex.U1 Ex.L1 Ex.prepared).1
   = OLAP_ERR_TOO_MANY_TRANSACTIONS ∨
   prepare_finds_committed Ex.prepared (10, 100) Ex.T1 Ex.L1 = true).
Proof.
  exact (prepare_twice Ex.cfg (Ex.at_time 0) (Ex.at_time 1) 10 100 7 42 Ex.U1 Ex.L1
           Ex.s0 Ex_s0_reachable).
Defined.

(** ** commit and the creation time *)




(** ** publish when the store's put fails *)

(** C8: the code leaves a published rowset in [tablet_map].  prepare, commit
    of an unpublished rowset, then publish at version (5, 5) with the put
    failing: publish returns SaveFailed after [make_visible] has written the
    version into the shared rowset object, and the entry is still in the
    index, now holding a rowset whose version starts at 5. *)
Lemma publish_save_failed_keeps_published_rowset :
  reachable Ex.cfg Ex.publish_failed ∧
  publish_txn Ex.cfg (Ex.put_fails 9) (Some Ex.root) 10 100 7 42 Ex.U1 (5, 5)
    Ex.committed = Some (OLAP_ERR_ROWSET_SAVE_FAILED, Ex.publish_failed) ∧
  version <$> entry_rowset Ex.committed (10, 100) Ex.T1 = Some (0, 0) ∧
  version <$> entry_rowset Ex.publish_failed (10, 100) Ex.T1 = Some (5, 5) ∧
  has_txn 10 100 7 42 Ex.U1 Ex.publish_failed = true.
Proof.
  split; [apply state_after_reachable, Ex_committed_reachable|].
  repeat split; by vm_compute.
Qed.

(** * Further properties of the manager *)

(** ** Two states with the same shard contents are the same state *)

Lemma state_ext (s s' : State) :
  shards_in_range s → shards_in_range s' →
  _txn_map_shard_size s' = _txn_map_shard_size s →
  _txn_shard_size s' = _txn_shard_size s →
  (∀ i, tablet_map_at s' i = tablet_map_at s i) →
  (∀ i, partition_map_at s' i = partition_map_at s i) →
  rowsets s' = rowsets s → metas s' = metas s → tablets s' = tablets s →
  unused_rowsets s' = unused_rowsets s →
  s' = s.
Proof.
  intros (_ & Hl1 & Hl2) (_ & Hl1' & Hl2') Hn Hn2 Ht Hp Hh Hm Hts Hu.
  destruct s as [n1 n2 tm pm h ms ts u], s' as [n1' n2' tm' pm' h' ms' ts' u'].
  simpl in *. subst. f_equal.
  - eapply list_eq_same_length; [exact Hl1 | exact Hl1' |].
    intros i x y _ Hx Hy. specialize (Ht i). unfold tablet_map_at in Ht. simpl in Ht.
    by rewrite (list_lookup_total_correct _ _ _ Hx),
               (list_lookup_total_correct _ _ _ Hy) in Ht.
  - eapply list_eq_same_length; [exact Hl2 | exact Hl2' |].
    intros i x y _ Hx Hy. specialize (Hp i). unfold partition_map_at in Hp. simpl in Hp.
    by rewrite (list_lookup_total_correct _ _ _ Hx),
               (list_lookup_total_correct _ _ _ Hy) in Hp.
Qed.

Lemma index_entry_unfold (s : State) (p t : Z) (ti : TabletInfo) :
  index_entry s (p, t) ti =
  match _get_txn_tablet_map s t !! (p, t) with
  | Some tablets_of_txn => tablets_of_txn !! ti
  | None => None
  end.
Proof. reflexivity. Qed.

(** ** rollback *)

Lemma rollback_txn_committed (s : State) (p t tid sh : Z) (uid : UniqueId)
    (li : TabletTxnInfo) :
  index_entry s (p, t) (mkTabletInfo tid sh uid) = Some li → is_Some (rowset li) →
  rollback_txn p t tid sh uid s = (OLAP_ERR_TRANSACTION_ALREADY_COMMITTED, s).
Proof.
  rewrite index_entry_unfold. intros Hentry [q Hq]. unfold rollback_txn.
  destruct (_get_txn_tablet_map s t !! (p, t)) as [inner|]; [|done].
  rewrite Hentry. destruct li as [l r c]. simpl in Hq. by subst r.
Qed.

(** What a commit that returned ok leaves for its key: an entry with a rowset. *)
Lemma commit_txn_ok_entry cfg env meta p t tid sh uid l rp rec s s' :
  shards_in_range s →
  commit_txn cfg env meta p t tid sh uid l rp rec s = Some (OK, s') →
  ∃ li, index_entry s' (p, t) (mkTabletInfo tid sh uid) = Some li ∧
        is_Some (rowset li).
Proof.
  intros Hr Hc. unfold commit_txn in Hc. destruct (_ || _); [done|].
  destruct rp as [q|]; [|done].
  simpl in Hc. destruct (deref s q) as [r|]; [|done]. simpl in Hc.
  destruct (commit_lookup _ _ _ _ _) as [[st0|]|] eqn:Hlook; simpl in Hc; try done.
  - injection Hc as -> <-. unfold commit_lookup in Hlook. unfold index_entry.
    destruct (find_load_info _ _ _) as [li|]; [|done].
    exists li. split; [done|]. destruct (rowset li); [eauto|done].
  - assert (Hsaved : ∃ st1 ms,
      (if rec then Some (OK, s)
       else RowsetMetaManager_save env meta uid (rowset_id r) (rowset_meta r) s)
      = Some (st1, set_metas s ms)).
    { destruct rec.
      - exists OK, (metas s). by destruct s.
      - destruct (RowsetMetaManager_save _ _ _ _ _ _) as [[st1 s1]|] eqn:Hs; [|done].
        destruct (save_effect _ _ _ _ _ _ _ _ Hs) as (ms & -> & _). eauto. }
    destruct Hsaved as (st1 & ms & Heq). rewrite Heq in Hc. simpl in Hc.
    case_decide; [|done]. injection Hc as <-.
    eexists. rewrite store_index_entry by done. rewrite decide_True by done.
    split; [done|]. simpl. eauto.
Qed.

(** X1.  Once commit has returned ok for (partition, transaction, tablet),
    rollback for the same key returns AlreadyCommitted and changes nothing. *)
Theorem rollback_after_commit_refused (cfg : Config) (env : Env) (meta : option MetaPtr)
    (partition_id : TPartitionId) (transaction_id : TTransactionId)
    (tablet_id0 : TTabletId) (schema_hash0 : SchemaHash) (tablet_uid0 : TabletUid)
    (load_id0 : PUniqueId) (rowset_ptr : RowsetSharedPtr) (is_recovery : bool)
    (s s1 : State) :
  reachable cfg s →
  commit_txn cfg env meta partition_id transaction_id tablet_id0 schema_hash0
    tablet_uid0 load_id0 rowset_ptr is_recovery s = Some (OK, s1) →
  rollback_txn partition_id transaction_id tablet_id0 schema_hash0 tablet_uid0 s1
  = (OLAP_ERR_TRANSACTION_ALREADY_COMMITTED, s1).
Proof.
  intros Hreach Hc.
  destruct (commit_txn_ok_entry _ _ _ _ _ _ _ _ _ _ _ _ _
              (wf_range s (reachable_wf cfg s Hreach)) Hc) as (li & Hli & Hrow).
  by eapply rollback_txn_committed.
Qed.

Lemma rollback_after_commit_refused_witness :
  rollback_txn 10 100 7 42 Ex.U1 Ex.committed
  = (OLAP_ERR_TRANSACTION_ALREADY_COMMITTED, Ex.committed).
Proof.
  apply (rollback_after_commit_refused Ex.cfg (Ex.at_time 5) (Some Ex.root) 10 100 7 42
           Ex.U1 Ex.L1 (Some Ex.r1) false Ex.prepared Ex.committed).
  - apply state_after_reachable, Ex_s0_reachable.
  - vm_compute. reflexivity.
Defined.

(** X2.  Where the index has no entry for (partition, transaction, tablet),
    rollback returns ok and leaves the whole state as it is: a second rollback
    is a no-op. *)
Theorem rollback_absent_is_noop (cfg : Config)
    (partition_id : TPartitionId) (transaction_id : TTransactionId)
    (tablet_id0 : TTabletId) (schema_hash0 : SchemaHash) (tablet_uid0 : TabletUid)
    (s : State) :
  reachable cfg s →
  index_entry s (partition_id, transaction_id)
    (mkTabletInfo tablet_id0 schema_hash0 tablet_uid0) = None →
  rollback_txn partition_id transaction_id tablet_id0 schema_hash0 tablet_uid0 s
  = (OK, s).
Proof.
  intros Hreach. pose proof (reachable_wf cfg s Hreach) as Hwf.
  rewrite index_entry_unfold. intros Hentry. unfold rollback_txn.
  destruct (_get_txn_tablet_map s transaction_id !! (partition_id, transaction_id))
    as [inner|] eqn:Hit; [|done].
  rewrite Hentry. f_equal. unfold erase_load_info.
  rewrite (delete_id _ _ Hentry).
  destruct (wf_tablet_shard s Hwf _ _ _ Hit) as [_ Hne].
  rewrite decide_False by done.
  rewrite (insert_id _ _ _ Hit). apply put_txn_tablet_map_id, Hwf.
Qed.

Lemma rollback_absent_is_noop_witness :
  rollback_txn 10 100 8 42 Ex2.U2 Ex.committed = (OK, Ex.committed).
Proof.
  apply (rollback_absent_is_noop Ex.cfg 10 100 8 42 Ex2.U2 Ex.committed).
  - apply Ex_committed_reachable.
  - vm_compute. reflexivity.
Defined.

Lemma get_partition_ids_lookup (s : State) (t p : Z) :
  index_wf s →
  (p ∈ default ∅ (_get_txn_partition_map s t !! t)
   ↔ is_Some (_get_txn_tablet_map s t !! (p, t))) ∧
  (∀ ps, _get_txn_partition_map s t !! t = Some ps → ps ≠ ∅).
Proof.
  intros Hwf. split.
  - apply (wf_partition s Hwf t p).
  - intros ps Hps. by destruct (wf_partition_shard s Hwf _ _ _ Hps).
Qed.

(** Undoing [store_load_info] of a new entry. *)
Lemma erase_after_store (p t : Z) (ti : TabletInfo) (li : TabletTxnInfo) (s : State) :
  index_wf s → index_entry s (p, t) ti = None →
  erase_load_info p t ti
    (<[ti := li]> (default ∅ (_get_txn_tablet_map s t !! (p, t))))
    (store_load_info p t ti li s) = s.
Proof.
  intros Hwf Hentry. pose proof (wf_range s Hwf) as Hr.
  rewrite index_entry_unfold in Hentry.
  set (old := default ∅ (_get_txn_tablet_map s t !! (p, t))).
  set (s1 := store_load_info p t ti li s).
  assert (Hr1 : shards_in_range s1) by by apply store_in_range.
  assert (Hsh : ∀ x, shard_of s1 x = shard_of s x)
    by (intros x; unfold shard_of, s1; by rewrite store_shard_size).
  assert (Hold : old !! ti = None).
  { subst old. by destruct (_get_txn_tablet_map s t !! (p, t)). }
  assert (Hdel : delete ti (<[ti := li]> old) = old) by by apply delete_insert_id.
  destruct (get_partition_ids_lookup s t p Hwf) as [Hpart Hne].
  assert (Hps1 : _get_txn_partition_map s1 t !! t
                 = Some (default ∅ (_get_txn_partition_map s t !! t) ∪ {[p]})).
  { unfold _get_txn_partition_map at 1. rewrite Hsh. unfold s1.
    rewrite store_partition_lookup by done. by rewrite decide_True. }
  destruct (erase_rest p t ti (<[ti := li]> old) s1) as (He1 & He2 & He3 & He4 & He5).
  apply state_ext.
  - done.
  - by apply erase_in_range.
  - rewrite He1. unfold s1. by rewrite store_shard_size.
  - unfold erase_load_info. case_decide.
    + by destruct (clear_rest t p
        (put_txn_tablet_map s1 t (delete (p, t) (_get_txn_tablet_map s1 t))))
        as (_ & _ & _ & _ & _ & ->).
    + unfold s1, store_load_info, _insert_txn_partition_map_unlocked.
      by destruct (_ !! t).
  - (* the tablet maps *)
    intros i. apply map_eq. intros key.
    rewrite erase_tablet_lookup by done. rewrite Hdel, Hsh.
    unfold s1. rewrite store_tablet_lookup by done.
    case_decide as Hc; [|done]. destruct Hc as [-> ->].
    fold (_get_txn_tablet_map s t). fold old.
    subst old. destruct (_get_txn_tablet_map s t !! (p, t)) as [inner|] eqn:Hit; simpl.
    * destruct (wf_tablet_shard s Hwf _ _ _ Hit) as [_ Hinner].
      by rewrite decide_False.
    * by rewrite decide_True.
  - (* the partition maps *)
    intros i. apply map_eq. intros t'.
    rewrite erase_partition_lookup by done. rewrite Hdel, Hsh, Hps1.
    destruct (decide (i = shard_of s t ∧ t' = t)) as [[-> ->]|Hn].
    + fold (_get_txn_partition_map s t).
      subst old.
      destruct (_get_txn_tablet_map s t !! (p, t)) as [inner|] eqn:Hit; simpl.
      * destruct (wf_tablet_shard s Hwf _ _ _ Hit) as [_ Hinner].
        rewrite decide_False by (intros (_ & _ & ?); done).
        unfold s1. rewrite store_partition_lookup by done.
        rewrite decide_True by done. fold (_get_txn_partition_map s t).
        assert (Hp : p ∈ default ∅ (_get_txn_partition_map s t !! t))
          by (apply Hpart; eauto).
        destruct (_get_txn_partition_map s t !! t) as [ps|]; simpl in *.
        -- f_equal. set_solver.
        -- set_solver.
      * rewrite decide_True by done.
        assert (Hp : p ∉ default ∅ (_get_txn_partition_map s t !! t)).
        { rewrite Hpart. by intros [? ?]. }
        unfold cleared.
        destruct (_get_txn_partition_map s t !! t) as [ps|] eqn:Hps; simpl in *.
        -- assert ((ps ∪ {[p]}) ∖ {[p]} = ps) as -> by set_solver.
           rewrite decide_False; [done|]. by apply Hne.
        -- rewrite decide_True; [done|]. set_solver.
    + rewrite decide_False by (intros (? & ? & _); by apply Hn).
      unfold s1. rewrite store_partition_lookup by done.
      by rewrite decide_False.
  - rewrite He2. apply store_rowsets.
  - rewrite He3. apply store_metas.
  - rewrite He4. unfold s1, store_load_info, _insert_txn_partition_map_unlocked.
    by destruct (_ !! t).
  - rewrite He5. unfold s1, store_load_info, _insert_txn_partition_map_unlocked.
    by destruct (_ !! t).
Qed.

(** X3.  A prepare that creates the entry, followed by rollback for the same
    key, brings back exactly the state before the prepare: tablet map,
    partition map and everything else. *)
Theorem prepare_then_rollback_restores (cfg : Config) (env : Env)
    (partition_id : TPartitionId) (transaction_id : TTransactionId)
    (tablet_id0 : TTabletId) (schema_hash0 : SchemaHash) (tablet_uid0 : TabletUid)
    (load_id0 : PUniqueId) (s s1 : State) :
  reachable cfg s →
  index_entry s (partition_id, transaction_id)
    (mkTabletInfo tablet_id0 schema_hash0 tablet_uid0) = None →
  prepare_txn cfg env partition_id transaction_id tablet_id0 schema_hash0
    tablet_uid0 load_id0 s = (OK, s1) →
  rollback_txn partition_id transaction_id tablet_id0 schema_hash0 tablet_uid0 s1
  = (OK, s).
Proof.
  intros Hreach Hentry Hprep. pose proof (reachable_wf cfg s Hreach) as Hwf.
  pose proof (wf_range s Hwf) as Hr.
  set (ti := mkTabletInfo tablet_id0 schema_hash0 tablet_uid0) in *.
  rewrite prepare_txn_unfold in Hprep. fold ti in Hprep.
  assert (Hfind : prepare_finds_committed s (partition_id, transaction_id) ti load_id0
                  = false).
  { unfold prepare_finds_committed. unfold index_entry in Hentry. by rewrite Hentry. }
  rewrite Hfind in Hprep.
  destruct (_ >? _); [done|]. injection Hprep as <-.
  set (li := mkTabletTxnInfo load_id0 None (UnixSeconds env)).
  unfold rollback_txn. fold ti.
  assert (Hit : _get_txn_tablet_map (store_load_info partition_id transaction_id ti li s)
                  transaction_id !! (partition_id, transaction_id)
                = Some (<[ti := li]>
                          (default ∅ (_get_txn_tablet_map s transaction_id
                                        !! (partition_id, transaction_id))))).
  { unfold _get_txn_tablet_map at 1.
    replace (shard_of (store_load_info partition_id transaction_id ti li s) transaction_id)
      with (shard_of s transaction_id)
      by (unfold shard_of; by rewrite store_shard_size).
    rewrite store_tablet_lookup by done. by rewrite decide_True. }
  rewrite Hit, lookup_insert_eq. simpl. f_equal.
  by apply erase_after_store.
Qed.

Lemma prepare_then_rollback_restores_witness :
  rollback_txn 10 100 7 42 Ex.U1 Ex.prepared = (OK, Ex.s0).
Proof.
  apply (prepare_then_rollback_restores Ex.cfg (Ex.at_time 0) 10 100 7 42 Ex.U1 Ex.L1
           Ex.s0 Ex.prepared).
  - apply Ex_s0_reachable.
  - vm_compute. reflexivity.
  - vm_compute. reflexivity.
Defined.

(** ** publish: the stages it can stop at *)

(** With a committed entry, a store and a put that succeeds, publish gets past
    the save; whatever status the delete-bitmap stage then yields, the entry
    has been erased, the version written and the meta stored. *)
Lemma publish_txn_past_save cfg env m p t tid sh uid v s li q r :
  shards_in_range s →
  index_entry s (p, t) (mkTabletInfo tid sh uid) = Some li →
  rowset li = Some q → deref s q = Some r → olap_meta_put env = OK →
  ∀ st s', publish_txn cfg env (Some m) p t tid sh uid v s = Some (st, s') →
    (∀ key ti, index_entry s' key ti =
               if decide (key = (p, t) ∧ ti = mkTabletInfo tid sh uid) then None
               else index_entry s key ti) ∧
    _txn_map_shard_size s' = _txn_map_shard_size s ∧
    rowsets s' = <[q := make_visible v r]> (rowsets s) ∧
    metas s' = <[m := <[(uid, rowset_id r) := rowset_meta (make_visible v r)]>
                        (metas s !!! m)]> (metas s) ∧
    unused_rowsets s' = unused_rowsets s.
Proof.
  intros Hr Hentry Hq Hderef Hput st s' Hp. unfold publish_txn in Hp.
  unfold index_entry in Hentry. simpl in Hentry. rewrite Hentry, Hq in Hp.
  simpl in Hp. rewrite Hderef in Hp. simpl in Hp.
  unfold RowsetMetaManager_save in Hp. rewrite decide_True in Hp by done.
  simpl in Hp.
  set (s1 := set_metas _ _) in Hp.
  assert (Hr1 : shards_in_range s1) by done.
  assert (Hit : ∃ inner, _get_txn_tablet_map s1 t !! (p, t) = Some inner).
  { unfold find_load_info in Hentry.
    change (_get_txn_tablet_map s1 t) with (_get_txn_tablet_map s t).
    destruct (_get_txn_tablet_map s t !! (p, t)); [eauto|done]. }
  destruct Hit as [inner Hit]. rewrite Hit in Hp.
  apply scan_delete_bitmap_effect in Hp as [ts ->].
  destruct (erase_rest p t (mkTabletInfo tid sh uid) inner s1)
    as (He1 & He2 & He3 & He4 & He5).
  repeat split.
  - intros key ti.
    change (index_entry (set_tablets ?a ts) key ti) with (index_entry a key ti).
    by rewrite erase_index_entry.
  - change (_txn_map_shard_size (set_tablets ?a ts)) with (_txn_map_shard_size a).
    by rewrite He1.
  - change (rowsets (set_tablets ?a ts)) with (rowsets a). by rewrite He2.
  - change (metas (set_tablets ?a ts)) with (metas a). by rewrite He3.
  - change (unused_rowsets (set_tablets ?a ts)) with (unused_rowsets a). by rewrite He5.
Qed.

(** X4.  Once the save has succeeded, publish has removed the entry, the
    committed rowset carries the published version and the store holds that
    rowset's meta with the published version under (tablet_uid, rowset_id),
    whatever status publish then returns: an error of the delete-bitmap stage
    (segments that do not load, a failing index read) comes back with the
    entry already gone. *)
Theorem publish_past_save_removes_entry (cfg : Config) (env : Env) (m : MetaPtr)
    (partition_id : TPartitionId) (transaction_id : TTransactionId)
    (tablet_id0 : TTabletId) (schema_hash0 : SchemaHash) (tablet_uid0 : TabletUid)
    (v : Version) (s s' : State) (load_info : TabletTxnInfo) (q : RowsetPtr)
    (st : Status) :
  reachable cfg s →
  index_entry s (partition_id, transaction_id)
    (mkTabletInfo tablet_id0 schema_hash0 tablet_uid0) = Some load_info →
  rowset load_info = Some q →
  olap_meta_put env = OK →
  publish_txn cfg env (Some m) partition_id transaction_id tablet_id0 schema_hash0
    tablet_uid0 v s = Some (st, s') →
  has_txn partition_id transaction_id tablet_id0 schema_hash0 tablet_uid0 s' = false ∧
  ∃ r, deref s q = Some r ∧
       deref s' q
       = Some (mkRowset (mkRowsetMetaPB (rowset_id r) v (pb_rest (rowset_meta r)))
                        (keys_type r) (load_segments r)) ∧
       rowset_meta_in_store s' m tablet_uid0 (rowset_id r)
       = Some (mkRowsetMetaPB (rowset_id r) v (pb_rest (rowset_meta r))).
Proof.
  intros Hreach Hentry Hq Hput Hpub.
  pose proof (reachable_wf cfg s Hreach) as Hwf.
  destruct (wf_committed s Hwf _ _ _ _ Hentry Hq) as (_ & _ & _ & [r Hr]).
  destruct (publish_txn_past_save cfg env m _ _ _ _ _ v s load_info q r
              (wf_range s Hwf) Hentry Hq Hr Hput st s' Hpub)
    as (Hidx & _ & Hrs & Hms & _).
  split.
  - change (bool_decide (is_Some (index_entry s' (partition_id, transaction_id)
              (mkTabletInfo tablet_id0 schema_hash0 tablet_uid0))) = false).
    rewrite Hidx, decide_True by done. apply bool_decide_eq_false. by intros [? ?].
  - exists r. split; [done|]. split.
    + unfold deref. rewrite Hrs. apply lookup_insert_eq.
    + unfold rowset_meta_in_store. rewrite Hms.
      rewrite lookup_total_insert_eq. apply lookup_insert_eq.
Qed.

Lemma publish_past_save_removes_entry_witness :
  has_txn 10 102 9 42 Ex2.U9 Ex2.unique_published = false ∧
  ∃ r, deref Ex2.unique_committed Ex2.r3 = Some r ∧
       deref Ex2.unique_published Ex2.r3
       = Some (mkRowset (mkRowsetMetaPB (rowset_id r) (5, 5) (pb_rest (rowset_meta r)))
                        (keys_type r) (load_segments r)) ∧
       rowset_meta_in_store Ex2.unique_published Ex.root Ex2.U9 (rowset_id r)
       = Some (mkRowsetMetaPB (rowset_id r) (5, 5) (pb_rest (rowset_meta r))).
Proof.
  apply (publish_past_save_removes_entry Ex2.cfg (Ex.at_time 9) Ex.root 10 102 9 42
           Ex2.U9 (5, 5) Ex2.unique_committed Ex2.unique_published
           (mkTabletTxnInfo Ex.L1 (Some Ex2.r3) 0) Ex2.r3 IOError).
  - apply state_after_reachable, reachable_new. by repeat split.
  - vm_compute. reflexivity.
  - reflexivity.
  - reflexivity.
  - vm_compute. reflexivity.
Defined.

Lemma publish_txn_save_failed cfg env m p t tid sh uid v s li q r :
  index_entry s (p, t) (mkTabletInfo tid sh uid) = Some li →
  rowset li = Some q → deref s q = Some r →
  olap_meta_put env ≠ OK →
  publish_txn cfg env (Some m) p t tid sh uid v s
  = Some (OLAP_ERR_ROWSET_SAVE_FAILED,
          set_rowsets s (<[q := make_visible v r]> (rowsets s))).
Proof.
  intros Hentry Hq Hderef Hput. unfold publish_txn.
  unfold index_entry in Hentry. simpl in Hentry. rewrite Hentry, Hq. simpl.
  rewrite Hderef. simpl. unfold RowsetMetaManager_save.
  rewrite decide_False by done. simpl. by rewrite decide_False.
Qed.

(** X5.  When the store's put fails, publish of a committed entry returns
    SaveFailed having changed one thing only: the shared rowset object now
    carries the version.  Tablet map, partition map, store, tablets and the
    list of unused rowsets are as before. *)
Theorem publish_save_failed_changes_rowset_only (cfg : Config) (env : Env) (m : MetaPtr)
    (partition_id : TPartitionId) (transaction_id : TTransactionId)
    (tablet_id0 : TTabletId) (schema_hash0 : SchemaHash) (tablet_uid0 : TabletUid)
    (v : Version) (s : State) (load_info : TabletTxnInfo) (q : RowsetPtr) (r : Rowset) :
  index_entry s (partition_id, transaction_id)
    (mkTabletInfo tablet_id0 schema_hash0 tablet_uid0) = Some load_info →
  rowset load_info = Some q → deref s q = Some r →
  olap_meta_put env ≠ OK →
  publish_txn cfg env (Some m) partition_id transaction_id tablet_id0 schema_hash0
    tablet_uid0 v s
  = Some (OLAP_ERR_ROWSET_SAVE_FAILED,
          set_rowsets s (<[q := make_visible v r]> (rowsets s))).
Proof. apply publish_txn_save_failed. Qed.

Lemma publish_save_failed_changes_rowset_only_witness :
  publish_txn Ex.cfg (Ex.put_fails 9) (Some Ex.root) 10 100 7 42 Ex.U1 (5, 5) Ex.committed
  = Some (OLAP_ERR_ROWSET_SAVE_FAILED,
          set_rowsets Ex.committed
            (<[Ex.r1 := make_visible (5, 5) Ex.R1]> (rowsets Ex.committed))).
Proof.
  apply (publish_save_failed_changes_rowset_only Ex.cfg (Ex.put_fails 9) Ex.root
           10 100 7 42 Ex.U1 (5, 5) Ex.committed
           (mkTabletTxnInfo Ex.L1 (Some Ex.r1) 5) Ex.r1 Ex.R1).
  - vm_compute. reflexivity.
  - reflexivity.
  - vm_compute. reflexivity.
  - discriminate.
Defined.

(** X6.  After a publish at a version that starts above 0 has failed with the
    put refused, delete_txn with a store handed in is turned down with
    AlreadyCommitted and changes nothing: the entry the failed publish left
    cannot be deleted that way. *)
Theorem delete_after_failed_publish_refused (cfg : Config) (env env' : Env)
    (m m' : MetaPtr) (partition_id : TPartitionId) (transaction_id : TTransactionId)
    (tablet_id0 : TTabletId) (schema_hash0 : SchemaHash) (tablet_uid0 : TabletUid)
    (v : Version) (s s1 : State) (load_info : TabletTxnInfo) (q : RowsetPtr) :
  reachable cfg s →
  index_entry s (partition_id, transaction_id)
    (mkTabletInfo tablet_id0 schema_hash0 tablet_uid0) = Some load_info →
  rowset load_info = Some q →
  olap_meta_put env ≠ OK → 0 < v.1 →
  publish_txn cfg env (Some m) partition_id transaction_id tablet_id0 schema_hash0
    tablet_uid0 v s = Some (OLAP_ERR_ROWSET_SAVE_FAILED, s1) →
  delete_txn cfg env' (Some m') partition_id transaction_id tablet_id0 schema_hash0
    tablet_uid0 s1 = Some (OLAP_ERR_TRANSACTION_ALREADY_COMMITTED, s1).
Proof.
  intros Hreach Hentry Hq Hput Hv Hpub.
  pose proof (reachable_wf cfg s Hreach) as Hwf.
  destruct (wf_committed s Hwf _ _ _ _ Hentry Hq) as (_ & _ & _ & [r Hr]).
  rewrite (publish_txn_save_failed cfg env m _ _ _ _ _ v s
             load_info q r Hentry Hq Hr Hput) in Hpub.
  injection Hpub as <-.
  unfold delete_txn.
  rewrite index_entry_unfold in Hentry.
  change (_get_txn_tablet_map (set_rowsets s ?h) transaction_id)
    with (_get_txn_tablet_map s transaction_id).
  destruct (_get_txn_tablet_map s transaction_id !! (partition_id, transaction_id))
    as [inner|]; [|done].
  rewrite Hentry, Hq. simpl. unfold deref. simpl. rewrite lookup_insert_eq. simpl.
  assert (Hgt : ((version (make_visible v r)).1 >? 0) = true)
    by (apply Z.gtb_gt; destruct v; simpl in *; lia).
  by rewrite Hgt.
Qed.

Lemma delete_after_failed_publish_refused_witness :
  delete_txn Ex.cfg (Ex.at_time 10) (Some Ex.root) 10 100 7 42 Ex.U1 Ex.publish_failed
  = Some (OLAP_ERR_TRANSACTION_ALREADY_COMMITTED, Ex.publish_failed).
Proof.
  apply (delete_after_failed_publish_refused Ex.cfg (Ex.put_fails 9) (Ex.at_time 10)
           Ex.root Ex.root 10 100 7 42 Ex.U1 (5, 5) Ex.committed Ex.publish_failed
           (mkTabletTxnInfo Ex.L1 (Some Ex.r1) 5) Ex.r1).
  - apply Ex_committed_reachable.
  - vm_compute. reflexivity.
  - reflexivity.
  - discriminate.
  - simpl. lia.
  - vm_compute. reflexivity.
Defined.

(** ** commit: failures, recovery mode, the first commit *)

(** X7.  A commit that returns anything but ok (RowsetInvalid, AlreadyExists,
    SaveFailed) has changed nothing: index, store and rowsets are as before. *)
Theorem commit_failure_changes_nothing (cfg : Config) (env : Env) (meta : option MetaPtr)
    (partition_id : TPartitionId) (transaction_id : TTransactionId)
    (tablet_id0 : TTabletId) (schema_hash0 : SchemaHash) (tablet_uid0 : TabletUid)
    (load_id0 : PUniqueId) (rowset_ptr : RowsetSharedPtr) (is_recovery : bool)
    (s s' : State) (st : Status) :
  commit_txn cfg env meta partition_id transaction_id tablet_id0 schema_hash0
    tablet_uid0 load_id0 rowset_ptr is_recovery s = Some (st, s') →
  st ≠ OK → s' = s.
Proof.
  unfold commit_txn. intros Hc Hst. destruct (_ || _); [done|].
  destruct rowset_ptr as [q|]; [|by injection Hc as _ <-].
  simpl in Hc. destruct (deref s q) as [r|]; [|done]. simpl in Hc.
  destruct (commit_lookup _ _ _ _ _) as [[st0|]|]; simpl in Hc; try done.
  { by injection Hc as _ <-. }
  destruct is_recovery; simpl in Hc.
  - by injection Hc as <- _.
  - destruct (RowsetMetaManager_save _ _ _ _ _ _) as [[st1 s1]|] eqn:Hs; [|done].
    simpl in Hc. destruct (save_effect _ _ _ _ _ _ _ _ Hs) as (ms & _ & Hsame).
    case_decide as Hok; injection Hc as <- <-; [done|]. by apply Hsame.
Qed.

Lemma commit_failure_changes_nothing_witness :
  Ex.prepared = Ex.prepared.
Proof.
  apply (commit_failure_changes_nothing Ex.cfg (Ex.put_fails 5) (Some Ex.root)
           10 100 7 42 Ex.U1 Ex.L1 (Some Ex.r1) false Ex.prepared Ex.prepared
           OLAP_ERR_ROWSET_SAVE_FAILED).
  - vm_compute. reflexivity.
  - discriminate.
Defined.

Lemma store_load_info_set_metas p t ti li s ms :
  set_metas (store_load_info p t ti li (set_metas s ms)) (metas s)
  = store_load_info p t ti li s.
Proof.
  unfold store_load_info, _insert_txn_partition_map_unlocked.
  change (_get_txn_partition_map (put_txn_tablet_map (set_metas s ms) t ?a) t)
    with (_get_txn_partition_map s t).
  change (_get_txn_partition_map (put_txn_tablet_map s t ?a) t)
    with (_get_txn_partition_map s t).
  by destruct (_get_txn_partition_map s t !! t).
Qed.

(** X8.  Recovery mode takes the same path as a normal commit except for the
    put: where a commit returns ok, the same commit with [is_recovery] set
    returns ok as well, with any store pointer (null included), and ends in
    the same state but for the store, which it leaves as it was. *)
Theorem commit_recovery_skips_only_the_put (cfg : Config) (env : Env)
    (meta meta' : option MetaPtr)
    (partition_id : TPartitionId) (transaction_id : TTransactionId)
    (tablet_id0 : TTabletId) (schema_hash0 : SchemaHash) (tablet_uid0 : TabletUid)
    (load_id0 : PUniqueId) (rowset_ptr : RowsetSharedPtr) (s s1 : State) :
  commit_txn cfg env meta partition_id transaction_id tablet_id0 schema_hash0
    tablet_uid0 load_id0 rowset_ptr false s = Some (OK, s1) →
  commit_txn cfg env meta' partition_id transaction_id tablet_id0 schema_hash0
    tablet_uid0 load_id0 rowset_ptr true s = Some (OK, set_metas s1 (metas s)).
Proof.
  unfold commit_txn. intros Hc. destruct (_ || _); [done|].
  destruct rowset_ptr as [q|]; [|done].
  simpl in *. destruct (deref s q) as [r|]; [|done]. simpl in *.
  destruct (commit_lookup _ _ _ _ _) as [[st0|]|]; simpl in *; try done.
  { injection Hc as -> <-. by destruct s. }
  destruct (RowsetMetaManager_save _ _ _ _ _ _) as [[st1 s2]|] eqn:Hs; [|done].
  simpl in Hc. destruct (save_effect _ _ _ _ _ _ _ _ Hs) as (ms & -> & _).
  case_decide; [|done]. injection Hc as <-.
  by rewrite store_load_info_set_metas.
Qed.

Lemma commit_recovery_skips_only_the_put_witness :
  commit_txn Ex.cfg (Ex.at_time 5) None 10 100 7 42 Ex.U1 Ex.L1 (Some Ex.r1) true
    Ex.prepared
  = Some (OK, set_metas Ex.committed (metas Ex.prepared)).
Proof.
  apply (commit_recovery_skips_only_the_put Ex.cfg (Ex.at_time 5) (Some Ex.root) None
           10 100 7 42 Ex.U1 Ex.L1 (Some Ex.r1) Ex.prepared Ex.committed).
  vm_compute. reflexivity.
Defined.

(** X9.  With ids of at least 1, a rowset, a store whose put succeeds and no
    committed entry under the key yet, commit returns ok; afterwards the entry
    holds the rowset, the store holds the rowset's meta under
    (tablet_uid, rowset_id), and the partition is listed for the transaction. *)
Theorem first_commit_persists (cfg : Config) (env : Env) (m : MetaPtr)
    (partition_id : TPartitionId) (transaction_id : TTransactionId)
    (tablet_id0 : TTabletId) (schema_hash0 : SchemaHash) (tablet_uid0 : TabletUid)
    (load_id0 : PUniqueId) (q : RowsetPtr) (r : Rowset) (s : State) :
  reachable cfg s →
  1 ≤ partition_id → 1 ≤ transaction_id → 1 ≤ tablet_id0 →
  deref s q = Some r → olap_meta_put env = OK →
  (∀ load_info,
     index_entry s (partition_id, transaction_id)
       (mkTabletInfo tablet_id0 schema_hash0 tablet_uid0) = Some load_info →
     rowset load_info = None) →
  ∃ s',
    commit_txn cfg env (Some m) partition_id transaction_id tablet_id0 schema_hash0
      tablet_uid0 load_id0 (Some q) false s = Some (OK, s') ∧
    index_entry s' (partition_id, transaction_id)
      (mkTabletInfo tablet_id0 schema_hash0 tablet_uid0)
    = Some (mkTabletTxnInfo load_id0 (Some q) (UnixSeconds env)) ∧
    rowset_meta_in_store s' m tablet_uid0 (rowset_id r) = Some (rowset_meta r) ∧
    partition_id ∈ get_partition_ids transaction_id s'.
Proof.
  intros Hreach Hp Ht Htid Hderef Hput Hnone.
  pose proof (reachable_wf cfg s Hreach) as Hwf. pose proof (wf_range s Hwf) as Hr.
  unfold commit_txn. rewrite commit_ids_ok by done. rewrite Hderef. simpl.
  assert (Hlook : commit_lookup s (partition_id, transaction_id)
                    (mkTabletInfo tablet_id0 schema_hash0 tablet_uid0) load_id0 r
                  = Some None).
  { unfold commit_lookup. unfold index_entry in Hnone.
    destruct (find_load_info _ _ _) as [li|]; [|done].
    by rewrite (Hnone li eq_refl). }
  rewrite Hlook. simpl. unfold RowsetMetaManager_save.
  rewrite decide_True by done. simpl.
  set (s1 := set_metas s _). set (li := mkTabletTxnInfo _ _ _).
  set (ti := mkTabletInfo _ _ _).
  assert (Hwf1 : index_wf (store_load_info partition_id transaction_id ti li s1)).
  { apply store_wf; [done | by apply set_metas_wf |].
    intros q' [= <-]. unfold deref in Hderef. simpl. rewrite Hderef. eauto. }
  eexists. split; [done|]. repeat split.
  - rewrite store_index_entry by done. by rewrite decide_True.
  - unfold rowset_meta_in_store. rewrite store_metas. subst s1. simpl.
    rewrite lookup_total_insert_eq. apply lookup_insert_eq.
  - apply (wf_partition _ Hwf1).
    assert (He : index_entry (store_load_info partition_id transaction_id ti li s1)
                   (partition_id, transaction_id) ti = Some li).
    { rewrite store_index_entry by done. by rewrite decide_True. }
    rewrite index_entry_unfold in He. destruct (_ !! (_, _)); [eauto|done].
Qed.

Lemma first_commit_persists_witness :
  ∃ s',
    commit_txn Ex.cfg (Ex.at_time 5) (Some Ex.root) 10 100 7 42 Ex.U1 Ex.L1
      (Some Ex.r1) false Ex.prepared = Some (OK, s') ∧
    index_entry s' (10, 100) Ex.T1 = Some (mkTabletTxnInfo Ex.L1 (Some Ex.r1) 5) ∧
    rowset_meta_in_store s' Ex.root Ex.U1 (rowset_id Ex.R1) = Some (rowset_meta Ex.R1) ∧
    10 ∈ get_partition_ids 100 s'.
Proof.
  apply (first_commit_persists Ex.cfg (Ex.at_time 5) Ex.root 10 100 7 42 Ex.U1 Ex.L1
           Ex.r1 Ex.R1 Ex.prepared).
  - apply state_after_reachable, Ex_s0_reachable.
  - lia.
  - lia.
  - lia.
  - vm_compute. reflexivity.
  - reflexivity.
  - intros li Hli. vm_compute in Hli. by injection Hli as <-.
Defined.

(** ** delete_txn *)

(** X10.  delete_txn on a committed entry whose rowset is not published
    (version start not above 0), with a store handed in: it returns ok, the
    entry is gone, the rowset is handed to the storage engine as unused once
    (in a production build), and the rowset's meta is out of the store if the
    store's remove succeeded; when the remove fails its status is dropped and
    the meta stays in the store although the entry is gone. *)
Theorem delete_committed_unpublished (cfg : Config) (env : Env) (m : MetaPtr)
    (partition_id : TPartitionId) (transaction_id : TTransactionId)
    (tablet_id0 : TTabletId) (schema_hash0 : SchemaHash) (tablet_uid0 : TabletUid)
    (s : State) (load_info : TabletTxnInfo) (q : RowsetPtr) (r : Rowset) :
  reachable cfg s →
  index_entry s (partition_id, transaction_id)
    (mkTabletInfo tablet_id0 schema_hash0 tablet_uid0) = Some load_info →
  rowset load_info = Some q → deref s q = Some r → (version r).1 ≤ 0 →
  ∃ s',
    delete_txn cfg env (Some m) partition_id transaction_id tablet_id0 schema_hash0
      tablet_uid0 s = Some (OK, s') ∧
    index_entry s' (partition_id, transaction_id)
      (mkTabletInfo tablet_id0 schema_hash0 tablet_uid0) = None ∧
    unused_rowsets s'
    = (if BE_TEST cfg then unused_rowsets s else unused_rowsets s ++ [q]) ∧
    rowsets s' = rowsets s ∧
    (olap_meta_remove env = OK →
     rowset_meta_in_store s' m tablet_uid0 (rowset_id r) = None) ∧
    (olap_meta_remove env ≠ OK → metas s' = metas s).
Proof.
  intros Hreach Hentry Hq Hderef Hver.
  pose proof (wf_range s (reachable_wf cfg s Hreach)) as Hr.
  unfold delete_txn. rewrite index_entry_unfold in Hentry.
  destruct (_get_txn_tablet_map s transaction_id !! (partition_id, transaction_id))
    as [inner|] eqn:Hit; [|done].
  rewrite Hentry, Hq. simpl. rewrite Hderef. simpl.
  assert (Hgt : ((version r).1 >? 0) = false) by (rewrite Z.gtb_ltb; by apply Z.ltb_ge).
  rewrite Hgt.
  set (s1 := add_unused_rowset cfg q _).
  assert (Hr1 : shards_in_range s1).
  { subst s1. unfold add_unused_rowset, RowsetMetaManager_remove.
    destruct (BE_TEST cfg); by case_decide. }
  assert (Hit1 : _get_txn_tablet_map s1 transaction_id !! (partition_id, transaction_id)
                 = Some inner).
  { subst s1. unfold add_unused_rowset, RowsetMetaManager_remove.
    destruct (BE_TEST cfg); by case_decide. }
  destruct (erase_rest partition_id transaction_id
              (mkTabletInfo tablet_id0 schema_hash0 tablet_uid0) inner s1)
    as (_ & He2 & He3 & _ & He5).
  eexists. split; [done|]. repeat split.
  - rewrite erase_index_entry by done. by rewrite decide_True.
  - rewrite He5. subst s1. unfold add_unused_rowset, RowsetMetaManager_remove.
    destruct (BE_TEST cfg); by case_decide.
  - rewrite He2. subst s1. unfold add_unused_rowset, RowsetMetaManager_remove.
    destruct (BE_TEST cfg); by case_decide.
  - intros Hrm. unfold rowset_meta_in_store. rewrite He3. subst s1.
    unfold add_unused_rowset, RowsetMetaManager_remove. rewrite decide_True by done.
    destruct (BE_TEST cfg); simpl;
      rewrite lookup_total_insert_eq; apply lookup_delete_eq.
  - intros Hrm. rewrite He3. subst s1.
    unfold add_unused_rowset, RowsetMetaManager_remove. rewrite decide_False by done.
    by destruct (BE_TEST cfg).
Qed.

Lemma delete_committed_unpublished_witness :
  ∃ s',
    delete_txn Ex.cfg (Ex.at_time 6) (Some Ex.root) 10 100 7 42 Ex.U1 Ex.committed
    = Some (OK, s') ∧
    index_entry s' (10, 100) Ex.T1 = None ∧
    unused_rowsets s'
    = (if BE_TEST Ex.cfg then unused_rowsets Ex.committed
       else unused_rowsets Ex.committed ++ [Ex.r1]) ∧
    rowsets s' = rowsets Ex.committed ∧
    (olap_meta_remove (Ex.at_time 6) = OK →
     rowset_meta_in_store s' Ex.root Ex.U1 (rowset_id Ex.R1) = None) ∧
    (olap_meta_remove (Ex.at_time 6) ≠ OK → metas s' = metas Ex.committed).
Proof.
  apply (delete_committed_unpublished Ex.cfg (Ex.at_time 6) Ex.root 10 100 7 42 Ex.U1
           Ex.committed (mkTabletTxnInfo Ex.L1 (Some Ex.r1) 5) Ex.r1 Ex.R1).
  - apply Ex_committed_reachable.
  - vm_compute. reflexivity.
  - reflexivity.
  - vm_compute. reflexivity.
  - simpl. lia.
Defined.

(** X11.  delete_txn without a store (a null [meta]) or on an entry that holds
    no rowset only erases the entry: it returns ok and leaves the store, the
    rowsets and the list of unused rowsets alone, also when the entry's rowset
    is already published. *)
Theorem delete_without_store_only_erases (cfg : Config) (env : Env)
    (meta : option MetaPtr)
    (partition_id : TPartitionId) (transaction_id : TTransactionId)
    (tablet_id0 : TTabletId) (schema_hash0 : SchemaHash) (tablet_uid0 : TabletUid)
    (s : State) (load_info : TabletTxnInfo) :
  reachable cfg s →
  index_entry s (partition_id, transaction_id)
    (mkTabletInfo tablet_id0 schema_hash0 tablet_uid0) = Some load_info →
  meta = None ∨ rowset load_info = None →
  ∃ s',
    delete_txn cfg env meta partition_id transaction_id tablet_id0 schema_hash0
      tablet_uid0 s = Some (OK, s') ∧
    index_entry s' (partition_id, transaction_id)
      (mkTabletInfo tablet_id0 schema_hash0 tablet_uid0) = None ∧
    metas s' = metas s ∧ rowsets s' = rowsets s ∧
    unused_rowsets s' = unused_rowsets s.
Proof.
  intros Hreach Hentry Hcase.
  pose proof (wf_range s (reachable_wf cfg s Hreach)) as Hr.
  unfold delete_txn. rewrite index_entry_unfold in Hentry.
  destruct (_get_txn_tablet_map s transaction_id !! (partition_id, transaction_id))
    as [inner|] eqn:Hit; [|done].
  rewrite Hentry.
  destruct (erase_rest partition_id transaction_id
              (mkTabletInfo tablet_id0 schema_hash0 tablet_uid0) inner s)
    as (_ & He2 & He3 & _ & He5).
  assert (Hres : match rowset load_info, meta with
                 | Some q, Some m =>
                     r ← deref s q;
                     if (version r).1 >? 0
                     then Some (OLAP_ERR_TRANSACTION_ALREADY_COMMITTED, s)
                     else Some (OK,
                            erase_load_info partition_id transaction_id
                              (mkTabletInfo tablet_id0 schema_hash0 tablet_uid0) inner
                              (add_unused_rowset cfg q
                                 (RowsetMetaManager_remove env m tablet_uid0
                                    (rowset_id r) s)))
                 | _, _ =>
                     Some (OK,
                       erase_load_info partition_id transaction_id
                         (mkTabletInfo tablet_id0 schema_hash0 tablet_uid0) inner s)
                 end
                 = Some (OK,
                     erase_load_info partition_id transaction_id
                       (mkTabletInfo tablet_id0 schema_hash0 tablet_uid0) inner s)).
  { destruct Hcase as [-> | ->]; [by destruct (rowset load_info) | done]. }
  rewrite Hres. eexists. split; [done|]. repeat split; try done.
  rewrite erase_index_entry by done. by rewrite decide_True.
Qed.

Lemma delete_without_store_only_erases_witness :
  ∃ s',
    delete_txn Ex.cfg (Ex.at_time 10) None 10 100 7 42 Ex.U1 Ex.publish_failed
    = Some (OK, s') ∧
    index_entry s' (10, 100) Ex.T1 = None ∧
    metas s' = metas Ex.publish_failed ∧ rowsets s' = rowsets Ex.publish_failed ∧
    unused_rowsets s' = unused_rowsets Ex.publish_failed.
Proof.
  apply (delete_without_store_only_erases Ex.cfg (Ex.at_time 10) None 10 100 7 42 Ex.U1
           Ex.publish_failed (mkTabletTxnInfo Ex.L1 (Some Ex.r1) 5)).
  - apply state_after_reachable, Ex_committed_reachable.
  - vm_compute. reflexivity.
  - by left.
Defined.

(** ** A call touches only the entry it names *)

Lemma index_entry_same_maps (s s' : State) key ti :
  _txn_map_shard_size s' = _txn_map_shard_size s →
  _txn_tablet_maps s' = _txn_tablet_maps s →
  index_entry s' key ti = index_entry s key ti.
Proof.
  destruct s, s'. simpl. intros -> ->. reflexivity.
Qed.

Lemma erase_load_info_frame p t ti inner s key' ti' :
  shards_in_range s → _get_txn_tablet_map s t !! (p, t) = Some inner →
  (key', ti') ≠ ((p, t), ti) →
  index_entry (erase_load_info p t ti inner s) key' ti' = index_entry s key' ti'.
Proof.
  intros Hr Hit Hne. rewrite erase_index_entry by done.
  rewrite decide_False; [done|]. intros [-> ->]. done.
Qed.

Lemma store_load_info_frame p t ti li s key' ti' :
  shards_in_range s → (key', ti') ≠ ((p, t), ti) →
  index_entry (store_load_info p t ti li s) key' ti' = index_entry s key' ti'.
Proof.
  intros Hr Hne. rewrite store_index_entry by done.
  rewrite decide_False; [done|]. intros [-> ->]. done.
Qed.

Lemma call_frame cfg env c s st s' key ti key' ti' :
  shards_in_range s →
  call cfg env c s = Some (st, s') → call_target c = Some (key, ti) →
  (key', ti') ≠ (key, ti) →
  index_entry s' key' ti' = index_entry s key' ti'.
Proof.
  intros Hr Hc Ht Hne. destruct c; simpl in Hc, Ht; [..|done]; injection Ht as <- <-.
  - (* prepare *)
    injection Hc as Hc. rewrite prepare_txn_unfold in Hc.
    destruct (prepare_finds_committed _ _ _ _); [by injection Hc as _ <-|].
    destruct (_ >? _); injection Hc as _ <-; [done|].
    by apply store_load_info_frame.
  - (* commit *)
    unfold commit_txn in Hc. destruct (_ || _); [done|].
    destruct rowset_ptr as [q|]; [|by injection Hc as _ <-].
    simpl in Hc. destruct (deref s q) as [r|]; [|done]. simpl in Hc.
    destruct (commit_lookup _ _ _ _ _) as [[st0|]|]; simpl in Hc; try done.
    { by injection Hc as _ <-. }
    assert (Hsaved : ∃ st1 ms,
      (if is_recovery then Some (OK, s)
       else RowsetMetaManager_save env meta tablet_uid0 (rowset_id r) (rowset_meta r) s)
      = Some (st1, set_metas s ms)).
    { destruct is_recovery.
      - exists OK, (metas s). by destruct s.
      - destruct (RowsetMetaManager_save _ _ _ _ _ _) as [[st1 s1]|] eqn:Hs; [|done].
        destruct (save_effect _ _ _ _ _ _ _ _ Hs) as (ms & -> & _). eauto. }
    destruct Hsaved as (st1 & ms & Heq). rewrite Heq in Hc. simpl in Hc.
    case_decide; injection Hc as _ <-; [|done].
    by rewrite store_load_info_frame.
  - (* publish *)
    unfold publish_txn in Hc.
    destruct (find_load_info _ _ _) as [li|]; [|by injection Hc as _ <-].
    destruct (rowset li) as [q|]; [|by injection Hc as _ <-].
    simpl in Hc. destruct (deref s q) as [r|]; [|done]. simpl in Hc.
    destruct (RowsetMetaManager_save _ _ _ _ _ _) as [[st1 s1]|] eqn:Hs; [|done].
    simpl in Hc. destruct (save_effect _ _ _ _ _ _ _ _ Hs) as (ms & -> & _).
    case_decide; [|by injection Hc as _ <-].
    apply scan_delete_bitmap_effect in Hc as [ts ->].
    change (index_entry (set_tablets ?a ts) key' ti') with (index_entry a key' ti').
    destruct (_ !! (partition_id, transaction_id)) as [inner|] eqn:Hit; [|done].
    by rewrite erase_load_info_frame.
  - (* rollback *)
    injection Hc as Hc. unfold rollback_txn in Hc.
    destruct (_ !! (partition_id, transaction_id)) as [inner|] eqn:Hit;
      [|by injection Hc as _ <-].
    destruct (inner !! _) as [[l [q|] c]|]; injection Hc as _ <-; try done;
      by rewrite erase_load_info_frame.
  - (* delete *)
    unfold delete_txn in Hc.
    destruct (_ !! (partition_id, transaction_id)) as [inner|] eqn:Hit;
      [|by injection Hc as _ <-].
    destruct (inner !! _) as [li|].
    + destruct (rowset li) as [q|], meta as [m|];
        try (injection Hc as _ <-; by rewrite erase_load_info_frame).
      simpl in Hc. destruct (deref s q) as [r|]; [|done]. simpl in Hc.
      destruct (_ >? 0); injection Hc as _ <-; [done|].
      rewrite erase_load_info_frame; try done.
      * apply index_entry_same_maps;
          unfold add_unused_rowset, RowsetMetaManager_remove;
          destruct (BE_TEST cfg); by case_decide.
      * unfold add_unused_rowset, RowsetMetaManager_remove;
          destruct (BE_TEST cfg); by case_decide.
      * unfold add_unused_rowset, RowsetMetaManager_remove;
          destruct (BE_TEST cfg); by case_decide.
    + injection Hc as _ <-. by rewrite erase_load_info_frame.
Qed.

(** X12.  prepare, commit, publish, rollback and delete_txn for one
    (partition, transaction, tablet) leave every other entry of the index as
    it was, whatever they return: other tablets of the same transaction and
    other transactions, in the same shard or another, are untouched. *)
Theorem call_leaves_other_entries (cfg : Config) (env : Env) (c : Call)
    (s s' : State) (st : Status) (key key' : Z * Z) (tablet_info tablet_info' : TabletInfo) :
  reachable cfg s →
  call cfg env c s = Some (st, s') →
  call_target c = Some (key, tablet_info) →
  (key', tablet_info') ≠ (key, tablet_info) →
  index_entry s' key' tablet_info' = index_entry s key' tablet_info'.
Proof.
  intros Hreach. apply call_frame, (wf_range s (reachable_wf cfg s Hreach)).
Qed.

Lemma call_leaves_other_entries_witness :
  index_entry (state_after Ex2.cfg [(Ex.at_time 9, Ex.publish1)] Ex2.two_tablets)
    (10, 100) Ex2.T2
  = index_entry Ex2.two_tablets (10, 100) Ex2.T2.
Proof.
  apply (call_leaves_other_entries Ex2.cfg (Ex.at_time 9) Ex.publish1 Ex2.two_tablets
           (state_after Ex2.cfg [(Ex.at_time 9, Ex.publish1)] Ex2.two_tablets) OK
           (10, 100) (10, 100) Ex.T1 Ex2.T2).
  - apply state_after_reachable, reachable_new. by repeat split.
  - vm_compute. reflexivity.
  - reflexivity.
  - discriminate.
Defined.

(** ** force rollback *)

Lemma force_rollback_at_rest env meta ti i key s s' :
  force_rollback_at env meta ti i key s = Some s' →
  _txn_map_shard_size s' = _txn_map_shard_size s ∧ rowsets s' = rowsets s ∧
  tablets s' = tablets s ∧ unused_rowsets s' = unused_rowsets s.
Proof.
  unfold force_rollback_at. intros Hf.
  destruct (tablet_map_at s i !! key) as [inner|]; [|by injection Hf as <-].
  destruct (force_rollback_remove env meta ti inner s) as [s1|] eqn:Hrm; [|done].
  destruct (force_rollback_remove_effect _ _ _ _ _ _ Hrm) as [ms ->].
  simpl in Hf. case_decide; injection Hf as <-; [|done]. simpl.
  destruct (clear_rest key.2 key.1 (set_metas s ms)) as (-> & -> & _ & -> & -> & _).
  done.
Qed.

(** What a reader of the store finds after the remove of one round: the
    removed key is gone when the entry held a rowset, a store was handed in
    and the remove succeeded; no other key changes. *)
Lemma force_rollback_remove_store env meta ti inner s s1 m' uid' rid' :
  force_rollback_remove env meta ti inner s = Some s1 →
  rowset_meta_in_store s1 m' uid' rid' = None ∨
  rowset_meta_in_store s1 m' uid' rid' = rowset_meta_in_store s m' uid' rid'.
Proof.
  unfold force_rollback_remove. intros Hf.
  destruct (inner !! ti) as [li|]; [|injection Hf as <-; by right].
  destruct (rowset li) as [q|], meta as [m|]; try (injection Hf as <-; by right).
  destruct (deref s q) as [r|]; [|done]. simpl in Hf. injection Hf as <-.
  unfold RowsetMetaManager_remove, rowset_meta_in_store.
  case_decide; [|by right]. simpl.
  destruct (decide (m = m')) as [->|Hm].
  - rewrite lookup_total_insert_eq.
    destruct (decide ((tablet_uid ti, rowset_id r) = (uid', rid'))) as [->|Hk].
    + left. apply lookup_delete_eq.
    + right. by rewrite lookup_delete_ne.
  - right. by rewrite lookup_total_insert_ne.
Qed.

Lemma force_rollback_at_store env meta ti i key s s' m' uid' rid' :
  force_rollback_at env meta ti i key s = Some s' →
  rowset_meta_in_store s' m' uid' rid' = None ∨
  rowset_meta_in_store s' m' uid' rid' = rowset_meta_in_store s m' uid' rid'.
Proof.
  unfold force_rollback_at. intros Hf.
  destruct (tablet_map_at s i !! key) as [inner|]; [|injection Hf as <-; by right].
  destruct (force_rollback_remove env meta ti inner s) as [s1|] eqn:Hrm; [|done].
  pose proof (force_rollback_remove_store _ _ _ _ _ _ m' uid' rid' Hrm) as Hst.
  simpl in Hf.
  assert (Hm : metas s' = metas s1).
  { case_decide; injection Hf as <-; [|done]. simpl.
    by destruct (clear_rest key.2 key.1 s1) as (_ & _ & -> & _). }
  unfold rowset_meta_in_store in *. by rewrite Hm.
Qed.

Lemma force_rollback_at_index env meta ti i key s s' :
  index_wf s → force_rollback_at env meta ti i key s = Some s' →
  ∀ key' ti',
    index_entry s' key' ti' =
    if decide (key' = key ∧ ti' = ti ∧ i = shard_of s key.2) then None
    else index_entry s key' ti'.
Proof.
  intros Hwf Hf key' ti'.
  destruct (tablet_map_at s i !! key) as [inner|] eqn:Hit.
  - destruct (wf_tablet_shard s Hwf i key inner Hit) as [-> _].
    rewrite (force_rollback_at_erase _ _ _ _ inner) in Hf by done.
    destruct (force_rollback_remove env meta ti inner s) as [s1|] eqn:Hrm; [|done].
    destruct (force_rollback_remove_effect _ _ _ _ _ _ Hrm) as [ms ->].
    injection Hf as <-. destruct key as [k1 k2].
    rewrite erase_index_entry; [| apply (set_metas_wf s ms Hwf) | done].
    change (index_entry (set_metas s ms) key' ti') with (index_entry s key' ti').
    cbn [fst snd].
    destruct (decide (key' = (k1, k2) ∧ ti' = ti)) as [[-> ->]|Hn].
    + rewrite decide_True; [done|]. by repeat split.
    + rewrite decide_False; [done|]. intros (? & ? & _). by apply Hn.
  - unfold force_rollback_at in Hf. rewrite Hit in Hf. injection Hf as <-.
    case_decide as Hc; [|done]. destruct Hc as (-> & -> & ->).
    unfold index_entry, find_load_info, _get_txn_tablet_map. by rewrite Hit.
Qed.

(** In a well-formed index a round of the loop goes through: the rowset of a
    committed entry is there to be asked for its id. *)
Lemma force_rollback_at_returns env meta ti i key s :
  index_wf s → is_Some (force_rollback_at env meta ti i key s).
Proof.
  intros Hwf. unfold force_rollback_at.
  destruct (tablet_map_at s i !! key) as [inner|] eqn:Hit; [|eauto].
  destruct (wf_tablet_shard s Hwf i key inner Hit) as [-> _].
  assert (Hrm : is_Some (force_rollback_remove env meta ti inner s)).
  { unfold force_rollback_remove.
    destruct (inner !! ti) as [li|] eqn:Hli; [|eauto].
    destruct (rowset li) as [q|] eqn:Hq, meta as [m|]; eauto.
    assert (He : index_entry s key ti = Some li).
    { unfold index_entry, find_load_info, _get_txn_tablet_map. by rewrite Hit. }
    destruct (wf_committed s Hwf _ _ _ _ He Hq) as (_ & _ & _ & [r Hr]).
    unfold deref. rewrite Hr. simpl. eauto. }
  destruct Hrm as [s1 ->]. simpl. case_decide; eauto.
Qed.

Lemma force_rollback_keys_spec env meta ti i keys s :
  index_wf s →
  ∃ s',
    force_rollback_keys env meta ti i keys s = Some s' ∧ index_wf s' ∧
    _txn_map_shard_size s' = _txn_map_shard_size s ∧ rowsets s' = rowsets s ∧
    tablets s' = tablets s ∧ unused_rowsets s' = unused_rowsets s ∧
    (∀ m' uid' rid',
       rowset_meta_in_store s' m' uid' rid' = None ∨
       rowset_meta_in_store s' m' uid' rid' = rowset_meta_in_store s m' uid' rid') ∧
    (∀ key' ti',
       index_entry s' key' ti' =
       if decide (key' ∈ keys ∧ ti' = ti ∧ i = shard_of s key'.2) then None
       else index_entry s key' ti').
Proof.
  revert s. induction keys as [|key keys IH]; intros s Hwf.
  - exists s. do 6 (split; [done|]). split; [intros; by right|].
    intros key' ti'. case_decide as Hc; [|done]. destruct Hc as [Hin _].
    by apply not_elem_of_nil in Hin.
  - destruct (force_rollback_at_returns env meta ti i key s Hwf) as [s1 H1].
    pose proof (force_rollback_at_wf _ _ _ _ _ _ _ H1 Hwf) as Hwf1.
    destruct (force_rollback_at_rest _ _ _ _ _ _ _ H1) as (Hn1 & Hh1 & Ht1 & Hu1).
    destruct (IH s1 Hwf1) as (s' & Hrun & Hwf' & Hn & Hh & Hts & Hu & Hst & Hidx).
    exists s'. simpl. rewrite H1. simpl. split; [done|]. split; [done|].
    split; [congruence|]. split; [congruence|]. split; [congruence|].
    split; [congruence|]. split.
    + intros m' uid' rid'.
      destruct (Hst m' uid' rid') as [-> | ->]; [by left|].
      apply (force_rollback_at_store _ _ _ _ _ _ _ m' uid' rid' H1).
    + intros key' ti'. rewrite Hidx.
      rewrite (force_rollback_at_index _ _ _ _ _ _ _ Hwf H1).
      assert (Hsh : shard_of s1 key'.2 = shard_of s key'.2)
        by (unfold shard_of; by rewrite Hn1).
      rewrite Hsh.
      destruct (decide (key' ∈ keys ∧ ti' = ti ∧ i = shard_of s key'.2))
        as [(Hin & -> & ->)|Hn2].
      * rewrite decide_True; [done|]. split; [|done]. apply elem_of_cons. by right.
      * destruct (decide (key' = key ∧ ti' = ti ∧ i = shard_of s key.2))
          as [(-> & -> & ->)|Hn3].
        -- rewrite decide_True; [done|]. split; [|done]. apply elem_of_cons. by left.
        -- rewrite decide_False; [done|]. intros (Hin & -> & ->).
           apply elem_of_cons in Hin as [->|Hin]; [by apply Hn3 | by apply Hn2].
Qed.

Lemma elem_of_map_keys {A} (m : gmap (Z * Z) A) (key : Z * Z) :
  key ∈ (map_to_list m).*1 ↔ is_Some (m !! key).
Proof.
  rewrite list_elem_of_fmap. split.
  - intros ([k x] & -> & Hin). apply elem_of_map_to_list in Hin. simpl. eauto.
  - intros [x Hx]. exists (key, x). split; [done|]. by apply elem_of_map_to_list.
Qed.

Lemma store_stays_shrunk (s1 s' : State) m uid rid :
  (rowset_meta_in_store s' m uid rid = None ∨
   rowset_meta_in_store s' m uid rid = rowset_meta_in_store s1 m uid rid) →
  rowset_meta_in_store s1 m uid rid = None →
  rowset_meta_in_store s' m uid rid = None.
Proof. intros [?|?]; congruence. Qed.

Lemma force_rollback_at_removes env m ti key s s' li q r :
  index_wf s →
  force_rollback_at env (Some m) ti (shard_of s key.2) key s = Some s' →
  index_entry s key ti = Some li → rowset li = Some q → deref s q = Some r →
  olap_meta_remove env = OK →
  rowset_meta_in_store s' m (tablet_uid ti) (rowset_id r) = None.
Proof.
  intros Hwf Hf Hentry Hq Hderef Hrm.
  unfold index_entry, find_load_info, _get_txn_tablet_map in Hentry.
  destruct (tablet_map_at s (shard_of s key.2) !! key) as [inner|] eqn:Hit; [|done].
  rewrite (force_rollback_at_erase _ _ _ _ inner) in Hf by done.
  unfold force_rollback_remove in Hf. rewrite Hentry, Hq, Hderef in Hf. simpl in Hf.
  injection Hf as <-. unfold rowset_meta_in_store.
  destruct (erase_rest key.1 key.2 ti inner
              (RowsetMetaManager_remove env m (tablet_uid ti) (rowset_id r) s))
    as (_ & _ & -> & _).
  unfold RowsetMetaManager_remove. rewrite decide_True by done. simpl.
  rewrite lookup_total_insert_eq. apply lookup_delete_eq.
Qed.

Lemma force_rollback_keys_removes env m ti keys s s' key li q r :
  index_wf s →
  force_rollback_keys env (Some m) ti (shard_of s key.2) keys s = Some s' →
  key ∈ keys →
  index_entry s key ti = Some li → rowset li = Some q → deref s q = Some r →
  olap_meta_remove env = OK →
  rowset_meta_in_store s' m (tablet_uid ti) (rowset_id r) = None.
Proof.
  revert s. induction keys as [|k keys IH]; intros s Hwf Hf Hin Hentry Hq Hderef Hrm.
  { by apply not_elem_of_nil in Hin. }
  simpl in Hf.
  destruct (force_rollback_at env (Some m) ti (shard_of s key.2) k s) as [s1|] eqn:H1;
    [|done].
  simpl in Hf.
  pose proof (force_rollback_at_wf _ _ _ _ _ _ _ H1 Hwf) as Hwf1.
  destruct (force_rollback_at_rest _ _ _ _ _ _ _ H1) as (Hn1 & Hh1 & _).
  assert (Hsh : shard_of s1 key.2 = shard_of s key.2)
    by (unfold shard_of; by rewrite Hn1).
  destruct (force_rollback_keys_spec env (Some m) ti (shard_of s key.2) keys s1 Hwf1)
    as (s'' & Hrun & _ & _ & _ & _ & _ & Hst & _).
  rewrite Hrun in Hf. injection Hf as <-.
  destruct (decide (key = k)) as [<-|Hne].
  - apply (store_stays_shrunk s1 s'' _ _ _ (Hst _ _ _)).
    exact (force_rollback_at_removes env m ti key s s1 li q r Hwf H1 Hentry Hq Hderef Hrm).
  - apply elem_of_cons in Hin as [?|Hin]; [done|].
    eapply (IH s1); try done.
    + by rewrite Hsh.
    + rewrite (force_rollback_at_index _ _ _ _ _ _ _ Hwf H1).
      rewrite decide_False; [done|]. by intros (? & _).
    + unfold deref. by rewrite Hh1.
Qed.

Lemma force_rollback_shards_spec env meta ti shards s :
  index_wf s →
  ∃ s',
    force_rollback_shards env meta ti shards s = Some s' ∧ index_wf s' ∧
    _txn_map_shard_size s' = _txn_map_shard_size s ∧ rowsets s' = rowsets s ∧
    tablets s' = tablets s ∧ unused_rowsets s' = unused_rowsets s ∧
    (∀ m' uid' rid',
       rowset_meta_in_store s' m' uid' rid' = None ∨
       rowset_meta_in_store s' m' uid' rid' = rowset_meta_in_store s m' uid' rid') ∧
    (∀ key' ti',
       index_entry s' key' ti' =
       if decide (ti' = ti ∧ shard_of s key'.2 ∈ shards) then None
       else index_entry s key' ti').
Proof.
  revert s. induction shards as [|i shards IH]; intros s Hwf.
  - exists s. do 6 (split; [done|]). split; [intros; by right|].
    intros key' ti'. case_decide as Hc; [|done]. destruct Hc as [_ Hin].
    by apply not_elem_of_nil in Hin.
  - destruct (force_rollback_keys_spec env meta ti i
                (map_to_list (tablet_map_at s i)).*1 s Hwf)
      as (s1 & H1 & Hwf1 & Hn1 & Hh1 & Ht1 & Hu1 & Hst1 & Hidx1).
    destruct (IH s1 Hwf1) as (s' & Hrun & Hwf' & Hn & Hh & Hts & Hu & Hst & Hidx).
    exists s'. simpl. rewrite H1. simpl. split; [done|]. split; [done|].
    split; [congruence|]. split; [congruence|]. split; [congruence|].
    split; [congruence|]. split.
    + intros m' uid' rid'.
      destruct (Hst m' uid' rid') as [-> | ->]; [by left|]. apply Hst1.
    + intros key' ti'. rewrite Hidx, Hidx1.
      assert (Hsh : shard_of s1 key'.2 = shard_of s key'.2)
        by (unfold shard_of; by rewrite Hn1).
      rewrite Hsh.
      destruct (decide (ti' = ti ∧ shard_of s key'.2 ∈ shards)) as [[-> Hin]|Hn2].
      * rewrite decide_True; [done|]. split; [done|]. apply elem_of_cons. by right.
      * destruct (decide (ti' = ti ∧ shard_of s key'.2 = i)) as [[-> <-]|Hn3].
        -- rewrite (decide_True (P := _ ∧ _ ∈ _ :: _));
             [|split; [done|]; apply elem_of_cons; by left].
           case_decide as Hc; [done|].
           unfold index_entry, find_load_info, _get_txn_tablet_map.
           destruct (tablet_map_at s (shard_of s key'.2) !! key') as [inner|] eqn:Hit;
             [|done].
           exfalso. apply Hc. split; [|done]. apply elem_of_map_keys. eauto.
        -- rewrite (decide_False (P := _ ∈ _ ∧ _)) by (intros (_ & ? & ?); by apply Hn3).
           rewrite decide_False; [done|]. intros [-> Hin].
           apply elem_of_cons in Hin as [?|?]; [by apply Hn3 | by apply Hn2].
Qed.

Lemma force_rollback_shards_removes env m ti shards s s' key li q r :
  index_wf s →
  force_rollback_shards env (Some m) ti shards s = Some s' →
  shard_of s key.2 ∈ shards →
  index_entry s key ti = Some li → rowset li = Some q → deref s q = Some r →
  olap_meta_remove env = OK →
  rowset_meta_in_store s' m (tablet_uid ti) (rowset_id r) = None.
Proof.
  revert s. induction shards as [|i shards IH]; intros s Hwf Hf Hin Hentry Hq Hderef Hrm.
  { by apply not_elem_of_nil in Hin. }
  simpl in Hf.
  destruct (force_rollback_keys_spec env (Some m) ti i
              (map_to_list (tablet_map_at s i)).*1 s Hwf)
    as (s1 & H1 & Hwf1 & Hn1 & Hh1 & _ & _ & _ & Hidx1).
  rewrite H1 in Hf. simpl in Hf.
  destruct (force_rollback_shards_spec env (Some m) ti shards s1 Hwf1)
    as (s'' & Hrun & _ & _ & _ & _ & _ & Hst & _).
  rewrite Hrun in Hf. injection Hf as <-.
  assert (Hsh : shard_of s1 key.2 = shard_of s key.2)
    by (unfold shard_of; by rewrite Hn1).
  destruct (decide (shard_of s key.2 = i)) as [<-|Hne].
  - apply (store_stays_shrunk s1 s'' _ _ _ (Hst _ _ _)).
    apply (force_rollback_keys_removes env m ti _ s s1 key li q r Hwf H1); try done.
    apply elem_of_map_keys.
    unfold index_entry, find_load_info, _get_txn_tablet_map in Hentry.
    destruct (tablet_map_at s (shard_of s key.2) !! key); [eauto|done].
  - apply elem_of_cons in Hin as [?|Hin]; [done|].
    eapply (IH s1); try done.
    + by rewrite Hsh.
    + rewrite Hidx1. rewrite decide_False; [done|]. by intros (_ & _ & ?).
    + unfold deref. by rewrite Hh1.
Qed.

(** X13.  force_rollback_tablet_related_txns goes through on every state a
    run can reach and leaves no entry for the tablet under any TxnKey in any
    shard; entries of all other tablets, the rowset objects and the list of
    unused rowsets are as before. *)
Theorem force_rollback_clears_tablet (cfg : Config) (env : Env) (meta : option MetaPtr)
    (tablet_id0 : TTabletId) (schema_hash0 : SchemaHash) (tablet_uid0 : TabletUid)
    (s : State) :
  reachable cfg s →
  ∃ s',
    force_rollback_tablet_related_txns env meta tablet_id0 schema_hash0 tablet_uid0 s
    = Some s' ∧
    (∀ key tablet_info,
       index_entry s' key tablet_info =
       if decide (tablet_info = mkTabletInfo tablet_id0 schema_hash0 tablet_uid0)
       then None else index_entry s key tablet_info) ∧
    rowsets s' = rowsets s ∧ unused_rowsets s' = unused_rowsets s.
Proof.
  intros Hreach. pose proof (reachable_wf cfg s Hreach) as Hwf.
  unfold force_rollback_tablet_related_txns.
  destruct (force_rollback_shards_spec env meta
              (mkTabletInfo tablet_id0 schema_hash0 tablet_uid0)
              (seq 0 (Z.to_nat (_txn_map_shard_size s))) s Hwf)
    as (s' & Hrun & _ & _ & Hh & _ & Hu & _ & Hidx).
  exists s'. split; [done|]. split; [|done].
  intros key ti. rewrite Hidx.
  destruct (decide (ti = mkTabletInfo tablet_id0 schema_hash0 tablet_uid0)) as [->|Hne].
  - rewrite decide_True; [done|]. split; [done|].
    apply elem_of_seq. pose proof (shard_of_lt s key.2 (wf_range s Hwf)) as Hlt.
    destruct (wf_range s Hwf) as (_ & Hlen & _). lia.
  - rewrite decide_False; [done|]. by intros [? _].
Qed.

Lemma force_rollback_clears_tablet_witness :
  ∃ s',
    force_rollback_tablet_related_txns (Ex.at_time 9) (Some Ex.root) 7 42 Ex.U1
      Ex2.two_tablets = Some s' ∧
    (∀ key tablet_info,
       index_entry s' key tablet_info =
       if decide (tablet_info = mkTabletInfo 7 42 Ex.U1)
       then None else index_entry Ex2.two_tablets key tablet_info) ∧
    rowsets s' = rowsets Ex2.two_tablets ∧
    unused_rowsets s' = unused_rowsets Ex2.two_tablets.
Proof.
  apply (force_rollback_clears_tablet Ex2.cfg (Ex.at_time 9) (Some Ex.root) 7 42 Ex.U1
           Ex2.two_tablets).
  apply state_after_reachable, reachable_new. by repeat split.
Defined.

(** X14.  With a store handed in and its remove succeeding, force rollback
    takes the meta of every rowset committed for the tablet out of the store,
    under (tablet_uid, rowset_id), whether or not the rowset is published; and
    it never adds to a store: every key of every store is afterwards absent or
    holds what it held. *)
Theorem force_rollback_removes_metas (cfg : Config) (env : Env) (m : MetaPtr)
    (tablet_id0 : TTabletId) (schema_hash0 : SchemaHash) (tablet_uid0 : TabletUid)
    (s s' : State) :
  reachable cfg s →
  olap_meta_remove env = OK →
  force_rollback_tablet_related_txns env (Some m) tablet_id0 schema_hash0 tablet_uid0 s
  = Some s' →
  (∀ key load_info q r,
     index_entry s key (mkTabletInfo tablet_id0 schema_hash0 tablet_uid0)
     = Some load_info →
     rowset load_info = Some q → deref s q = Some r →
     rowset_meta_in_store s' m tablet_uid0 (rowset_id r) = None) ∧
  (∀ m' uid' rid',
     rowset_meta_in_store s' m' uid' rid' = None ∨
     rowset_meta_in_store s' m' uid' rid' = rowset_meta_in_store s m' uid' rid').
Proof.
  intros Hreach Hrm Hf. pose proof (reachable_wf cfg s Hreach) as Hwf.
  unfold force_rollback_tablet_related_txns in Hf. split.
  - intros key li q r Hentry Hq Hderef.
    change tablet_uid0
      with (tablet_uid (mkTabletInfo tablet_id0 schema_hash0 tablet_uid0)).
    eapply force_rollback_shards_removes; try done.
    apply elem_of_seq. pose proof (shard_of_lt s key.2 (wf_range s Hwf)) as Hlt.
    destruct (wf_range s Hwf) as (_ & Hlen & _). lia.
  - destruct (force_rollback_shards_spec env (Some m)
                (mkTabletInfo tablet_id0 schema_hash0 tablet_uid0)
                (seq 0 (Z.to_nat (_txn_map_shard_size s))) s Hwf)
      as (s'' & Hrun & _ & _ & _ & _ & _ & Hst & _).
    rewrite Hrun in Hf. by injection Hf as <-.
Qed.

Lemma force_rollback_removes_metas_witness :
  (∀ key load_info q r,
     index_entry Ex2.two_tablets key (mkTabletInfo 7 42 Ex.U1) = Some load_info →
     rowset load_info = Some q → deref Ex2.two_tablets q = Some r →
     rowset_meta_in_store
       (state_after Ex2.cfg [(Ex.at_time 9, ForceRollback (Some Ex.root) 7 42 Ex.U1)]
          Ex2.two_tablets)
       Ex.root Ex.U1 (rowset_id r) = None) ∧
  (∀ m' uid' rid',
     rowset_meta_in_store
       (state_after Ex2.cfg [(Ex.at_time 9, ForceRollback (Some Ex.root) 7 42 Ex.U1)]
          Ex2.two_tablets) m' uid' rid' = None ∨
     rowset_meta_in_store
       (state_after Ex2.cfg [(Ex.at_time 9, ForceRollback (Some Ex.root) 7 42 Ex.U1)]
          Ex2.two_tablets) m' uid' rid'
     = rowset_meta_in_store Ex2.two_tablets m' uid' rid').
Proof.
  apply (force_rollback_removes_metas Ex2.cfg (Ex.at_time 9) Ex.root 7 42 Ex.U1
           Ex2.two_tablets).
  - apply state_after_reachable, reachable_new. by repeat split.
  - reflexivity.
  - vm_compute. reflexivity.
Defined.

(** ** The walks over all shards *)

Lemma foldl_nested {A B C} (g : C → B → C) (h : A → list B) (l : list A) (acc : C) :
  foldl (λ acc x, foldl g acc (h x)) acc l = foldl g acc (l ≫= h).
Proof.
  revert acc. induction l as [|x l IH]; intros acc; [done|].
  simpl. by rewrite foldl_app, IH.
Qed.

Lemma foldl_tagged {K B C} (g : K → C → B → C) (k : K) (l : list B) (acc : C) :
  foldl (g k) acc l = foldl (λ acc x, g x.1 acc x.2) acc ((λ e, (k, e)) <$> l).
Proof.
  revert acc. induction l as [|x l IH]; intros acc; [done|]. simpl. by rewrite IH.
Qed.

Lemma elem_of_tablet_map_entries (s : State) key inner :
  index_wf s →
  (key, inner) ∈ tablet_map_entries s ↔ _get_txn_tablet_map s key.2 !! key = Some inner.
Proof.
  intros Hwf. unfold tablet_map_entries. rewrite list_elem_of_bind. split.
  - intros (i & Hin & Hi). apply elem_of_map_to_list in Hin.
    destruct (wf_tablet_shard s Hwf i key inner Hin) as [-> _]. done.
  - intros Hit. exists (shard_of s key.2). split.
    + by apply elem_of_map_to_list.
    + apply elem_of_seq. pose proof (shard_of_lt s key.2 (wf_range s Hwf)) as Hlt.
      destruct (wf_range s Hwf) as (_ & Hlen & _). lia.
Qed.

Lemma elem_of_index_entries (s : State) key ti li :
  index_wf s →
  (key, (ti, li)) ∈ index_entries s ↔ index_entry s key ti = Some li.
Proof.
  intros Hwf. unfold index_entries. rewrite list_elem_of_bind. split.
  - intros ([key' inner] & Hin & Hit). simpl in Hin.
    apply list_elem_of_fmap in Hin as ([ti' li'] & [= -> -> ->] & Hin).
    apply elem_of_map_to_list in Hin.
    apply elem_of_tablet_map_entries in Hit; [|done].
    unfold index_entry, find_load_info. simpl in *. by rewrite Hit.
  - unfold index_entry, find_load_info. intros Hentry.
    destruct (_get_txn_tablet_map s key.2 !! key) as [inner|] eqn:Hit; [|done].
    exists (key, inner). split.
    + simpl. apply list_elem_of_fmap. exists (ti, li). split; [done|].
      by apply elem_of_map_to_list.
    + by apply elem_of_tablet_map_entries.
Qed.

Lemma get_tablet_related_txns_flat tid sh uid p0 ids0 s :
  get_tablet_related_txns tid sh uid (Some p0) (Some ids0) s =
  let out := foldl (related_txns_visit (mkTabletInfo tid sh uid)) (p0, ids0)
                   (tablet_map_entries s) in
  (Some out.1, Some out.2).
Proof.
  unfold get_tablet_related_txns, tablet_map_entries. simpl.
  by rewrite (foldl_nested (related_txns_visit (mkTabletInfo tid sh uid))
                           (λ i, map_to_list (tablet_map_at s i))).
Qed.

Lemma related_txns_visit_spec ti l p0 ids0 :
  let out := foldl (related_txns_visit ti) (p0, ids0) l in
  (∀ t, t ∈ out.2 ↔ t ∈ ids0 ∨ ∃ it, it ∈ l ∧ is_Some (it.2 !! ti) ∧ it.1.2 = t) ∧
  ((out.1 = p0 ∧ ∀ it, it ∈ l → it.2 !! ti = None) ∨
   (∃ it, it ∈ l ∧ is_Some (it.2 !! ti) ∧ out.1 = it.1.1)).
Proof.
  induction l as [|x l IH] using rev_ind; simpl.
  - split.
    + intros t. split; [by left|]. intros [?|(it & Hin & _)]; [done|].
      by apply not_elem_of_nil in Hin.
    + left. split; [done|]. intros it Hin. by apply not_elem_of_nil in Hin.
  - rewrite foldl_app. simpl. simpl in IH. destruct IH as [IHids IHp].
    set (out := foldl (related_txns_visit ti) (p0, ids0) l) in *.
    unfold related_txns_visit at 1 2 3.
    destruct (decide (is_Some (x.2 !! ti))) as [Hx|Hx]; simpl.
    + split.
      * intros t. rewrite elem_of_union, elem_of_singleton, IHids. split.
        -- intros [->|[?|(it & Hin & ? & ?)]].
           ++ right. exists x. split; [|done]. apply elem_of_app. right.
              by apply list_elem_of_singleton.
           ++ by left.
           ++ right. exists it. split; [|done]. apply elem_of_app. by left.
        -- intros [?|(it & Hin & His & <-)]; [right; by left|].
           apply elem_of_app in Hin as [Hin|Hin].
           ++ right. right. eauto.
           ++ apply list_elem_of_singleton in Hin as ->. by left.
      * right. exists x. split; [|done]. apply elem_of_app. right.
        by apply list_elem_of_singleton.
    + split.
      * intros t. rewrite IHids. split.
        -- intros [?|(it & Hin & ? & ?)]; [by left|].
           right. exists it. split; [|done]. apply elem_of_app. by left.
        -- intros [?|(it & Hin & His & <-)]; [by left|].
           apply elem_of_app in Hin as [Hin|Hin]; [right; eauto|].
           apply list_elem_of_singleton in Hin as ->. done.
      * destruct IHp as [[Hp Hnone]|(it & Hin & His & Hp)].
        -- left. split; [done|]. intros it Hin.
           apply elem_of_app in Hin as [Hin|Hin]; [by apply Hnone|].
           apply list_elem_of_singleton in Hin as ->.
           destruct (x.2 !! ti) eqn:E; [|done]. exfalso. apply Hx. eauto.
        -- right. exists it. split; [|done]. apply elem_of_app. by left.
Qed.

(** X15.  get_tablet_related_txns adds to the caller's set exactly the
    transactions under which the tablet has an entry, in whichever shard; the
    partition it reports is that of one such entry, and the caller's value
    stays when there is none.  With a null out-parameter it returns at once
    and nothing behind either pointer changes. *)
Theorem get_tablet_related_txns_spec (cfg : Config) (tablet_id0 : TTabletId)
    (schema_hash0 : SchemaHash) (tablet_uid0 : TabletUid) (p0 : Z) (ids0 : gset Z)
    (s : State) :
  reachable cfg s →
  ∃ p ids,
    get_tablet_related_txns tablet_id0 schema_hash0 tablet_uid0 (Some p0) (Some ids0) s
    = (Some p, Some ids) ∧
    (∀ t, t ∈ ids ↔
          t ∈ ids0 ∨ ∃ p', has_txn p' t tablet_id0 schema_hash0 tablet_uid0 s = true) ∧
    ((p = p0 ∧ ∀ p' t, has_txn p' t tablet_id0 schema_hash0 tablet_uid0 s = false) ∨
     (∃ t, has_txn p t tablet_id0 schema_hash0 tablet_uid0 s = true)) ∧
    (∀ (partition_id : option Z) (transaction_ids : option (gset Z)),
       partition_id = None ∨ transaction_ids = None →
       get_tablet_related_txns tablet_id0 schema_hash0 tablet_uid0 partition_id
         transaction_ids s = (partition_id, transaction_ids)).
Proof.
  intros Hreach. pose proof (reachable_wf cfg s Hreach) as Hwf.
  assert (Hnull : ∀ (partition_id : option Z) (transaction_ids : option (gset Z)),
             partition_id = None ∨ transaction_ids = None →
             get_tablet_related_txns tablet_id0 schema_hash0 tablet_uid0 partition_id
               transaction_ids s = (partition_id, transaction_ids)).
  { intros [po|] [io|] [Hn|Hn]; done. }
  rewrite get_tablet_related_txns_flat. cbv zeta.
  set (ti := mkTabletInfo tablet_id0 schema_hash0 tablet_uid0).
  destruct (related_txns_visit_spec ti (tablet_map_entries s) p0 ids0) as [Hids Hp].
  cbv zeta in Hids, Hp.
  set (out := foldl (related_txns_visit ti) (p0, ids0) (tablet_map_entries s)) in *.
  assert (Hhas : ∀ p' t, has_txn p' t tablet_id0 schema_hash0 tablet_uid0 s = true
                         ↔ ∃ inner, ((p', t), inner) ∈ tablet_map_entries s
                                    ∧ is_Some (inner !! ti)).
  { intros p' t. unfold has_txn. rewrite bool_decide_eq_true. fold ti.
    unfold find_load_info. split.
    - intros His. destruct (_get_txn_tablet_map s t !! (p', t)) as [inner|] eqn:Hit.
      + exists inner. split; [|done]. by apply elem_of_tablet_map_entries.
      + by destruct His.
    - intros (inner & Hin & His). apply elem_of_tablet_map_entries in Hin; [|done].
      simpl in Hin. by rewrite Hin. }
  exists out.1, out.2. split; [done|]. split; [|split; [|exact Hnull]].
  - intros t. rewrite Hids. split.
    + intros [?|([[p' t'] inner] & Hin & His & <-)]; [by left|].
      right. exists p'. apply Hhas. eauto.
    + intros [?|[p' Hp']]; [by left|]. apply Hhas in Hp' as (inner & Hin & His).
      right. by exists ((p', t), inner).
  - destruct Hp as [[Hp0 Hnone]|([[p' t'] inner] & Hin & His & Hp1)].
    + left. split; [done|]. intros p' t. apply not_true_iff_false.
      rewrite Hhas. intros (inner & Hin & His).
      specialize (Hnone _ Hin). simpl in Hnone. rewrite Hnone in His. by destruct His.
    + right. exists t'. apply Hhas. simpl in Hp1. rewrite Hp1. eauto.
Qed.

Lemma get_tablet_related_txns_spec_witness :
  ∃ p ids,
    get_tablet_related_txns 7 42 Ex.U1 (Some 0) (Some ∅) Ex2.two_tablets
    = (Some p, Some ids) ∧
    (∀ t, t ∈ ids ↔ t ∈ (∅ : gset Z) ∨ ∃ p', has_txn p' t 7 42 Ex.U1 Ex2.two_tablets = true) ∧
    ((p = 0 ∧ ∀ p' t, has_txn p' t 7 42 Ex.U1 Ex2.two_tablets = false) ∨
     (∃ t, has_txn p t 7 42 Ex.U1 Ex2.two_tablets = true)) ∧
    (∀ (partition_id : option Z) (transaction_ids : option (gset Z)),
       partition_id = None ∨ transaction_ids = None →
       get_tablet_related_txns 7 42 Ex.U1 partition_id transaction_ids Ex2.two_tablets
       = (partition_id, transaction_ids)).
Proof.
  apply (get_tablet_related_txns_spec Ex2.cfg 7 42 Ex.U1 0 ∅ Ex2.two_tablets).
  apply state_after_reachable, reachable_new. by repeat split.
Defined.

Lemma foldl_ext {A B} (f g : A → B → A) (l : list B) (a : A) :
  (∀ a x, f a x = g a x) → foldl f a l = foldl g a l.
Proof.
  intros Hfg. revert a. induction l as [|x l IH]; intros a; [done|].
  simpl. by rewrite Hfg, IH.
Qed.

(** A walk over shards, keys and tablets is a walk over [index_entries]. *)
Lemma walk_index_entries {C} (g : Z * Z → C → TabletInfo * TabletTxnInfo → C)
    (acc : C) (s : State) :
  foldl (λ acc i,
           foldl (λ acc (it : (Z * Z) * gmap TabletInfo TabletTxnInfo),
                    foldl (g it.1) acc (map_to_list it.2))
                 acc (map_to_list (tablet_map_at s i)))
        acc (seq 0 (Z.to_nat (_txn_map_shard_size s)))
  = foldl (λ acc x, g x.1 acc x.2) acc (index_entries s).
Proof.
  unfold index_entries, tablet_map_entries.
  rewrite <- (foldl_nested (λ acc x, g x.1 acc x.2)
    (λ it : (Z * Z) * gmap TabletInfo TabletTxnInfo,
       (λ e, (it.1, e)) <$> map_to_list it.2)).
  rewrite <- (foldl_nested _ (λ i, map_to_list (tablet_map_at s i))).
  apply foldl_ext. intros a i. apply foldl_ext. intros a' it.
  apply foldl_tagged.
Qed.

Lemma related_tablets_visit_spec (l : list ((Z * Z) * (TabletInfo * TabletTxnInfo)))
    (init : gset TabletInfo) (ti : TabletInfo) :
  ti ∈ foldl (λ acc (x : (Z * Z) * (TabletInfo * TabletTxnInfo)), {[x.2.1]} ∪ acc) init l
  ↔ ti ∈ init ∨ ∃ x, x ∈ l ∧ x.2.1 = ti.
Proof.
  induction l as [|x l IH] using rev_ind; simpl.
  - split; [by left|]. intros [?|(x & Hin & _)]; [done|].
    by apply not_elem_of_nil in Hin.
  - rewrite foldl_app. simpl. rewrite elem_of_union, elem_of_singleton, IH. split.
    + intros [->|[?|(y & Hin & ?)]].
      * right. exists x. split; [|done]. apply elem_of_app. right.
        by apply list_elem_of_singleton.
      * by left.
      * right. exists y. split; [|done]. apply elem_of_app. by left.
    + intros [?|(y & Hin & <-)]; [right; by left|].
      apply elem_of_app in Hin as [Hin|Hin]; [right; right; eauto|].
      apply list_elem_of_singleton in Hin as ->. by left.
Qed.

(** X16.  get_all_related_tablets adds to the caller's set exactly the tablets
    that have an entry under some TxnKey, in whichever shard. *)
Theorem get_all_related_tablets_spec (cfg : Config) (tablet_infos : gset TabletInfo)
    (s : State) (tablet_info : TabletInfo) :
  reachable cfg s →
  tablet_info ∈ get_all_related_tablets tablet_infos s ↔
  tablet_info ∈ tablet_infos ∨ ∃ key, is_Some (index_entry s key tablet_info).
Proof.
  intros Hreach. pose proof (reachable_wf cfg s Hreach) as Hwf.
  unfold get_all_related_tablets.
  rewrite (walk_index_entries
             (λ (_ : Z * Z) acc (e : TabletInfo * TabletTxnInfo), {[e.1]} ∪ acc)).
  rewrite related_tablets_visit_spec. split.
  - intros [?|([key [ti li]] & Hin & <-)]; [by left|].
    right. exists key. apply elem_of_index_entries in Hin; [|done]. simpl. eauto.
  - intros [?|(key & li & Hli)]; [by left|].
    right. exists (key, (tablet_info, li)). split; [|done].
    by apply elem_of_index_entries.
Qed.

Lemma get_all_related_tablets_spec_witness :
  Ex2.T2 ∈ get_all_related_tablets ∅ Ex2.two_tablets ↔
  Ex2.T2 ∈ (∅ : gset TabletInfo) ∨ ∃ key, is_Some (index_entry Ex2.two_tablets key Ex2.T2).
Proof.
  apply (get_all_related_tablets_spec Ex2.cfg ∅ Ex2.two_tablets Ex2.T2).
  apply state_after_reachable, reachable_new. by repeat split.
Defined.

Lemma expire_visit_spec cfg now (l : list ((Z * Z) * (TabletInfo * TabletTxnInfo)))
    (init : gmap TabletInfo (list Z)) (ti : TabletInfo) (t : Z) :
  t ∈ default [] (foldl (λ acc x, expire_visit cfg now x.1.2 acc x.2) init l !! ti)
  ↔ t ∈ default [] (init !! ti) ∨
    ∃ x, x ∈ l ∧ x.2.1 = ti ∧ x.1.2 = t ∧
         pending_data_expire_time_sec cfg ≤ now - creation_time x.2.2.
Proof.
  induction l as [|x l IH] using rev_ind; simpl.
  - split; [by left|]. intros [?|(x & Hin & _)]; [done|].
    by apply not_elem_of_nil in Hin.
  - rewrite foldl_app. simpl.
    set (acc := foldl (λ acc x, expire_visit cfg now x.1.2 acc x.2) init l) in *.
    unfold expire_visit at 1. simpl.
    destruct (Z.geb_spec (now - creation_time x.2.2) (pending_data_expire_time_sec cfg))
      as [Hge|Hlt].
    + destruct (decide (x.2.1 = ti)) as [Hti|Hti].
      * rewrite Hti, lookup_insert_eq. simpl. rewrite elem_of_app, IH,
          list_elem_of_singleton. split.
        -- intros [[?|(y & Hin & ?)]| ->].
           ++ by left.
           ++ right. exists y. split; [|done]. apply elem_of_app. by left.
           ++ right. exists x. split; [apply elem_of_app; right;
                by apply list_elem_of_singleton|]. repeat split; [done|lia].
        -- intros [?|(y & Hin & Hy1 & Hy2 & Hy3)]; [left; by left|].
           apply elem_of_app in Hin as [Hin|Hin]; [left; right; eauto|].
           apply list_elem_of_singleton in Hin as ->. by right.
      * rewrite lookup_insert_ne by done. rewrite IH. split.
        -- intros [?|(y & Hin & ?)]; [by left|].
           right. exists y. split; [|done]. apply elem_of_app. by left.
        -- intros [?|(y & Hin & Hy1 & Hy2 & Hy3)]; [by left|].
           apply elem_of_app in Hin as [Hin|Hin]; [right; eauto|].
           apply list_elem_of_singleton in Hin as ->. done.
    + rewrite IH. split.
      * intros [?|(y & Hin & ?)]; [by left|].
        right. exists y. split; [|done]. apply elem_of_app. by left.
      * intros [?|(y & Hin & Hy1 & Hy2 & Hy3)]; [by left|].
        apply elem_of_app in Hin as [Hin|Hin]; [right; eauto|].
        apply list_elem_of_singleton in Hin as ->. lia.
Qed.

(** X17.  build_expire_txn_map lists a transaction under a tablet exactly when
    it was listed there on entry or the tablet has an entry under that
    transaction whose age, now minus creation time, is at least the
    configured pending_data_expire_time_sec. *)
Theorem build_expire_txn_map_spec (cfg : Config) (env : Env)
    (expire_txn_map : gmap TabletInfo (list Z)) (s : State)
    (tablet_info : TabletInfo) (transaction_id : Z) :
  reachable cfg s →
  transaction_id ∈ default [] (build_expire_txn_map cfg env expire_txn_map s !! tablet_info)
  ↔ transaction_id ∈ default [] (expire_txn_map !! tablet_info) ∨
    ∃ partition_id load_info,
      index_entry s (partition_id, transaction_id) tablet_info = Some load_info ∧
      pending_data_expire_time_sec cfg ≤ UnixSeconds env - creation_time load_info.
Proof.
  intros Hreach. pose proof (reachable_wf cfg s Hreach) as Hwf.
  unfold build_expire_txn_map. cbv zeta.
  rewrite (walk_index_entries
             (λ (key : Z * Z) acc e, expire_visit cfg (UnixSeconds env) key.2 acc e)).
  rewrite expire_visit_spec. split.
  - intros [?|([[p t] [ti li]] & Hin & Hti & Ht & Hage)]; [by left|].
    simpl in *. subst. right. exists p, li. split; [|done].
    by apply elem_of_index_entries.
  - intros [?|(p & li & Hli & Hage)]; [by left|].
    right. exists ((p, transaction_id), (tablet_info, li)). split; [|done].
    by apply elem_of_index_entries.
Qed.

Lemma build_expire_txn_map_spec_witness :
  100 ∈ default [] (build_expire_txn_map Ex2.cfg (Ex.at_time 11) ∅ Ex2.two_tablets !! Ex2.T2)
  ↔ 100 ∈ default [] ((∅ : gmap TabletInfo (list Z)) !! Ex2.T2) ∨
    ∃ partition_id load_info,
      index_entry Ex2.two_tablets (partition_id, 100) Ex2.T2 = Some load_info ∧
      pending_data_expire_time_sec Ex2.cfg
        ≤ UnixSeconds (Ex.at_time 11) - creation_time load_info.
Proof.
  apply (build_expire_txn_map_spec Ex2.cfg (Ex.at_time 11) ∅ Ex2.two_tablets Ex2.T2 100).
  apply state_after_reachable, reachable_new. by repeat split.
Defined.

(** ** What every reachable index looks like *)

(** X18.  In every state a run can reach, each TxnKey is stored in the shard
    picked by its transaction id and maps to a non-empty set of tablets, each
    transaction of a partition map is stored in its shard and maps to a
    non-empty set of partitions, and both arrays keep the length the
    constructor gave them. *)
Theorem reachable_maps_are_tidy (cfg : Config) (s : State) :
  reachable cfg s →
  (length (_txn_tablet_maps s) = Z.to_nat (_txn_map_shard_size s) ∧
   length (_txn_partition_maps s) = Z.to_nat (_txn_map_shard_size s)) ∧
  (∀ i m key tablets_of_txn,
     _txn_tablet_maps s !! i = Some m → m !! key = Some tablets_of_txn →
     i = shard_of s key.2 ∧ tablets_of_txn ≠ ∅) ∧
  (∀ i m t ps,
     _txn_partition_maps s !! i = Some m → m !! t = Some ps →
     i = shard_of s t ∧ ps ≠ ∅).
Proof.
  intros Hreach. pose proof (reachable_wf cfg s Hreach) as Hwf.
  split; [by destruct (wf_range s Hwf) as (_ & ? & ?)|]. split.
  - intros i m key inner Hm Hkey. apply (wf_tablet_shard s Hwf).
    unfold tablet_map_at. by rewrite (list_lookup_total_correct _ _ _ Hm).
  - intros i m t ps Hm Ht. apply (wf_partition_shard s Hwf).
    unfold partition_map_at. by rewrite (list_lookup_total_correct _ _ _ Hm).
Qed.

Lemma reachable_maps_are_tidy_witness :
  (length (_txn_tablet_maps Ex2.two_tablets)
   = Z.to_nat (_txn_map_shard_size Ex2.two_tablets) ∧
   length (_txn_partition_maps Ex2.two_tablets)
   = Z.to_nat (_txn_map_shard_size Ex2.two_tablets)) ∧
  (∀ i m key tablets_of_txn,
     _txn_tablet_maps Ex2.two_tablets !! i = Some m → m !! key = Some tablets_of_txn →
     i = shard_of Ex2.two_tablets key.2 ∧ tablets_of_txn ≠ ∅) ∧
  (∀ i m t ps,
     _txn_partition_maps Ex2.two_tablets !! i = Some m → m !! t = Some ps →
     i = shard_of Ex2.two_tablets t ∧ ps ≠ ∅).
Proof.
  apply (reachable_maps_are_tidy Ex2.cfg Ex2.two_tablets).
  apply state_after_reachable, reachable_new. by repeat split.
Defined.

(** X19.  In every state a run can reach, an entry that holds a rowset sits
    under a partition id, a transaction id and a tablet id of at least 1 (only
    commit stores a rowset, and it ends the process on smaller ids), and its
    rowset pointer has its object. *)
Theorem committed_entries_have_valid_ids (cfg : Config) (s : State)
    (partition_id : TPartitionId) (transaction_id : TTransactionId)
    (tablet_info : TabletInfo) (load_info : TabletTxnInfo) (q : RowsetPtr) :
  reachable cfg s →
  index_entry s (partition_id, transaction_id) tablet_info = Some load_info →
  rowset load_info = Some q →
  1 ≤ partition_id ∧ 1 ≤ transaction_id ∧ 1 ≤ tablet_id tablet_info ∧
  is_Some (deref s q).
Proof.
  intros Hreach Hentry Hq.
  apply (wf_committed s (reachable_wf cfg s Hreach) _ _ _ _ Hentry Hq).
Qed.

Lemma committed_entries_have_valid_ids_witness :
  1 ≤ 10 ∧ 1 ≤ 100 ∧ 1 ≤ tablet_id Ex.T1 ∧ is_Some (deref Ex.committed Ex.r1).
Proof.
  apply (committed_entries_have_valid_ids Ex.cfg Ex.committed 10 100 Ex.T1
           (mkTabletTxnInfo Ex.L1 (Some Ex.r1) 5) Ex.r1).
  - apply Ex_committed_reachable.
  - vm_compute. reflexivity.
  - reflexivity.
Defined.

(** X20.  Whatever prepare returns, it leaves rowsets, stores, tablets and the
    list of unused rowsets alone; when it returns ok the index has an entry
    for the key and the partition is listed for the transaction. *)
Theorem prepare_ok_registers (cfg : Config) (env : Env)
    (partition_id : TPartitionId) (transaction_id : TTransactionId)
    (tablet_id0 : TTabletId) (schema_hash0 : SchemaHash) (tablet_uid0 : TabletUid)
    (load_id0 : PUniqueId) (s s' : State) (st : Status) :
  reachable cfg s →
  prepare_txn cfg env partition_id transaction_id tablet_id0 schema_hash0
    tablet_uid0 load_id0 s = (st, s') →
  rowsets s' = rowsets s ∧ metas s' = metas s ∧ tablets s' = tablets s ∧
  unused_rowsets s' = unused_rowsets s ∧
  (st = OK →
   has_txn partition_id transaction_id tablet_id0 schema_hash0 tablet_uid0 s' = true ∧
   partition_id ∈ get_partition_ids transaction_id s').
Proof.
  intros Hreach Hprep. pose proof (reachable_wf cfg s Hreach) as Hwf.
  pose proof (prepare_txn_wf cfg env partition_id transaction_id tablet_id0
                schema_hash0 tablet_uid0 load_id0 s Hwf) as Hwf'.
  rewrite Hprep in Hwf'. simpl in Hwf'.
  set (ti := mkTabletInfo tablet_id0 schema_hash0 tablet_uid0).
  assert (Hlisted : is_Some (index_entry s' (partition_id, transaction_id) ti) →
    has_txn partition_id transaction_id tablet_id0 schema_hash0 tablet_uid0 s' = true ∧
    partition_id ∈ get_partition_ids transaction_id s').
  { intros His. split; [by apply bool_decide_eq_true|].
    apply (wf_partition s' Hwf'). rewrite index_entry_unfold in His.
    destruct (_ !! (partition_id, transaction_id)); [eauto | by destruct His]. }
  rewrite prepare_txn_unfold in Hprep. fold ti in Hprep.
  destruct (prepare_finds_committed s _ ti load_id0) eqn:Hfind.
  - injection Hprep as <- <-. do 4 (split; [done|]). intros _. apply Hlisted.
    unfold prepare_finds_committed in Hfind. unfold index_entry.
    destruct (find_load_info _ _ _); [eauto|done].
  - destruct (_ >? _).
    + injection Hprep as <- <-. do 4 (split; [done|]). done.
    + injection Hprep as <- <-.
      split; [apply store_rowsets|]. split; [apply store_metas|].
      split; [|split].
      * unfold store_load_info, _insert_txn_partition_map_unlocked. by destruct (_ !! _).
      * unfold store_load_info, _insert_txn_partition_map_unlocked. by destruct (_ !! _).
      * intros _. apply Hlisted. rewrite store_index_entry by apply Hwf.
        rewrite decide_True by done. eauto.
Qed.

Lemma prepare_ok_registers_witness :
  rowsets Ex.prepared = rowsets Ex.s0 ∧ metas Ex.prepared = metas Ex.s0 ∧
  tablets Ex.prepared = tablets Ex.s0 ∧
  unused_rowsets Ex.prepared = unused_rowsets Ex.s0 ∧
  (OK = OK →
   has_txn 10 100 7 42 Ex.U1 Ex.prepared = true ∧
   10 ∈ get_partition_ids 100 Ex.prepared).
Proof.
  apply (prepare_ok_registers Ex.cfg (Ex.at_time 0) 10 100 7 42 Ex.U1 Ex.L1
           Ex.s0 Ex.prepared OK).
  - apply Ex_s0_reachable.
  - vm_compute. reflexivity.
Defined.

(** ** The delta-writer side map *)

Lemma routes_shard_of_lt (d : DeltaWriterRoutes) (t : Z) :
  routes_in_range d →
  (routes_shard_of d t < length (_txn_tablet_delta_writer_map d))%nat.
Proof.
  intros [Hpos Hlen]. rewrite Hlen. unfold routes_shard_of.
  pose proof (land_bounds t (routes_shard_size d - 1)). lia.
Qed.

Lemma routes_get_put (d : DeltaWriterRoutes) (t t' : Z)
    (m : txn_tablet_delta_writer_map_t) :
  routes_in_range d →
  _get_txn_tablet_delta_writer_map (put_txn_tablet_delta_writer_map d t m) t' =
  if decide (routes_shard_of d t = routes_shard_of d t') then m
  else _get_txn_tablet_delta_writer_map d t'.
Proof.
  intros Hr.
  change (<[routes_shard_of d t := m]> (_txn_tablet_delta_writer_map d)
            !!! routes_shard_of d t' =
          if decide (routes_shard_of d t = routes_shard_of d t') then m
          else _txn_tablet_delta_writer_map d !!! routes_shard_of d t').
  rewrite list_lookup_total_insert.
  pose proof (routes_shard_of_lt d t Hr).
  destruct (decide (routes_shard_of d t = routes_shard_of d t')) as [Heq|Hne].
  - by rewrite decide_True.
  - rewrite decide_False; [done | naive_solver].
Qed.

Lemma routes_put_in_range (d : DeltaWriterRoutes) (t : Z)
    (m : txn_tablet_delta_writer_map_t) :
  routes_in_range d → routes_in_range (put_txn_tablet_delta_writer_map d t m).
Proof.
  intros [Hpos Hlen]. split; [done|]. simpl. by rewrite length_insert.
Qed.

Lemma route_of_add (d : DeltaWriterRoutes) (t tab : Z) (w : positive) (t' tab' : Z) :
  routes_in_range d →
  route_of (add_txn_tablet_delta_writer t tab w d) t' tab' =
  if decide (t' = t ∧ tab' = tab) then Some w else route_of d t' tab'.
Proof.
  intros Hr. unfold route_of, add_txn_tablet_delta_writer.
  rewrite routes_get_put by done.
  destruct (decide (routes_shard_of d t = routes_shard_of d t')) as [Hsh|Hsh].
  - destruct (decide (t' = t)) as [->|Hne].
    + rewrite lookup_insert_eq. simpl.
      destruct (decide (tab' = tab)) as [->|Hnt].
      * rewrite lookup_insert_eq. by rewrite decide_True.
      * rewrite lookup_insert_ne by done. rewrite decide_False by naive_solver.
        destruct (_get_txn_tablet_delta_writer_map d t !! t) as [ws|] eqn:Hl.
        -- by rewrite Hl.
        -- rewrite lookup_insert_eq. simpl. by rewrite lookup_empty.
    + rewrite decide_False by naive_solver.
      rewrite lookup_insert_ne by done.
      assert (Hget : _get_txn_tablet_delta_writer_map d t'
                     = _get_txn_tablet_delta_writer_map d t)
        by (unfold _get_txn_tablet_delta_writer_map; by rewrite Hsh).
      rewrite Hget.
      destruct (_get_txn_tablet_delta_writer_map d t !! t); [done|].
      by rewrite lookup_insert_ne.
  - rewrite decide_False; [done|]. intros [-> _]. done.
Qed.

Lemma route_of_clear (d : DeltaWriterRoutes) (t t' tab' : Z) :
  routes_in_range d →
  route_of (clear_txn_tablet_delta_writer t d) t' tab' =
  if decide (t' = t) then None else route_of d t' tab'.
Proof.
  intros Hr. unfold route_of, clear_txn_tablet_delta_writer.
  destruct (_get_txn_tablet_delta_writer_map d t !! t) as [ws|] eqn:Hl.
  - rewrite routes_get_put by done.
    destruct (decide (routes_shard_of d t = routes_shard_of d t')) as [Hsh|Hsh].
    + destruct (decide (t' = t)) as [->|Hne].
      * by rewrite lookup_delete_eq.
      * rewrite lookup_delete_ne by done.
        assert (Hget : _get_txn_tablet_delta_writer_map d t'
                       = _get_txn_tablet_delta_writer_map d t)
          by (unfold _get_txn_tablet_delta_writer_map; by rewrite Hsh).
        by rewrite Hget.
    + rewrite decide_False; [done|]. by intros ->.
  - destruct (decide (t' = t)) as [->|Hne]; [by rewrite Hl | done].
Qed.

Lemma add_in_range (d : DeltaWriterRoutes) (t tab : Z) (w : positive) :
  routes_in_range d → routes_in_range (add_txn_tablet_delta_writer t tab w d).
Proof. intros Hr. by apply routes_put_in_range. Qed.

Lemma clear_in_range_routes (d : DeltaWriterRoutes) (t : Z) :
  routes_in_range d → routes_in_range (clear_txn_tablet_delta_writer t d).
Proof.
  intros Hr. unfold clear_txn_tablet_delta_writer.
  destruct (_ !! _); [by apply routes_put_in_range | done].
Qed.

Lemma finish_unfold (d : DeltaWriterRoutes) (t tab node : Z) (ok : bool) :
  finish_slave_tablet_pull_rowset t tab node ok d =
  match route_of d t tab with
  | Some w =>
      mkDeltaWriterRoutes (routes_shard_size d) (_txn_tablet_delta_writer_map d)
        (slave_pull_finished d ++ [(w, node, ok)])
  | None => d
  end.
Proof.
  unfold finish_slave_tablet_pull_rowset, route_of.
  destruct (_ !! t) as [ws|]; simpl; [|done]. by destruct (ws !! tab).
Qed.

(** X21.  Registering a delta writer for (transaction, tablet) makes it the
    writer of that pair, replacing an earlier one, and changes the writer of
    no other pair, also not of transactions in the same shard; nothing is
    notified by registering. *)
Theorem add_delta_writer_routes (d : DeltaWriterRoutes)
    (transaction_id tablet_id0 : Z) (delta_writer : positive) :
  routes_in_range d →
  let d' := add_txn_tablet_delta_writer transaction_id tablet_id0 delta_writer d in
  routes_in_range d' ∧
  route_of d' transaction_id tablet_id0 = Some delta_writer ∧
  (∀ t tab, (t, tab) ≠ (transaction_id, tablet_id0) →
            route_of d' t tab = route_of d t tab) ∧
  slave_pull_finished d' = slave_pull_finished d.
Proof.
  intros Hr d'. split; [by apply add_in_range|]. split; [|split].
  - unfold d'. rewrite route_of_add by done. by rewrite decide_True.
  - intros t tab Hne. unfold d'. rewrite route_of_add by done.
    rewrite decide_False; [done|]. intros [-> ->]. done.
  - done.
Qed.

Lemma add_delta_writer_routes_witness :
  let d' := add_txn_tablet_delta_writer 100 7 1%positive
              (add_txn_tablet_delta_writer 100 7 2%positive
                 (add_txn_tablet_delta_writer 104 7 3%positive Ex2.routes)) in
  routes_in_range d' ∧
  route_of d' 100 7 = Some 1%positive ∧
  (∀ t tab, (t, tab) ≠ (100, 7) →
            route_of d' t tab =
            route_of (add_txn_tablet_delta_writer 100 7 2%positive
                        (add_txn_tablet_delta_writer 104 7 3%positive Ex2.routes)) t tab) ∧
  slave_pull_finished d' =
  slave_pull_finished (add_txn_tablet_delta_writer 100 7 2%positive
                         (add_txn_tablet_delta_writer 104 7 3%positive Ex2.routes)).
Proof.
  apply (add_delta_writer_routes
           (add_txn_tablet_delta_writer 100 7 2%positive
              (add_txn_tablet_delta_writer 104 7 3%positive Ex2.routes)) 100 7 1%positive).
  split; [done | reflexivity].
Defined.

(** X22.  Clearing a transaction leaves no writer for any of its tablets,
    keeps the writers of every other transaction, also in the same shard, and
    notifies nobody. *)
Theorem clear_delta_writers_routes (d : DeltaWriterRoutes) (transaction_id : Z) :
  routes_in_range d →
  let d' := clear_txn_tablet_delta_writer transaction_id d in
  routes_in_range d' ∧
  (∀ tab, route_of d' transaction_id tab = None) ∧
  (∀ t tab, t ≠ transaction_id → route_of d' t tab = route_of d t tab) ∧
  slave_pull_finished d' = slave_pull_finished d.
Proof.
  intros Hr d'. split; [by apply clear_in_range_routes|]. split; [|split].
  - intros tab. unfold d'. rewrite route_of_clear by done. by rewrite decide_True.
  - intros t tab Hne. unfold d'. rewrite route_of_clear by done.
    by rewrite decide_False.
  - unfold d', clear_txn_tablet_delta_writer. by destruct (_ !! _).
Qed.

Lemma clear_delta_writers_routes_witness :
  let d := add_txn_tablet_delta_writer 100 7 2%positive
             (add_txn_tablet_delta_writer 104 7 3%positive Ex2.routes) in
  let d' := clear_txn_tablet_delta_writer 100 d in
  routes_in_range d' ∧
  (∀ tab, route_of d' 100 tab = None) ∧
  (∀ t tab, t ≠ 100 → route_of d' t tab = route_of d t tab) ∧
  slave_pull_finished d' = slave_pull_finished d.
Proof.
  apply (clear_delta_writers_routes
           (add_txn_tablet_delta_writer 100 7 2%positive
              (add_txn_tablet_delta_writer 104 7 3%positive Ex2.routes)) 100).
  split; [done | reflexivity].
Defined.

(** X23.  A pull acknowledgement never changes the table.  After a writer was
    registered for (transaction, tablet) the acknowledgement reaches exactly
    that writer, once, with the node and outcome given; after the transaction
    was cleared, or for a pair never registered, it reaches nobody. *)
Theorem finish_slave_pull_reaches_registered (d : DeltaWriterRoutes)
    (transaction_id tablet_id0 node_id : Z) (is_succeed : bool)
    (delta_writer : positive) :
  routes_in_range d →
  (∀ d0, _txn_tablet_delta_writer_map
           (finish_slave_tablet_pull_rowset transaction_id tablet_id0 node_id is_succeed d0)
         = _txn_tablet_delta_writer_map d0) ∧
  slave_pull_finished
    (finish_slave_tablet_pull_rowset transaction_id tablet_id0 node_id is_succeed
       (add_txn_tablet_delta_writer transaction_id tablet_id0 delta_writer d))
  = slave_pull_finished d ++ [(delta_writer, node_id, is_succeed)] ∧
  finish_slave_tablet_pull_rowset transaction_id tablet_id0 node_id is_succeed
    (clear_txn_tablet_delta_writer transaction_id d)
  = clear_txn_tablet_delta_writer transaction_id d ∧
  (route_of d transaction_id tablet_id0 = None →
   finish_slave_tablet_pull_rowset transaction_id tablet_id0 node_id is_succeed d = d).
Proof.
  intros Hr. split; [|split; [|split]].
  - intros d0. rewrite finish_unfold. by destruct (route_of _ _ _).
  - rewrite finish_unfold, route_of_add by done. by rewrite decide_True.
  - rewrite finish_unfold, route_of_clear by done. by rewrite decide_True.
  - intros Hnone. by rewrite finish_unfold, Hnone.
Qed.

Lemma finish_slave_pull_reaches_registered_witness :
  (∀ d0, _txn_tablet_delta_writer_map
           (finish_slave_tablet_pull_rowset 100 7 3 true d0)
         = _txn_tablet_delta_writer_map d0) ∧
  slave_pull_finished
    (finish_slave_tablet_pull_rowset 100 7 3 true
       (add_txn_tablet_delta_writer 100 7 1%positive Ex2.routes))
  = slave_pull_finished Ex2.routes ++ [(1%positive, 3, true)] ∧
  finish_slave_tablet_pull_rowset 100 7 3 true
    (clear_txn_tablet_delta_writer 100 Ex2.routes)
  = clear_txn_tablet_delta_writer 100 Ex2.routes ∧
  (route_of Ex2.routes 100 7 = None →
   finish_slave_tablet_pull_rowset 100 7 3 true Ex2.routes = Ex2.routes).
Proof.
  apply (finish_slave_pull_reaches_registered Ex2.routes 100 7 3 true 1%positive).
  split; [done | reflexivity].
Defined.

(** ** The delete-bitmap traversal *)

Lemma tablet_grows_refl (v : Version) (tablet : Tablet) : tablet_grows v tablet tablet.
Proof. do 3 (split; [done|]). split; [by intros k row | done]. Qed.

Lemma tablet_grows_trans (v : Version) (t1 t2 t3 : Tablet) :
  tablet_grows v t1 t2 → tablet_grows v t2 t3 → tablet_grows v t1 t3.
Proof.
  intros (Ha1 & Ha2 & Ha3 & Ha4 & Ha5) (Hb1 & Hb2 & Hb3 & Hb4 & Hb5).
  split; [congruence|]. split; [congruence|]. split; [congruence|]. split.
  - intros k row Hin. by apply Hb4, Ha4.
  - intros k Hk. by rewrite Hb5, Ha5.
Qed.

Lemma mark_deleted_grows (loc : RowLocation) (v : Version) (tablet : Tablet) :
  tablet_grows v tablet (mark_deleted loc v tablet).
Proof.
  do 3 (split; [done|]). unfold mark_deleted, delete_bitmap_add. simpl. split.
  - intros k row Hin.
    destruct (decide (k = (loc_rowset_id loc, loc_segment_id loc, v.1))) as [->|Hne].
    + rewrite lookup_insert_eq. simpl. set_solver.
    + by rewrite lookup_insert_ne.
  - intros k Hk. rewrite lookup_insert_ne; [done|]. intros <-. done.
Qed.

Lemma check_pk_from_grows (its : list Segment) (key : string) (tablet : Tablet)
    (v : Version) (find : bool) (tablet' : Tablet) :
  check_pk_from its key tablet v = Some (find, tablet') → tablet_grows v tablet tablet'.
Proof.
  induction its as [|seg its IH]; simpl.
  - intros [= _ <-]. apply tablet_grows_refl.
  - destruct (segment_lookup_row_key seg key) as [st loc].
    destruct (ok_or_not_found st); [|done].
    case_decide; [done|]. intros [= _ <-]. apply (mark_deleted_grows loc v tablet).
Qed.

Lemma scan_cells_grows (cells : list string) (pre : list Segment) (v : Version) :
  ∀ tablet tablet', scan_cells cells pre tablet v = Some tablet' →
                    tablet_grows v tablet tablet'.
Proof.
  induction cells as [|key cells IH]; intros tablet tablet'; simpl.
  - intros [= <-]. apply tablet_grows_refl.
  - destruct (_check_pk_in_pre_segments pre key tablet v) as [[find t1]|] eqn:Hc; [|done].
    simpl. apply check_pk_from_grows in Hc. destruct find.
    + intros Hs. eapply tablet_grows_trans; [done | by apply IH].
    + destruct (lookup_row_key t1 key (v.1 - 1)) as [st loc].
      destruct (ok_or_not_found st); [|done]. case_decide.
      * intros Hs. eapply tablet_grows_trans; [done | by apply IH].
      * intros Hs. apply IH in Hs.
        eapply tablet_grows_trans; [done|].
        eapply tablet_grows_trans; [apply (mark_deleted_grows loc v t1) | done].
Qed.

Lemma read_batches_grows (seg : Segment) (pre : list Segment) (v : Version) (fuel : nat) :
  ∀ remaining last_key tablet st tablet',
    read_batches fuel seg pre v remaining last_key tablet = Some (st, tablet') →
    tablet_grows v tablet tablet'.
Proof.
  induction fuel as [|fuel IH]; intros remaining last_key tablet st tablet'; simpl.
  - destruct (remaining <=? 0); [|done]. intros [= _ <-]. apply tablet_grows_refl.
  - destruct (remaining <=? 0); [intros [= _ <-]; apply tablet_grows_refl|].
    destruct (pk_read seg last_key _) as [st0 cells].
    case_decide; [|intros [= _ <-]; apply tablet_grows_refl].
    destruct (scan_cells _ pre tablet v) as [t1|] eqn:Hs; [|done]. simpl.
    intros Hr. apply scan_cells_grows in Hs. apply IH in Hr.
    by eapply tablet_grows_trans.
Qed.

Lemma scan_segments_grows (v : Version) (segments : list Segment) :
  ∀ pre tablet st tablet',
    scan_segments segments pre v tablet = Some (st, tablet') →
    tablet_grows v tablet tablet'.
Proof.
  induction segments as [|seg segments IH]; intros pre tablet st tablet'; simpl.
  - intros [= _ <-]. apply tablet_grows_refl.
  - destruct (read_batches _ seg pre v _ _ tablet) as [[st1 t1]|] eqn:Hr; [|done].
    simpl. apply read_batches_grows in Hr. case_decide.
    + intros Hs. apply IH in Hs. by eapply tablet_grows_trans.
    + by intros [= _ <-].
Qed.

Lemma publish_delete_bitmap_grows cfg tid q v s st s' :
  publish_delete_bitmap cfg tid q v s = Some (st, s') →
  (∀ tid', tid' ≠ tid → tablets s' !! tid' = tablets s !! tid') ∧
  match tablets s !! tid with
  | Some tablet => ∃ tablet', tablets s' !! tid = Some tablet' ∧ tablet_grows v tablet tablet'
  | None => tablets s' !! tid = None
  end.
Proof.
  unfold publish_delete_bitmap. intros Hp.
  destruct (tablets s !! tid) as [tablet|] eqn:Ht.
  - assert (Hsame : s' = s →
      (∀ tid', tid' ≠ tid → tablets s' !! tid' = tablets s !! tid') ∧
      ∃ tablet', tablets s' !! tid = Some tablet' ∧ tablet_grows v tablet tablet').
    { intros ->. split; [done|]. exists tablet. split; [done | apply tablet_grows_refl]. }
    simpl in Hp. destruct (deref s q) as [r|]; [|done]. simpl in Hp.
    destruct (_ || _); [injection Hp as <- <-; by apply Hsame|].
    destruct (bool_decide _); [|done].
    destruct (load_segments r) as [st0 segs].
    case_decide; [|injection Hp as <- <-; by apply Hsame].
    destruct (scan_segments _ _ _ _) as [[st1 tb]|] eqn:Hs; [|done].
    simpl in Hp. injection Hp as <- <-. apply scan_segments_grows in Hs. split.
    + intros tid' Hne. simpl. by rewrite lookup_insert_ne.
    + exists tb. simpl. by rewrite lookup_insert_eq.
  - destruct (BE_TEST cfg); [|done]. injection Hp as <- <-. by rewrite Ht.
Qed.

Lemma publish_txn_reaches_bitmap cfg env meta p t tid sh uid v s st s' :
  publish_txn cfg env meta p t tid sh uid v s = Some (st, s') →
  tablets s' = tablets s ∨
  ∃ q s1, tablets s1 = tablets s ∧ publish_delete_bitmap cfg tid q v s1 = Some (st, s').
Proof.
  unfold publish_txn. intros Hp.
  destruct (find_load_info _ _ _) as [li|]; [|injection Hp as <- <-; by left].
  destruct (rowset li) as [q|]; [|injection Hp as <- <-; by left].
  destruct (deref s q) as [r|]; [|done]. simpl in Hp.
  destruct (RowsetMetaManager_save _ _ _ _ _ _) as [[sst s1]|] eqn:Hsave; [|done].
  simpl in Hp. apply save_effect in Hsave as [ms [-> _]].
  case_decide; [|injection Hp as <- <-; by left].
  right. eexists q, _. split; [|exact Hp].
  destruct (_ !! (p, t)) as [inner|]; [|done].
  pose proof (erase_rest p t (mkTabletInfo tid sh uid) inner
                (set_metas (set_rowsets s (<[q:=make_visible v r]> (rowsets s))) ms))
    as (_ & _ & _ & Htab & _).
  by rewrite Htab.
Qed.

(** X24.  A publish at version [v] only ever adds bits to delete bitmaps: the
    tablets other than the published one are left as they are, and the
    published tablet keeps its settings and every bit it had, with new bits
    only under keys whose version part is [v.first]. *)
Theorem publish_only_adds_delete_bits (cfg : Config) (env : Env) (meta : option MetaPtr)
    (partition_id : TPartitionId) (transaction_id : TTransactionId)
    (tablet_id0 : TTabletId) (schema_hash0 : SchemaHash) (tablet_uid0 : TabletUid)
    (v : Version) (s s' : State) (st : Status) :
  publish_txn cfg env meta partition_id transaction_id tablet_id0 schema_hash0
    tablet_uid0 v s = Some (st, s') →
  (∀ tid, tid ≠ tablet_id0 → tablets s' !! tid = tablets s !! tid) ∧
  match tablets s !! tablet_id0 with
  | Some tablet =>
      ∃ tablet', tablets s' !! tablet_id0 = Some tablet' ∧ tablet_grows v tablet tablet'
  | None => tablets s' !! tablet_id0 = None
  end.
Proof.
  intros Hp. apply publish_txn_reaches_bitmap in Hp as [Hsame | (q & s1 & Htab & Hp)].
  - rewrite Hsame. split; [done|].
    destruct (tablets s !! tablet_id0) as [tablet|]; [|done].
    exists tablet. split; [done | apply tablet_grows_refl].
  - apply publish_delete_bitmap_grows in Hp. by rewrite Htab in Hp.
Qed.

Lemma publish_only_adds_delete_bits_witness :
  ∃ s',
    publish_txn Ex3.cfg (Ex.at_time 9) (Some Ex.root) 10 103 10 42 Ex3.U10 (6, 6)
      Ex3.committed = Some (OK, s') ∧
    delete_bitmap <$> tablets s' !! 10 =
      Some {[ (5, 0, 6) := {[3]}; (14, 0, 6) := {[1]} ]} ∧
    (∀ tid, tid ≠ 10 → tablets s' !! tid = tablets Ex3.committed !! tid) ∧
    match tablets Ex3.committed !! 10 with
    | Some tablet =>
        ∃ tablet', tablets s' !! 10 = Some tablet' ∧ tablet_grows (6, 6) tablet tablet'
    | None => tablets s' !! 10 = None
    end.
Proof.
  eexists. split; [vm_compute; reflexivity|]. split; [vm_compute; reflexivity|].
  apply (publish_only_adds_delete_bits Ex3.cfg (Ex.at_time 9) (Some Ex.root) 10 103 10 42
           Ex3.U10 (6, 6) Ex3.committed _ OK).
  vm_compute. reflexivity.
Defined.

Lemma check_pk_from_skips (its1 its2 : list Segment) (key : string) (tablet : Tablet)
    (v : Version) :
  (∀ sg, sg ∈ its1 → (segment_lookup_row_key sg key).1 = NotFound) →
  check_pk_from (its1 ++ its2) key tablet v = check_pk_from its2 key tablet v.
Proof.
  induction its1 as [|sg its1 IH]; intros Hall; [done|]. simpl.
  pose proof (Hall sg ltac:(apply elem_of_cons; by left)) as Hsg.
  destruct (segment_lookup_row_key sg key) as [st loc]. simpl in Hsg. subst st.
  simpl. apply IH.
  intros sg' Hin. apply Hall. apply elem_of_cons. by right.
Qed.

(** X25.  The walk over earlier segments goes from the newest back: when a key
    is in several of them, the row marked deleted is the one in the newest
    segment holding the key, and no other bit is set; over segments that do
    not hold the key the answer is false and the tablet is as it was. *)
Theorem check_pk_newest_segment_wins (older newer : list Segment) (seg : Segment)
    (key : string) (loc : RowLocation) (tablet : Tablet) (v : Version) :
  (∀ sg, sg ∈ newer → (segment_lookup_row_key sg key).1 = NotFound) →
  segment_lookup_row_key seg key = (OK, loc) →
  _check_pk_in_pre_segments (older ++ seg :: newer) key tablet v
  = Some (true, mark_deleted loc v tablet) ∧
  _check_pk_in_pre_segments newer key tablet v = Some (false, tablet).
Proof.
  intros Hnewer Hseg. unfold _check_pk_in_pre_segments.
  assert (Hrev : ∀ sg, sg ∈ reverse newer → (segment_lookup_row_key sg key).1 = NotFound).
  { intros sg Hin. apply Hnewer. by apply elem_of_reverse. }
  split.
  - rewrite reverse_app, reverse_cons, <- (assoc_L (++)).
    rewrite check_pk_from_skips by done. simpl. rewrite Hseg. simpl. done.
  - rewrite <- (app_nil_r (reverse newer)). by rewrite check_pk_from_skips.
Qed.

Lemma check_pk_newest_segment_wins_witness :
  _check_pk_in_pre_segments ([Ex3.seg0] ++ Ex3.seg1 :: [Ex3.seg2]) "b"%string
    Ex3.tablet10 (6, 6)
  = Some (true, mark_deleted (mkRowLocation 14 1 0) (6, 6) Ex3.tablet10) ∧
  _check_pk_in_pre_segments [Ex3.seg2] "b"%string Ex3.tablet10 (6, 6)
  = Some (false, Ex3.tablet10).
Proof.
  apply (check_pk_newest_segment_wins [Ex3.seg0] [Ex3.seg2] Ex3.seg1 "b"%string
           (mkRowLocation 14 1 0) Ex3.tablet10 (6, 6)).
  - intros sg Hin. apply list_elem_of_singleton in Hin as ->. reflexivity.
  - reflexivity.
Defined.

Lemma scan_cells_app (cells1 cells2 : list string) (pre : list Segment) (v : Version) :
  ∀ tablet,
    scan_cells (cells1 ++ cells2) pre tablet v =
    scan_cells cells1 pre tablet v ≫= λ tablet', scan_cells cells2 pre tablet' v.
Proof.
  induction cells1 as [|key cells1 IH]; intros tablet; [done|]. simpl.
  destruct (_check_pk_in_pre_segments pre key tablet v) as [[find t1]|]; [|done].
  simpl. destruct find; [apply IH|].
  destruct (lookup_row_key t1 key (v.1 - 1)) as [st loc].
  destruct (ok_or_not_found st); [|done]. case_decide; apply IH.
Qed.

Lemma read_batches_from (seg : Segment) (pre : list Segment) (v : Version)
    (keys : list string) :
  reads_index seg keys →
  ∀ (fuel j : nat) (last_key : string) (tablet : Tablet),
    (length keys - j ≤ fuel)%nat →
    (j = 0%nat ∧ last_key = ""%string) ∨ last_key = nth j keys ""%string →
    read_batches fuel seg pre v (Z.of_nat (length keys) - Z.of_nat j) last_key tablet =
    scan_cells (drop j keys) pre tablet v ≫= λ tablet', Some (OK, tablet').
Proof.
  intros (Hnum & Hfirst & Hnext). induction fuel as [|fuel IH];
    intros j last_key tablet Hfuel Hlast.
  - simpl. rewrite (proj2 (Z.leb_le _ _)) by lia.
    rewrite drop_ge by lia. done.
  - cbn [read_batches].
    destruct (Z.leb_spec (Z.of_nat (length keys) - Z.of_nat j) 0) as [Hle|Hgt].
    { rewrite drop_ge by lia. done. }
    set (remaining := Z.of_nat (length keys) - Z.of_nat j) in *.
    set (n := Z.to_nat (Z.min batch_size remaining)).
    assert (Hn : Z.min batch_size remaining = Z.of_nat n) by (unfold n, batch_size; lia).
    assert (Hn0 : (0 < n)%nat) by (unfold n, batch_size; lia).
    assert (Hnj : (j + n ≤ length keys)%nat) by (unfold n, remaining, batch_size; lia).
    assert (Hread : pk_read seg last_key (Z.of_nat n) = (OK, take n (drop j keys))).
    { destruct Hlast as [[-> ->] | ->].
      - rewrite drop_0. apply Hfirst. lia.
      - by apply Hnext. }
    rewrite Hn, Hread. rewrite decide_True by done.
    destruct ((Z.of_nat n =? batch_size) && negb (Z.of_nat n =? remaining)) eqn:Hcut.
    + apply andb_true_iff in Hcut as [Hb Hr].
      apply Z.eqb_eq in Hb. apply negb_true_iff, Z.eqb_neq in Hr.
      assert (Hn1 : Z.to_nat (Z.of_nat n - 1) = (n - 1)%nat) by lia.
      rewrite Hn1. rewrite take_take. rewrite Nat.min_l by lia.
      rewrite <- (take_drop (n - 1) (drop j keys)) at 2.
      rewrite scan_cells_app.
      destruct (scan_cells (take (n - 1) (drop j keys)) pre tablet v) as [t1|]; [|done].
      simpl. rewrite drop_drop.
      replace (remaining - (Z.of_nat n - 1))
        with (Z.of_nat (length keys) - Z.of_nat (j + (n - 1))) by (unfold remaining; lia).
      apply IH; [unfold batch_size in *; lia|]. right.
      rewrite nth_firstn. rewrite (proj2 (Nat.ltb_lt _ _)) by lia.
      by rewrite nth_skipn.
    + assert (Hall : Z.of_nat n = remaining).
      { apply andb_false_iff in Hcut as [Hb | Hr].
        - apply Z.eqb_neq in Hb. lia.
        - apply negb_false_iff, Z.eqb_eq in Hr. done. }
      rewrite Nat2Z.id, take_take, Nat.min_id.
      rewrite take_ge by (rewrite length_drop; unfold remaining in Hall; lia).
      destruct (scan_cells (drop j keys) pre tablet v) as [t1|]; [|done].
      simpl. rewrite Hall, Z.sub_diag. by destruct fuel.
Qed.

(** X26.  Over a primary-key index that answers reads as [reads_index] says,
    the batch loop of publish (1024 cells a round, the last cell of a full
    round read again in the next) handles every key of the segment exactly
    once and in order: it gives what one pass over all the keys gives, and it
    returns. *)
Theorem read_batches_is_one_pass (seg : Segment) (pre_segments : list Segment)
    (v : Version) (keys : list string) (tablet : Tablet) :
  reads_index seg keys →
  read_batches (Z.to_nat (pk_num_rows seg)) seg pre_segments v (pk_num_rows seg)
    ""%string tablet =
  scan_cells keys pre_segments tablet v ≫= λ tablet', Some (OK, tablet').
Proof.
  intros Hidx. pose proof Hidx as (Hnum & _).
  rewrite Hnum, Nat2Z.id.
  pose proof (read_batches_from seg pre_segments v keys Hidx (length keys) 0 ""%string
                tablet) as Hfrom.
  rewrite drop_0, Z.sub_0_r in Hfrom. apply Hfrom; [lia | by left].
Qed.

(** A segment whose index is [pk_index] over ascending keys reads as the batch
    loop expects. *)
Lemma string_leb_refl (a : string) : String.leb a a = true.
Proof.
  unfold String.leb. destruct (String.compare a a) eqn:Hc; try done.
  pose proof (String.compare_antisym a a) as Ha. rewrite Hc in Ha. done.
Qed.

Lemma string_leb_empty (a : string) : String.leb ""%string a = true.
Proof. by destruct a. Qed.

Lemma string_ltb_leb (a b : string) :
  String.ltb a b = true → String.leb a b = true ∧ String.leb b a = false.
Proof.
  unfold String.ltb, String.leb. rewrite (String.compare_antisym b a).
  by destruct (String.compare a b).
Qed.

Lemma filter_all {A} (f : A → bool) (l : list A) :
  forallb f l = true → List.filter f l = l.
Proof.
  induction l as [|x l IH]; [done|]. simpl. intros [Hx Hl]%andb_true_iff.
  by rewrite Hx, IH.
Qed.

Lemma keys_ascend_seek (keys : list string) :
  keys_ascend keys = true →
  ∀ j : nat, (j < length keys)%nat →
    List.filter (String.leb (nth j keys ""%string)) keys = drop j keys.
Proof.
  induction keys as [|k rest IH]; intros Hasc j Hj; [simpl in Hj; lia|].
  simpl in Hasc. apply andb_true_iff in Hasc as [Hk Hrest].
  destruct j as [|j]; simpl.
  - rewrite string_leb_refl. f_equal. apply filter_all.
    rewrite forallb_forall in Hk |- *. intros x Hx.
    by apply string_ltb_leb, Hk.
  - simpl in Hj.
    assert (Hin : In (nth j rest ""%string) rest) by (apply nth_In; lia).
    rewrite forallb_forall in Hk.
    destruct (string_ltb_leb _ _ (Hk _ Hin)) as [_ ->].
    apply IH; [done | lia].
Qed.

Lemma pk_index_reads_index (seg : Segment) (keys : list string) :
  keys_ascend keys = true →
  pk_num_rows seg = Z.of_nat (length keys) →
  pk_read seg = Ex3.pk_index keys →
  reads_index seg keys.
Proof.
  intros Hasc Hnum Hread. split; [done|]. rewrite Hread. unfold Ex3.pk_index. split.
  - intros n Hn. rewrite Nat2Z.id. f_equal. f_equal.
    apply filter_all, forallb_forall. intros x _. apply string_leb_empty.
  - intros j n Hn Hj. rewrite Nat2Z.id. f_equal. f_equal.
    apply keys_ascend_seek; [done | lia].
Qed.

Lemma read_batches_is_one_pass_witness :
  1024 < pk_num_rows Ex3.seg_big ∧
  read_batches (Z.to_nat (pk_num_rows Ex3.seg_big)) Ex3.seg_big [Ex3.seg0] (6, 6)
    (pk_num_rows Ex3.seg_big) ""%string Ex3.tablet10 =
  scan_cells Ex3.many_keys [Ex3.seg0] Ex3.tablet10 (6, 6) ≫= λ tablet', Some (OK, tablet').
Proof.
  split; [reflexivity|].
  apply (read_batches_is_one_pass Ex3.seg_big [Ex3.seg0] (6, 6) Ex3.many_keys Ex3.tablet10).
  apply pk_index_reads_index.
  - vm_compute. reflexivity.
  - vm_compute. reflexivity.
  - reflexivity.
Defined.
